(** * Library inventory manager: Book, LibraryInventory and the console
    commands of [library-inventory-manager-Bhavya_Anand/__init__.py].

    The development is a shallow embedding.  A Python [str] is the list of
    its code points; the four attributes of a [Book] carry the type [str]
    that [Book.__init__] documents.  Calls that can raise return a
    [result]; the file behind [file_path], the log and the console are
    threaded explicitly.  The methods of [str] and the [json] module are
    embedded as the interpreter has them (CPython 3.11, Unicode 14.0.0). *)

From Stdlib Require Import String Ascii List Bool Arith PeanoNat NArith ZArith Lia.
From Stdlib Require Import Permutation.
Import ListNotations.
Local Open Scope list_scope.
Set Warnings "-register-all".

(** ** Outcomes of calls that can raise *)

Inductive exn : Type :=
| JSONDecodeError
| TypeError
| OSError.

(** [Outside] marks an input on which the embedding says nothing: a text
    nested deeper than [depth_limit] (the interpreter has a recursion limit
    of its own, far above it), a book attribute that is not a [str], a
    status whose first character lies outside the table of [capital].  It
    never stands for an exception. *)
Inductive result (A : Type) : Type :=
| Ok (a : A)
| Raise (e : exn)
| Outside.

Arguments Ok {A} a.
Arguments Raise {A} e.
Arguments Outside {A}.

Definition bind {A B : Type} (r : result A) (k : A -> result B) : result B :=
  match r with
  | Ok a => k a
  | Raise e => Raise e
  | Outside => Outside
  end.

Notation "'do' x <- r ; k" := (bind r (fun x => k))
  (at level 10, x pattern, r at level 100, k at level 200).

(** ** Strings

    A character is its code point, a [str] the list of its characters.
    [py] gives the [str] of a literal of the program, [ch] the code point
    of one of its characters. *)

Definition char : Type := N.
Definition str : Type := list char.

Definition ch (a : ascii) : char := N_of_ascii a.
Definition py (s : string) : str := map N_of_ascii (list_ascii_of_string s).

Arguments ch a%_char.
Arguments py s%_string.

Definition DQ : char := 34%N.   (* the double quote *)
Definition BSL : char := 92%N.  (* the backslash *)
Definition LF : char := 10%N.   (* \n *)
Definition CR : char := 13%N.   (* \r *)
Definition TAB : char := 9%N.   (* \t *)
Definition BS : char := 8%N.    (* \b *)
Definition FF : char := 12%N.   (* \f *)

(** [a == b] on two [str]. *)
Fixpoint str_eqb (a b : str) : bool :=
  match a, b with
  | [], [] => true
  | x :: a', y :: b' => (x =? y)%N && str_eqb a' b'
  | _, _ => false
  end.

Definition is_digit (c : char) : bool := ((48 <=? c) && (c <=? 57))%N.

(** The code points of a [str] end at U+10FFFF; U+D800 to U+DBFF are the
    high surrogates and U+DC00 to U+DFFF the low ones. *)
Definition code_point (c : char) : bool := (c <? 1114112)%N.
Definition is_high (c : char) : bool := ((55296 <=? c) && (c <=? 56319))%N.
Definition is_low (c : char) : bool := ((56320 <=? c) && (c <=? 57343))%N.

(** ** [str.lower()]

    [lower_table] lists the characters with a lower-case form of their
    own: a row (first, last, step, image) stands for the characters first,
    first + step, ... up to last, the image of first + k being image + k.
    U+0130 alone has a lower-case form of two characters.  A capital sigma
    becomes the final sigma when a cased character stands before it, after
    any case-ignorable ones, and none stands after it in the same way.
    [case_ignorable_table] lists the case-ignorable characters and
    [cased_table] the cased ones that are not case-ignorable, as ranges. *)

Definition lower_table : list (N * N * N * N) :=
  [(65, 90, 1, 97); (192, 214, 1, 224); (216, 222, 1, 248);
   (256, 302, 2, 257); (306, 310, 2, 307); (313, 327, 2, 314);
   (330, 374, 2, 331); (376, 376, 1, 255); (377, 381, 2, 378);
   (385, 385, 1, 595); (386, 388, 2, 387); (390, 390, 1, 596);
   (391, 391, 1, 392); (393, 394, 1, 598); (395, 395, 1, 396);
   (398, 398, 1, 477); (399, 399, 1, 601); (400, 400, 1, 603);
   (401, 401, 1, 402); (403, 403, 1, 608); (404, 404, 1, 611);
   (406, 406, 1, 617); (407, 407, 1, 616); (408, 408, 1, 409);
   (412, 412, 1, 623); (413, 413, 1, 626); (415, 415, 1, 629);
   (416, 420, 2, 417); (422, 422, 1, 640); (423, 423, 1, 424);
   (425, 425, 1, 643); (428, 428, 1, 429); (430, 430, 1, 648);
   (431, 431, 1, 432); (433, 434, 1, 650); (435, 437, 2, 436);
   (439, 439, 1, 658); (440, 440, 1, 441); (444, 444, 1, 445);
   (452, 452, 1, 454); (453, 453, 1, 454); (455, 455, 1, 457);
   (456, 456, 1, 457); (458, 458, 1, 460); (459, 475, 2, 460);
   (478, 494, 2, 479); (497, 497, 1, 499); (498, 500, 2, 499);
   (502, 502, 1, 405); (503, 503, 1, 447); (504, 542, 2, 505);
   (544, 544, 1, 414); (546, 562, 2, 547); (570, 570, 1, 11365);
   (571, 571, 1, 572); (573, 573, 1, 410); (574, 574, 1, 11366);
   (577, 577, 1, 578); (579, 579, 1, 384); (580, 580, 1, 649);
   (581, 581, 1, 652); (582, 590, 2, 583); (880, 882, 2, 881);
   (886, 886, 1, 887); (895, 895, 1, 1011); (902, 902, 1, 940);
   (904, 906, 1, 941); (908, 908, 1, 972); (910, 911, 1, 973);
   (913, 929, 1, 945); (931, 939, 1, 963); (975, 975, 1, 983);
   (984, 1006, 2, 985); (1012, 1012, 1, 952); (1015, 1015, 1, 1016);
   (1017, 1017, 1, 1010); (1018, 1018, 1, 1019); (1021, 1023, 1, 891);
   (1024, 1039, 1, 1104); (1040, 1071, 1, 1072); (1120, 1152, 2, 1121);
   (1162, 1214, 2, 1163); (1216, 1216, 1, 1231); (1217, 1229, 2, 1218);
   (1232, 1326, 2, 1233); (1329, 1366, 1, 1377); (4256, 4293, 1, 11520);
   (4295, 4295, 1, 11559); (4301, 4301, 1, 11565); (5024, 5103, 1, 43888);
   (5104, 5109, 1, 5112); (7312, 7354, 1, 4304); (7357, 7359, 1, 4349);
   (7680, 7828, 2, 7681); (7838, 7838, 1, 223); (7840, 7934, 2, 7841);
   (7944, 7951, 1, 7936); (7960, 7965, 1, 7952); (7976, 7983, 1, 7968);
   (7992, 7999, 1, 7984); (8008, 8013, 1, 8000); (8025, 8031, 2, 8017);
   (8040, 8047, 1, 8032); (8072, 8079, 1, 8064); (8088, 8095, 1, 8080);
   (8104, 8111, 1, 8096); (8120, 8121, 1, 8112); (8122, 8123, 1, 8048);
   (8124, 8124, 1, 8115); (8136, 8139, 1, 8050); (8140, 8140, 1, 8131);
   (8152, 8153, 1, 8144); (8154, 8155, 1, 8054); (8168, 8169, 1, 8160);
   (8170, 8171, 1, 8058); (8172, 8172, 1, 8165); (8184, 8185, 1, 8056);
   (8186, 8187, 1, 8060); (8188, 8188, 1, 8179); (8486, 8486, 1, 969);
   (8490, 8490, 1, 107); (8491, 8491, 1, 229); (8498, 8498, 1, 8526);
   (8544, 8559, 1, 8560); (8579, 8579, 1, 8580); (9398, 9423, 1, 9424);
   (11264, 11311, 1, 11312); (11360, 11360, 1, 11361); (11362, 11362, 1, 619);
   (11363, 11363, 1, 7549); (11364, 11364, 1, 637); (11367, 11371, 2, 11368);
   (11373, 11373, 1, 593); (11374, 11374, 1, 625); (11375, 11375, 1, 592);
   (11376, 11376, 1, 594); (11378, 11378, 1, 11379); (11381, 11381, 1, 11382);
   (11390, 11391, 1, 575); (11392, 11490, 2, 11393); (11499, 11501, 2, 11500);
   (11506, 11506, 1, 11507); (42560, 42604, 2, 42561); (42624, 42650, 2, 42625);
   (42786, 42798, 2, 42787); (42802, 42862, 2, 42803); (42873, 42875, 2, 42874);
   (42877, 42877, 1, 7545); (42878, 42886, 2, 42879); (42891, 42891, 1, 42892);
   (42893, 42893, 1, 613); (42896, 42898, 2, 42897); (42902, 42920, 2, 42903);
   (42922, 42922, 1, 614); (42923, 42923, 1, 604); (42924, 42924, 1, 609);
   (42925, 42925, 1, 620); (42926, 42926, 1, 618); (42928, 42928, 1, 670);
   (42929, 42929, 1, 647); (42930, 42930, 1, 669); (42931, 42931, 1, 43859);
   (42932, 42946, 2, 42933); (42948, 42948, 1, 42900); (42949, 42949, 1, 642);
   (42950, 42950, 1, 7566); (42951, 42953, 2, 42952); (42960, 42960, 1, 42961);
   (42966, 42968, 2, 42967); (42997, 42997, 1, 42998); (65313, 65338, 1, 65345);
   (66560, 66599, 1, 66600); (66736, 66771, 1, 66776); (66928, 66938, 1, 66967);
   (66940, 66954, 1, 66979); (66956, 66962, 1, 66995); (66964, 66965, 1, 67003);
   (68736, 68786, 1, 68800); (71840, 71871, 1, 71872); (93760, 93791, 1, 93792);
   (125184, 125217, 1, 125218)]%N.

Definition case_ignorable_table : list (N * N) :=
  [(39, 39); (46, 46); (58, 58); (94, 94); (96, 96);
   (168, 168); (173, 173); (175, 175); (180, 180); (183, 184);
   (688, 879); (884, 885); (890, 890); (900, 901); (903, 903);
   (1155, 1161); (1369, 1369); (1375, 1375); (1425, 1469); (1471, 1471);
   (1473, 1474); (1476, 1477); (1479, 1479); (1524, 1524); (1536, 1541);
   (1552, 1562); (1564, 1564); (1600, 1600); (1611, 1631); (1648, 1648);
   (1750, 1757); (1759, 1768); (1770, 1773); (1807, 1807); (1809, 1809);
   (1840, 1866); (1958, 1968); (2027, 2037); (2042, 2042); (2045, 2045);
   (2070, 2093); (2137, 2139); (2184, 2184); (2192, 2193); (2200, 2207);
   (2249, 2306); (2362, 2362); (2364, 2364); (2369, 2376); (2381, 2381);
   (2385, 2391); (2402, 2403); (2417, 2417); (2433, 2433); (2492, 2492);
   (2497, 2500); (2509, 2509); (2530, 2531); (2558, 2558); (2561, 2562);
   (2620, 2620); (2625, 2626); (2631, 2632); (2635, 2637); (2641, 2641);
   (2672, 2673); (2677, 2677); (2689, 2690); (2748, 2748); (2753, 2757);
   (2759, 2760); (2765, 2765); (2786, 2787); (2810, 2815); (2817, 2817);
   (2876, 2876); (2879, 2879); (2881, 2884); (2893, 2893); (2901, 2902);
   (2914, 2915); (2946, 2946); (3008, 3008); (3021, 3021); (3072, 3072);
   (3076, 3076); (3132, 3132); (3134, 3136); (3142, 3144); (3146, 3149);
   (3157, 3158); (3170, 3171); (3201, 3201); (3260, 3260); (3263, 3263);
   (3270, 3270); (3276, 3277); (3298, 3299); (3328, 3329); (3387, 3388);
   (3393, 3396); (3405, 3405); (3426, 3427); (3457, 3457); (3530, 3530);
   (3538, 3540); (3542, 3542); (3633, 3633); (3636, 3642); (3654, 3662);
   (3761, 3761); (3764, 3772); (3782, 3782); (3784, 3789); (3864, 3865);
   (3893, 3893); (3895, 3895); (3897, 3897); (3953, 3966); (3968, 3972);
   (3974, 3975); (3981, 3991); (3993, 4028); (4038, 4038); (4141, 4144);
   (4146, 4151); (4153, 4154); (4157, 4158); (4184, 4185); (4190, 4192);
   (4209, 4212); (4226, 4226); (4229, 4230); (4237, 4237); (4253, 4253);
   (4348, 4348); (4957, 4959); (5906, 5908); (5938, 5939); (5970, 5971);
   (6002, 6003); (6068, 6069); (6071, 6077); (6086, 6086); (6089, 6099);
   (6103, 6103); (6109, 6109); (6155, 6159); (6211, 6211); (6277, 6278);
   (6313, 6313); (6432, 6434); (6439, 6440); (6450, 6450); (6457, 6459);
   (6679, 6680); (6683, 6683); (6742, 6742); (6744, 6750); (6752, 6752);
   (6754, 6754); (6757, 6764); (6771, 6780); (6783, 6783); (6823, 6823);
   (6832, 6862); (6912, 6915); (6964, 6964); (6966, 6970); (6972, 6972);
   (6978, 6978); (7019, 7027); (7040, 7041); (7074, 7077); (7080, 7081);
   (7083, 7085); (7142, 7142); (7144, 7145); (7149, 7149); (7151, 7153);
   (7212, 7219); (7222, 7223); (7288, 7293); (7376, 7378); (7380, 7392);
   (7394, 7400); (7405, 7405); (7412, 7412); (7416, 7417); (7468, 7530);
   (7544, 7544); (7579, 7679); (8125, 8125); (8127, 8129); (8141, 8143);
   (8157, 8159); (8173, 8175); (8189, 8190); (8203, 8207); (8216, 8217);
   (8228, 8228); (8231, 8231); (8234, 8238); (8288, 8292); (8294, 8303);
   (8305, 8305); (8319, 8319); (8336, 8348); (8400, 8432); (11388, 11389);
   (11503, 11505); (11631, 11631); (11647, 11647); (11744, 11775); (11823, 11823);
   (12293, 12293); (12330, 12333); (12337, 12341); (12347, 12347); (12441, 12446);
   (12540, 12542); (40981, 40981); (42232, 42237); (42508, 42508); (42607, 42610);
   (42612, 42621); (42623, 42623); (42652, 42655); (42736, 42737); (42752, 42785);
   (42864, 42864); (42888, 42890); (42994, 42996); (43000, 43001); (43010, 43010);
   (43014, 43014); (43019, 43019); (43045, 43046); (43052, 43052); (43204, 43205);
   (43232, 43249); (43263, 43263); (43302, 43309); (43335, 43345); (43392, 43394);
   (43443, 43443); (43446, 43449); (43452, 43453); (43471, 43471); (43493, 43494);
   (43561, 43566); (43569, 43570); (43573, 43574); (43587, 43587); (43596, 43596);
   (43632, 43632); (43644, 43644); (43696, 43696); (43698, 43700); (43703, 43704);
   (43710, 43711); (43713, 43713); (43741, 43741); (43756, 43757); (43763, 43764);
   (43766, 43766); (43867, 43871); (43881, 43883); (44005, 44005); (44008, 44008);
   (44013, 44013); (64286, 64286); (64434, 64450); (65024, 65039); (65043, 65043);
   (65056, 65071); (65106, 65106); (65109, 65109); (65279, 65279); (65287, 65287);
   (65294, 65294); (65306, 65306); (65342, 65342); (65344, 65344); (65392, 65392);
   (65438, 65439); (65507, 65507); (65529, 65531); (66045, 66045); (66272, 66272);
   (66422, 66426); (67456, 67461); (67463, 67504); (67506, 67514); (68097, 68099);
   (68101, 68102); (68108, 68111); (68152, 68154); (68159, 68159); (68325, 68326);
   (68900, 68903); (69291, 69292); (69446, 69456); (69506, 69509); (69633, 69633);
   (69688, 69702); (69744, 69744); (69747, 69748); (69759, 69761); (69811, 69814);
   (69817, 69818); (69821, 69821); (69826, 69826); (69837, 69837); (69888, 69890);
   (69927, 69931); (69933, 69940); (70003, 70003); (70016, 70017); (70070, 70078);
   (70089, 70092); (70095, 70095); (70191, 70193); (70196, 70196); (70198, 70199);
   (70206, 70206); (70367, 70367); (70371, 70378); (70400, 70401); (70459, 70460);
   (70464, 70464); (70502, 70508); (70512, 70516); (70712, 70719); (70722, 70724);
   (70726, 70726); (70750, 70750); (70835, 70840); (70842, 70842); (70847, 70848);
   (70850, 70851); (71090, 71093); (71100, 71101); (71103, 71104); (71132, 71133);
   (71219, 71226); (71229, 71229); (71231, 71232); (71339, 71339); (71341, 71341);
   (71344, 71349); (71351, 71351); (71453, 71455); (71458, 71461); (71463, 71467);
   (71727, 71735); (71737, 71738); (71995, 71996); (71998, 71998); (72003, 72003);
   (72148, 72151); (72154, 72155); (72160, 72160); (72193, 72202); (72243, 72248);
   (72251, 72254); (72263, 72263); (72273, 72278); (72281, 72283); (72330, 72342);
   (72344, 72345); (72752, 72758); (72760, 72765); (72767, 72767); (72850, 72871);
   (72874, 72880); (72882, 72883); (72885, 72886); (73009, 73014); (73018, 73018);
   (73020, 73021); (73023, 73029); (73031, 73031); (73104, 73105); (73109, 73109);
   (73111, 73111); (73459, 73460); (78896, 78904); (92912, 92916); (92976, 92982);
   (92992, 92995); (94031, 94031); (94095, 94111); (94176, 94177); (94179, 94180);
   (110576, 110579); (110581, 110587); (110589, 110590); (113821, 113822); (113824, 113827);
   (118528, 118573); (118576, 118598); (119143, 119145); (119155, 119170); (119173, 119179);
   (119210, 119213); (119362, 119364); (121344, 121398); (121403, 121452); (121461, 121461);
   (121476, 121476); (121499, 121503); (121505, 121519); (122880, 122886); (122888, 122904);
   (122907, 122913); (122915, 122916); (122918, 122922); (123184, 123197); (123566, 123566);
   (123628, 123631); (125136, 125142); (125252, 125259); (127995, 127999); (917505, 917505);
   (917536, 917631); (917760, 917999)]%N.

Definition cased_table : list (N * N) :=
  [(65, 90); (97, 122); (170, 170); (181, 181); (186, 186);
   (192, 214); (216, 246); (248, 442); (444, 447); (452, 659);
   (661, 687); (880, 883); (886, 887); (891, 893); (895, 895);
   (902, 902); (904, 906); (908, 908); (910, 929); (931, 1013);
   (1015, 1153); (1162, 1327); (1329, 1366); (1376, 1416); (4256, 4293);
   (4295, 4295); (4301, 4301); (4304, 4346); (4349, 4351); (5024, 5109);
   (5112, 5117); (7296, 7304); (7312, 7354); (7357, 7359); (7424, 7467);
   (7531, 7543); (7545, 7578); (7680, 7957); (7960, 7965); (7968, 8005);
   (8008, 8013); (8016, 8023); (8025, 8025); (8027, 8027); (8029, 8029);
   (8031, 8061); (8064, 8116); (8118, 8124); (8126, 8126); (8130, 8132);
   (8134, 8140); (8144, 8147); (8150, 8155); (8160, 8172); (8178, 8180);
   (8182, 8188); (8450, 8450); (8455, 8455); (8458, 8467); (8469, 8469);
   (8473, 8477); (8484, 8484); (8486, 8486); (8488, 8488); (8490, 8493);
   (8495, 8500); (8505, 8505); (8508, 8511); (8517, 8521); (8526, 8526);
   (8544, 8575); (8579, 8580); (9398, 9449); (11264, 11387); (11390, 11492);
   (11499, 11502); (11506, 11507); (11520, 11557); (11559, 11559); (11565, 11565);
   (42560, 42605); (42624, 42651); (42786, 42863); (42865, 42887); (42891, 42894);
   (42896, 42954); (42960, 42961); (42963, 42963); (42965, 42969); (42997, 42998);
   (43002, 43002); (43824, 43866); (43872, 43880); (43888, 43967); (64256, 64262);
   (64275, 64279); (65313, 65338); (65345, 65370); (66560, 66639); (66736, 66771);
   (66776, 66811); (66928, 66938); (66940, 66954); (66956, 66962); (66964, 66965);
   (66967, 66977); (66979, 66993); (66995, 67001); (67003, 67004); (68736, 68786);
   (68800, 68850); (71840, 71903); (93760, 93823); (119808, 119892); (119894, 119964);
   (119966, 119967); (119970, 119970); (119973, 119974); (119977, 119980); (119982, 119993);
   (119995, 119995); (119997, 120003); (120005, 120069); (120071, 120074); (120077, 120084);
   (120086, 120092); (120094, 120121); (120123, 120126); (120128, 120132); (120134, 120134);
   (120138, 120144); (120146, 120485); (120488, 120512); (120514, 120538); (120540, 120570);
   (120572, 120596); (120598, 120628); (120630, 120654); (120656, 120686); (120688, 120712);
   (120714, 120744); (120746, 120770); (120772, 120779); (122624, 122633); (122635, 122654);
   (125184, 125251); (127280, 127305); (127312, 127337); (127344, 127369)]%N.

Definition in_ranges (c : char) (table : list (N * N)) : bool :=
  existsb (fun r => (fst r <=? c) && (c <=? snd r))%N table.

Definition case_ignorable (c : char) : bool := in_ranges c case_ignorable_table.
Definition cased (c : char) : bool := in_ranges c cased_table.

Fixpoint lower_lookup (c : char) (table : list (N * N * N * N)) : char :=
  match table with
  | [] => c
  | (first, last, step, image) :: rest =>
      if ((first <=? c) && (c <=? last) && ((c - first) mod step =? 0))%N
      then (image + (c - first))%N
      else lower_lookup c rest
  end.

Definition lower_char (c : char) : str :=
  if (c =? 304)%N then [105; 775]%N else [lower_lookup c lower_table].

Fixpoint skip_ignorable (s : str) : str :=
  match s with
  | c :: r => if case_ignorable c then skip_ignorable r else s
  | [] => []
  end.

Definition cased_next (s : str) : bool :=
  match skip_ignorable s with
  | c :: _ => cased c
  | [] => false
  end.

(** [before] is what stands before the sigma, nearest character first. *)
Definition final_sigma (before after : str) : bool :=
  cased_next before && negb (cased_next after).

Fixpoint lower_from (before s : str) : str :=
  match s with
  | [] => []
  | c :: r =>
      (if (c =? 931)%N
       then [if final_sigma before r then 962 else 963]%N
       else lower_char c)
      ++ lower_from (c :: before) r
  end.

Definition lower (s : str) : str := lower_from [] s.

(** [needle in haystack] on two [str]. *)
Fixpoint prefix (needle haystack : str) : bool :=
  match needle, haystack with
  | [], _ => true
  | a :: n, b :: h => (a =? b)%N && prefix n h
  | _ :: _, [] => false
  end.

Fixpoint contains (needle haystack : str) : bool :=
  prefix needle haystack
  || match haystack with
     | [] => false
     | _ :: r => contains needle r
     end.

(** ** JSON values, as [json.load] returns them

    A [dict] is kept as the list of its members in document order; a lookup
    takes the last member with the key, which is the value the [dict] holds.
    A number is kept as the literal that denotes it: the inventory never
    stores one. *)

Inductive json : Type :=
| JNull
| JBool (b : bool)
| JNum (literal : str)
| JStr (s : str)
| JArr (items : list json)
| JObj (members : list (str * json)).

Fixpoint dict_get (k : str) (members : list (str * json)) : option json :=
  match members with
  | [] => None
  | (k', v) :: rest =>
      match dict_get k rest with
      | Some v' => Some v'
      | None => if str_eqb k k' then Some v else None
      end
  end.

Definition dict_keys (members : list (str * json)) : list str :=
  map fst members.

(** ** [json.dump(obj, f, indent=4)]: the text written *)

Definition hex_digit (n : N) : char :=
  (if n <? 10 then 48 + n else 87 + n)%N.

(** The four digits of the format 04x. *)
Definition hex4 (n : N) : str :=
  [hex_digit (n / 4096 mod 16); hex_digit (n / 256 mod 16);
   hex_digit (n / 16 mod 16); hex_digit (n mod 16)]%N.

Definition u_escape (n : N) : str := BSL :: ch "u" :: hex4 n.

(** One character of [encode_basestring_ascii]: a character above U+FFFF
    is written as the escapes of its two surrogates. *)
Definition escape_char (c : char) : str :=
  if (c =? DQ)%N then [BSL; DQ]
  else if (c =? BSL)%N then [BSL; BSL]
  else if (c =? LF)%N then [BSL; ch "n"]
  else if (c =? CR)%N then [BSL; ch "r"]
  else if (c =? TAB)%N then [BSL; ch "t"]
  else if (c =? BS)%N then [BSL; ch "b"]
  else if (c =? FF)%N then [BSL; ch "f"]
  else if ((32 <=? c) && (c <=? 126))%N then [c]
  else if (c <? 65536)%N then u_escape c
  else
    let n := (c - 65536)%N in
    u_escape (55296 + n / 1024 mod 1024)%N ++ u_escape (56320 + n mod 1024)%N.

Fixpoint escape (s : str) : str :=
  match s with
  | [] => []
  | c :: r => escape_char c ++ escape r
  end.

Definition quote (s : str) : str := DQ :: escape s ++ [DQ].

Fixpoint spaces (n : nat) : str :=
  match n with
  | 0 => []
  | S k => ch " " :: spaces k
  end.

(** The line break and indentation in front of an item at nesting [level]. *)
Definition newline_indent (level : nat) : str := LF :: spaces (4 * level).

Fixpoint encode (level : nat) (v : json) {struct v} : str :=
  match v with
  | JNull => py "null"
  | JBool true => py "true"
  | JBool false => py "false"
  | JNum literal => literal
  | JStr s => quote s
  | JArr [] => py "[]"
  | JArr (x :: xs) =>
      py "[" ++ newline_indent (S level) ++ encode (S level) x
      ++ (fix more (l : list json) : str :=
            match l with
            | [] => []
            | y :: ys =>
                py "," ++ newline_indent (S level) ++ encode (S level) y
                ++ more ys
            end) xs
      ++ newline_indent level ++ py "]"
  | JObj [] => py "{}"
  | JObj ((k, x) :: ms) =>
      py "{" ++ newline_indent (S level) ++ quote k ++ py ": "
      ++ encode (S level) x
      ++ (fix more (l : list (str * json)) : str :=
            match l with
            | [] => []
            | (k', y) :: ys =>
                py "," ++ newline_indent (S level) ++ quote k' ++ py ": "
                ++ encode (S level) y ++ more ys
            end) ms
      ++ newline_indent level ++ py "}"
  end.

Definition json_dumps (v : json) : str := encode 0 v.

(** ** [json.load(f)]: the decoder

    The functions follow the scanner of the [json] module: [skip_ws] is the
    [WHITESPACE] pattern, [scanstring] reads a string after its opening quote
    (strict mode: a raw control character is an error; the escape of a high
    surrogate followed by the escape of a low one gives the one character
    they encode), [scan_number] is the [NUMBER_RE] pattern, and
    [parse_value] is [scan_once]. *)

Fixpoint skip_ws (s : str) : str :=
  match s with
  | c :: r =>
      if ((c =? ch " ") || (c =? TAB) || (c =? LF) || (c =? CR))%N
      then skip_ws r
      else s
  | [] => s
  end.

Definition hex_value (c : char) : option N :=
  if ((48 <=? c) && (c <=? 57))%N then Some (c - 48)%N
  else if ((97 <=? c) && (c <=? 102))%N then Some (c - 87)%N
  else if ((65 <=? c) && (c <=? 70))%N then Some (c - 55)%N
  else None.

Definition hex4_value (a b c d : char) : option N :=
  match hex_value a, hex_value b, hex_value c, hex_value d with
  | Some x, Some y, Some z, Some w => Some (((x * 16 + y) * 16 + z) * 16 + w)%N
  | _, _, _, _ => None
  end.

Definition join_surrogates (high low : N) : char :=
  (65536 + (high - 55296) * 1024 + (low - 56320))%N.

(** The [BACKSLASH] table of the decoder. *)
Definition unescape (e : char) : option char :=
  if (e =? DQ)%N then Some DQ
  else if (e =? BSL)%N then Some BSL
  else if (e =? ch "/")%N then Some (ch "/")
  else if (e =? ch "b")%N then Some BS
  else if (e =? ch "f")%N then Some FF
  else if (e =? ch "n")%N then Some LF
  else if (e =? ch "r")%N then Some CR
  else if (e =? ch "t")%N then Some TAB
  else None.

Definition cons_char (c : char) (r : result (str * str))
  : result (str * str) :=
  match r with
  | Ok (s, rest) => Ok (c :: s, rest)
  | Raise e => Raise e
  | Outside => Outside
  end.

Fixpoint scanstring (s : str) : result (str * str) :=
  match s with
  | [] => Raise JSONDecodeError
  | c :: r =>
      if (c =? DQ)%N then Ok ([], r)
      else if (c =? BSL)%N then
        match r with
        | [] => Raise JSONDecodeError
        | e :: r1 =>
            if (e =? ch "u")%N then
              match r1 with
              | h1 :: h2 :: h3 :: h4 :: r2 =>
                  match hex4_value h1 h2 h3 h4 with
                  | None => Raise JSONDecodeError
                  | Some n =>
                      if is_high n then
                        match r2 with
                        | b :: u :: k1 :: k2 :: k3 :: k4 :: r3 =>
                            if ((b =? BSL) && (u =? ch "u"))%N then
                              match hex4_value k1 k2 k3 k4 with
                              | None => Raise JSONDecodeError
                              | Some m =>
                                  if is_low m
                                  then cons_char (join_surrogates n m)
                                         (scanstring r3)
                                  else cons_char n (scanstring r2)
                              end
                            else cons_char n (scanstring r2)
                        | _ => cons_char n (scanstring r2)
                        end
                      else cons_char n (scanstring r2)
                  end
              | _ => Raise JSONDecodeError
              end
            else
              match unescape e with
              | Some x => cons_char x (scanstring r1)
              | None => Raise JSONDecodeError
              end
        end
      else if (c <? 32)%N then Raise JSONDecodeError
      else cons_char c (scanstring r)
  end.

(** The longest prefix of decimal digits, and what follows it. *)
Fixpoint span_digits (s : str) : str * str :=
  match s with
  | c :: r =>
      if is_digit c
      then let (ds, rest) := span_digits r in (c :: ds, rest)
      else ([], s)
  | [] => ([], s)
  end.

(** The integer part of a number: an optional minus sign, then either a lone
    zero or a digit from 1 to 9 followed by digits. *)
Definition scan_int (s : str) : option (str * str) :=
  let (sign, s1) :=
    match s with
    | c :: r => if (c =? ch "-")%N then (py "-", r) else ([], s)
    | [] => ([], s)
    end in
  match s1 with
  | c :: r =>
      if (c =? ch "0")%N then Some (sign ++ py "0", r)
      else if is_digit c
      then let (ds, rest) := span_digits r in Some (sign ++ c :: ds, rest)
      else None
  | [] => None
  end.

(** The optional fraction: a dot followed by at least one digit. *)
Definition scan_frac (s : str) : str * str :=
  match s with
  | c :: r =>
      if (c =? ch ".")%N then
        match span_digits r with
        | ([], _) => ([], s)
        | (ds, rest) => (c :: ds, rest)
        end
      else ([], s)
  | [] => ([], s)
  end.

(** The optional exponent: e or E, an optional sign, at least one digit. *)
Definition scan_exp (s : str) : str * str :=
  match s with
  | c :: r =>
      if ((c =? ch "e") || (c =? ch "E"))%N then
        let (sign, r1) :=
          match r with
          | g :: r' =>
              if ((g =? ch "-") || (g =? ch "+"))%N
              then ([g], r')
              else ([], r)
          | [] => ([], r)
          end in
        match span_digits r1 with
        | ([], _) => ([], s)
        | (ds, rest) => (c :: sign ++ ds, rest)
        end
      else ([], s)
  | [] => ([], s)
  end.

Definition scan_number (s : str) : option (str * str) :=
  match scan_int s with
  | None => None
  | Some (i, r) =>
      let (f, r1) := scan_frac r in
      let (e, r2) := scan_exp r1 in
      Some (i ++ f ++ e, r2)
  end.

(** [strip_prefix p s]: what follows [p] in [s], when [s] starts with [p]. *)
Fixpoint strip_prefix (p s : str) : option str :=
  match p, s with
  | [], _ => Some s
  | a :: p', b :: s' => if (a =? b)%N then strip_prefix p' s' else None
  | _ :: _, [] => None
  end.

(** The scalars of [scan_once] other than strings, in the order it tries
    them. *)
Definition parse_scalar (s : str) : result (json * str) :=
  match strip_prefix (py "null") s with
  | Some r => Ok (JNull, r)
  | None =>
  match strip_prefix (py "true") s with
  | Some r => Ok (JBool true, r)
  | None =>
  match strip_prefix (py "false") s with
  | Some r => Ok (JBool false, r)
  | None =>
  match scan_number s with
  | Some (l, r) => Ok (JNum l, r)
  | None =>
  match strip_prefix (py "NaN") s with
  | Some r => Ok (JNum (py "NaN"), r)
  | None =>
  match strip_prefix (py "Infinity") s with
  | Some r => Ok (JNum (py "Infinity"), r)
  | None =>
  match strip_prefix (py "-Infinity") s with
  | Some r => Ok (JNum (py "-Infinity"), r)
  | None => Raise JSONDecodeError
  end end end end end end end.

(** The nesting of arrays and objects up to which the decoder is
    modelled. *)
Definition depth_limit : nat := 200.

(** [parse_value] is [scan_once]; [parse_items] is the loop of [JSONArray]
    from the first item on, [parse_members] the loop of [JSONObject] from the
    quote that opens a key.  [depth] is the number of arrays and objects
    that may still be entered.  The fuel bounds the number of calls and
    loop rounds; [json_loads] starts with twice the length of the text plus
    one: a nested call or a further loop round has at least one character
    less to read, and costs at most two. *)
Fixpoint parse_value (depth fuel : nat) (s : str) {struct fuel}
  : result (json * str) :=
  match fuel with
  | 0 => Outside
  | S f =>
      match s with
      | [] => Raise JSONDecodeError
      | c :: r =>
          if (c =? DQ)%N then
            do (v, rest) <- scanstring r; Ok (JStr v, rest)
          else if (c =? ch "{")%N then
            match depth with
            | 0 => Outside
            | S d =>
                match skip_ws r with
                | c1 :: r1 =>
                    if (c1 =? ch "}")%N then Ok (JObj [], r1)
                    else do (ms, rest) <- parse_members d f (c1 :: r1);
                         Ok (JObj ms, rest)
                | [] => Raise JSONDecodeError
                end
            end
          else if (c =? ch "[")%N then
            match depth with
            | 0 => Outside
            | S d =>
                match skip_ws r with
                | c1 :: r1 =>
                    if (c1 =? ch "]")%N then Ok (JArr [], r1)
                    else do (vs, rest) <- parse_items d f (c1 :: r1);
                         Ok (JArr vs, rest)
                | [] => Raise JSONDecodeError
                end
            end
          else parse_scalar s
      end
  end

with parse_items (depth fuel : nat) (s : str) {struct fuel}
  : result (list json * str) :=
  match fuel with
  | 0 => Outside
  | S f =>
      do (v, r) <- parse_value depth f s;
      match skip_ws r with
      | c :: r1 =>
          if (c =? ch "]")%N then Ok ([v], r1)
          else if (c =? ch ",")%N then
            do (vs, rest) <- parse_items depth f (skip_ws r1);
            Ok (v :: vs, rest)
          else Raise JSONDecodeError
      | [] => Raise JSONDecodeError
      end
  end

with parse_members (depth fuel : nat) (s : str) {struct fuel}
  : result (list (str * json) * str) :=
  match fuel with
  | 0 => Outside
  | S f =>
      match s with
      | q :: r =>
          if (q =? DQ)%N then
            do (k, r1) <- scanstring r;
            match skip_ws r1 with
            | c :: r2 =>
                if (c =? ch ":")%N then
                  do (v, r3) <- parse_value depth f (skip_ws r2);
                  match skip_ws r3 with
                  | d :: r4 =>
                      if (d =? ch "}")%N then Ok ([(k, v)], r4)
                      else if (d =? ch ",")%N then
                        do (ms, rest) <- parse_members depth f (skip_ws r4);
                        Ok ((k, v) :: ms, rest)
                      else Raise JSONDecodeError
                  | [] => Raise JSONDecodeError
                  end
                else Raise JSONDecodeError
            | [] => Raise JSONDecodeError
            end
          else Raise JSONDecodeError
      | [] => Raise JSONDecodeError
      end
  end.

(** [json.loads]: one value between optional whitespace, and nothing else. *)
Definition json_loads (text : str) : result json :=
  do (v, rest) <- parse_value depth_limit (S (2 * length text)) (skip_ws text);
  match skip_ws rest with
  | [] => Ok v
  | _ :: _ => Raise JSONDecodeError
  end.
(** ** class Book *)

Record Book : Type := mkBook {
  title : str;
  author : str;
  isbn : str;
  status : str   (* available or issued *)
}.

(** [Book(title, author, isbn)]: [status] defaults to available. *)
Definition new_Book (t a i : str) : Book := mkBook t a i (py "available").

Definition with_status (b : Book) (s : str) : Book :=
  mkBook (title b) (author b) (isbn b) s.

Definition to_dict (b : Book) : json :=
  JObj [(py "title", JStr (title b));
        (py "author", JStr (author b));
        (py "isbn", JStr (isbn b));
        (py "status", JStr (status b))].

(** [Book.issue]: the value returned and the object after the call. *)
Definition issue (b : Book) : bool * Book :=
  if str_eqb (status b) (py "available")
  then (true, with_status b (py "issued"))
  else (false, b).

(** [Book.return_book]. *)
Definition return_book_method (b : Book) : bool * Book :=
  if str_eqb (status b) (py "issued")
  then (true, with_status b (py "available"))
  else (false, b).

Definition is_available (b : Book) : bool :=
  str_eqb (status b) (py "available").

(** [Book( **book_data )]: the keywords are bound first, and a keyword that
    [__init__] does not take or a required one that is absent raises
    [TypeError]; so does an argument that is no mapping.  A value that is not
    a [str] has no image in [Book]. *)
Definition known_key (k : str) : bool :=
  str_eqb k (py "title") || str_eqb k (py "author")
  || str_eqb k (py "isbn") || str_eqb k (py "status").

Definition Book_kwargs (book_data : json) : result Book :=
  match book_data with
  | JObj members =>
      if forallb known_key (dict_keys members) then
        match dict_get (py "title") members,
              dict_get (py "author") members,
              dict_get (py "isbn") members with
        | Some t, Some a, Some i =>
            match t, a, i, dict_get (py "status") members with
            | JStr t', JStr a', JStr i', None => Ok (new_Book t' a' i')
            | JStr t', JStr a', JStr i', Some (JStr s') => Ok (mkBook t' a' i' s')
            | _, _, _, _ => Outside
            end
        | _, _, _ => Raise TypeError
        end
      else Raise TypeError
  | _ => Raise TypeError
  end.

(** ** Log records and console lines *)

Inductive level : Type := INFO | WARNING | ERROR.

Inductive message : Type :=
| DataFileNotFound              (* Book data file not found at ... *)
| LoadedBooks (n : nat)         (* Successfully loaded n books from ... *)
| DecodeFailed                  (* Error decoding JSON from ... *)
| LoadFailed                    (* An unexpected error occurred while loading ... *)
| SavedBooks (n : nat)          (* Successfully saved n books to ... *)
| SaveFailed                    (* Error saving books to ... *)
| NotABookInstance              (* Attempted to add an object that is not a Book *)
| DuplicateISBN (i : str)    (* Book with ISBN i already exists *)
| BookAdded (t : str)        (* Book added: t *)
| NoTitleMatch (t : str)     (* No books found matching title: t *)
| NoISBNMatch (i : str)      (* No book found with ISBN: i *)
| BookIssued (t i : str)     (* Book issued: t (ISBN: i) *)
| IssueOfIssued (i : str)    (* Attempted to issue an already issued book *)
| IssueOfMissing (i : str)   (* Attempted to issue non-existent book *)
| BookReturned (t i : str)   (* Book returned: t (ISBN: i) *)
| ReturnOfAvailable (i : str)(* Attempted to return an already available book *)
| ReturnOfMissing (i : str). (* Attempted to return non-existent book *)

Inductive line : Type :=
| InventoryEmpty                (* The library inventory is empty. *)
| InventoryHeader               (* --- Current Library Inventory --- *)
| BookLine (b : Book)           (* print(book) *)
| InventoryFooter
| IssueHeader                   (* --- Issue Book --- *)
| HasBeenIssued (t i : str)  (* Book t (ISBN: i) has been issued. *)
| IssueFailed (t : str)      (* Failed to issue book t. (Unexpected error) *)
| AlreadyIssued (t i : str)  (* Book t (ISBN: i) is already issued. *)
| ReturnHeader                  (* --- Return Book --- *)
| HasBeenReturned (t i : str)(* Book t (ISBN: i) has been returned. *)
| ReturnFailed (t : str)     (* Failed to return book t. (Unexpected error) *)
| AlreadyAvailable (t i : str)
| NoBookFound (i : str).     (* No book found with ISBN: i *)

Inductive event : Type :=
| Log (l : level) (m : message)
| Print (p : line).

(** ** class LibraryInventory, with the file behind [file_path]

    [disk] is what stands at [file_path]: nothing, a file with its text,
    something that exists and cannot be opened and decoded for reading (a
    directory, a file without read permission, bytes that are no UTF-8),
    or a path that cannot be examined at all: [stat] fails on it with an
    error that [Path.exists] does not take for an absent file (a name
    longer than the file system allows, a directory on the way that may
    not be searched), and so do [mkdir] and [open].

    [medium] tells how the [try] of [_save_books] goes on a path that can
    be examined: it runs to its end; or [mkdir] or [open(..., 'w')]
    raises, before the file is touched; or [open] has emptied or created
    the file and the write raises after [kept] characters of the text have
    reached it.  [out] is the log and the console, oldest record first. *)

Inductive node : Type :=
| Absent
| Regular (text : str)
| Unreadable
| Inaccessible.

Inductive writing : Type :=
| Writable
| Refused
| Torn (kept : nat).

Record state : Type := mkState {
  books : list Book;
  disk : node;
  medium : writing;
  out : list event
}.

(** Whether a save on [st] runs to its end. *)
Definition writable (st : state) : bool :=
  match disk st, medium st with
  | Inaccessible, _ => false
  | _, Writable => true
  | _, _ => false
  end.

(** What a save that raises leaves at [file_path], [text] being the text
    it had to write. *)
Definition failed_write (st : state) (text : str) : node :=
  match disk st, medium st with
  | Inaccessible, _ => Inaccessible
  | _, Torn kept => Regular (firstn kept text)
  | d, _ => d
  end.

Definition emit (e : event) (st : state) : state :=
  mkState (books st) (disk st) (medium st) (out st ++ [e]).

Definition set_books (bs : list Book) (st : state) : state :=
  mkState bs (disk st) (medium st) (out st).

Definition set_disk (d : node) (st : state) : state :=
  mkState (books st) d (medium st) (out st).

(** [for book_data in data]: the items of a list, the keys of a dict, the
    characters of a str; anything else is not iterable. *)
Definition iterate (data : json) : result (list json) :=
  match data with
  | JArr items => Ok items
  | JObj members => Ok (map JStr (dict_keys members))
  | JStr s =>
      Ok (map (fun c => JStr [c]) s)
  | _ => Raise TypeError
  end.

(** [[Book( **book_data ) for book_data in data]]: the first entry that raises
    ends the comprehension, whatever the other entries are. *)
Fixpoint build_books (entries : list json) : result (list Book) :=
  match entries with
  | [] => Ok []
  | e :: es =>
      match Book_kwargs e with
      | Raise x => Raise x
      | Ok b =>
          match build_books es with
          | Ok bs => Ok (b :: bs)
          | Raise x => Raise x
          | Outside => Outside
          end
      | Outside =>
          match build_books es with
          | Raise x => Raise x
          | _ => Outside
          end
      end
  end.

(** The body of the [try] in [_load_books], for a file with text [text]. *)
Definition read_books (text : str) : result (list Book) :=
  do data <- json_loads text;
  do entries <- iterate data;
  build_books entries.

(** [_load_books], called on [self.books = []].  The call of [exists]
    stands before the [try]: what it raises leaves the method. *)
Definition _load_books (st : state) : result state :=
  match disk st with
  | Inaccessible => Raise OSError
  | Absent => Ok (emit (Log INFO DataFileNotFound) st)
  | Unreadable => Ok (emit (Log ERROR LoadFailed) (set_books [] st))
  | Regular text =>
      match read_books text with
      | Ok bs => Ok (emit (Log INFO (LoadedBooks (length bs))) (set_books bs st))
      | Raise JSONDecodeError => Ok (emit (Log ERROR DecodeFailed) (set_books [] st))
      | Raise _ => Ok (emit (Log ERROR LoadFailed) (set_books [] st))
      | Outside => Outside
      end
  end.

(** [LibraryInventory(file_path)], on the file [d] and with an empty log. *)
Definition LibraryInventory (d : node) (w : writing) : result state :=
  _load_books (mkState [] d w []).

Definition _save_books (st : state) : state :=
  let text := json_dumps (JArr (map to_dict (books st))) in
  if writable st
  then emit (Log INFO (SavedBooks (length (books st))))
         (set_disk (Regular text) st)
  else emit (Log ERROR SaveFailed) (set_disk (failed_write st text) st).

(** What a caller can hand to [add_book]: a [Book], or any other object. *)
Inductive object : Type :=
| BookObject (b : Book)
| OtherObject (v : json).

Definition add_book (st : state) (book : object) : bool * state :=
  match book with
  | OtherObject _ => (false, emit (Log ERROR NotABookInstance) st)
  | BookObject b =>
      if existsb (fun x => str_eqb (isbn x) (isbn b)) (books st)
      then (false, emit (Log WARNING (DuplicateISBN (isbn b))) st)
      else
        let st1 := set_books (books st ++ [b]) st in
        let st2 := _save_books st1 in
        (true, emit (Log INFO (BookAdded (title b))) st2)
  end.

Definition search_by_title (st : state) (t : str) : list Book * state :=
  let matching_books :=
    filter (fun book => contains (lower t) (lower (title book))) (books st) in
  match matching_books with
  | [] => (matching_books, emit (Log INFO (NoTitleMatch t)) st)
  | _ :: _ => (matching_books, st)
  end.

(** The loop of [search_by_isbn]: the first book with the ISBN, as the
    position it has in [self.books] and the object there. *)
Fixpoint find_isbn (i : str) (bs : list Book) (pos : nat)
  : option (nat * Book) :=
  match bs with
  | [] => None
  | b :: rest =>
      if str_eqb (isbn b) i then Some (pos, b) else find_isbn i rest (S pos)
  end.

Definition search_by_isbn (st : state) (i : str)
  : option (nat * Book) * state :=
  match find_isbn i (books st) 0 with
  | Some ref => (Some ref, st)
  | None => (None, emit (Log INFO (NoISBNMatch i)) st)
  end.

Definition display_all (st : state) : bool * state :=
  match books st with
  | [] => (false, emit (Print InventoryEmpty) st)
  | _ :: _ =>
      let st1 := emit (Print InventoryHeader) st in
      let st2 := fold_left (fun s b => emit (Print (BookLine b)) s) (books st) st1 in
      (true, emit (Print InventoryFooter) st2)
  end.

(** ** The console commands

    The argument [i] is what [get_valid_input] returned for the ISBN.  A
    method call on the book that [search_by_isbn] returned changes the object
    in [self.books]: [store pos b] puts the new value at its position.  A
    method that returns [False] has left the object as it was. *)

Fixpoint replace_nth (pos : nat) (b : Book) (bs : list Book) : list Book :=
  match bs, pos with
  | [], _ => []
  | _ :: rest, 0 => b :: rest
  | x :: rest, S p => x :: replace_nth p b rest
  end.

Definition store (pos : nat) (b : Book) (st : state) : state :=
  set_books (replace_nth pos b (books st)) st.

Definition issue_book (st : state) (i : str) : state :=
  let st := emit (Print IssueHeader) st in
  match search_by_isbn st i with
  | (Some (pos, book), st) =>
      if is_available book then
        match issue book with
        | (true, book') =>
            let st := store pos book' st in
            let st := _save_books st in
            let st := emit (Print (HasBeenIssued (title book') i)) st in
            emit (Log INFO (BookIssued (title book') i)) st
        | (false, _) => emit (Print (IssueFailed (title book))) st
        end
      else
        let st := emit (Print (AlreadyIssued (title book) i)) st in
        emit (Log WARNING (IssueOfIssued i)) st
  | (None, st) =>
      let st := emit (Print (NoBookFound i)) st in
      emit (Log WARNING (IssueOfMissing i)) st
  end.

Definition return_book (st : state) (i : str) : state :=
  let st := emit (Print ReturnHeader) st in
  match search_by_isbn st i with
  | (Some (pos, book), st) =>
      if negb (is_available book) then
        match return_book_method book with
        | (true, book') =>
            let st := store pos book' st in
            let st := _save_books st in
            let st := emit (Print (HasBeenReturned (title book') i)) st in
            emit (Log INFO (BookReturned (title book') i)) st
        | (false, _) => emit (Print (ReturnFailed (title book))) st
        end
      else
        let st := emit (Print (AlreadyAvailable (title book) i)) st in
        emit (Log WARNING (ReturnOfAvailable i)) st
  | (None, st) =>
      let st := emit (Print (NoBookFound i)) st in
      emit (Log WARNING (ReturnOfMissing i)) st
  end.

(** ** Vocabulary of the properties *)

(** The two transitions of a book, and a run of them on one book: the
    values returned, in call order, and the book at the end. *)
Inductive transition : Type := DoIssue | DoReturn.

Definition apply_transition (t : transition) (b : Book) : bool * Book :=
  match t with
  | DoIssue => issue b
  | DoReturn => return_book_method b
  end.

Fixpoint run_transitions (ts : list transition) (b : Book) : list bool * Book :=
  match ts with
  | [] => ([], b)
  | t :: rest =>
      let (ok, b1) := apply_transition t b in
      let (oks, b2) := run_transitions rest b1 in
      (ok :: oks, b2)
  end.

Definition other (t : transition) : transition :=
  match t with
  | DoIssue => DoReturn
  | DoReturn => DoIssue
  end.

(** [n] calls that alternate strictly, the first one being [first]. *)
Fixpoint alternating (first : transition) (n : nat) : list transition :=
  match n with
  | 0 => []
  | S k => first :: alternating (other first) k
  end.

(** The capital letters among the code points below 256: A to Z, U+00C0
    to U+00D6 and U+00D8 to U+00DE.  The small letter of each stands 32
    above it. *)
Definition capital_letter (c : char) : Prop :=
  (65 <= c <= 90 \/ 192 <= c <= 214 \/ 216 <= c <= 222)%N.

(** Two characters that are the same letter, whatever their case. *)
Definition same_letter (c d : char) : Prop :=
  c = d
  \/ (capital_letter c /\ d = (c + 32)%N)
  \/ (capital_letter d /\ c = (d + 32)%N).

(** [q] occurs in [t] when case is ignored: some part of [t] is [q],
    letter by letter, up to case. *)
Definition ci_substring (q t : str) : Prop :=
  exists pre mid post, t = pre ++ mid ++ post /\ Forall2 same_letter mid q.

Definition below_256 (s : str) : Prop := Forall (fun c => (c < 256)%N) s.

(** What a command wrote to the log and the console: the records of
    [after] that [before] did not have yet. *)
Definition said (before after : state) : list event :=
  skipn (length (out before)) (out after).

(** [b] is the first book of [bs] with ISBN [i]: [pre] stands before it and
    [post] after it. *)
Definition first_with (i : str) (bs pre : list Book) (b : Book)
  (post : list Book) : Prop :=
  bs = (pre ++ b :: post) /\ isbn b = i
  /\ Forall (fun x => isbn x <> i) pre.

(** The text [_save_books] writes for the books [bs]. *)
Definition saved_text (bs : list Book) : str :=
  json_dumps (JArr (map to_dict bs)).

(** The record a save leaves in the log. *)
Definition is_save_record (e : event) : bool :=
  match e with
  | Log INFO (SavedBooks _) => true
  | Log ERROR SaveFailed => true
  | _ => false
  end.

Definition is_issued_line (e : event) : bool :=
  match e with
  | Print (HasBeenIssued _ _) => true
  | _ => false
  end.

Definition is_returned_line (e : event) : bool :=
  match e with
  | Print (HasBeenReturned _ _) => true
  | _ => false
  end.

(** A run of [add_book] calls: the values returned and the state at the
    end. *)
Fixpoint add_all (st : state) (calls : list object) : list bool * state :=
  match calls with
  | [] => ([], st)
  | o :: rest =>
      let (r, st1) := add_book st o in
      let (rs, st2) := add_all st1 rest in
      (r :: rs, st2)
  end.

(** An entry of the stored array that [Book( **entry )] cannot take: it is
    no object, or it lacks one of title, author and isbn, or it has a key
    that is none of the four attributes. *)
Definition has_key (k : str) (e : json) : Prop :=
  match e with
  | JObj members => In k (dict_keys members)
  | _ => False
  end.

Definition foreign_key (e : json) : Prop :=
  match e with
  | JObj members => exists k, In k (dict_keys members) /\ known_key k = false
  | _ => False
  end.

Definition is_object (e : json) : Prop :=
  match e with
  | JObj _ => True
  | _ => False
  end.

Definition unfit (e : json) : Prop :=
  ~ is_object e \/ ~ has_key (py "title") e \/ ~ has_key (py "author") e
  \/ ~ has_key (py "isbn") e \/ foreign_key e.

(** The text of the books after the first one in the array that
    [_save_books] writes: each with the comma and the line break in front
    of it. *)
Fixpoint rest_text (bs : list Book) : str :=
  match bs with
  | [] => []
  | b :: r => (py ",") ++ newline_indent 1 ++ encode 1 (to_dict b) ++ rest_text r
  end.

(** Two books for the examples. *)
Definition dune : Book := new_Book (py "Dune") (py "Frank Herbert") (py "111").
Definition emma : Book := new_Book (py "Emma") (py "Jane Austen") (py "222").

(** ** The console: get_valid_input, display_menu and the commands of main

    [stdin] is the lines that [input] will return, one str per line,
    and [input] raises [EOFError] when none is left.  [tty] is everything
    the program writes, oldest first: the records of the inventory and of
    [issue_book] and [return_book] as [Core], the prompts of [input], the
    texts of the other [print] calls and the messages of the other
    [logger] calls. *)

Inductive severity : Type := Info | Warning | Error | Critical.

Inductive io : Type :=
| Core (e : event)
| Prompt (p : str)
| Say (text : str)
| Logged (l : severity) (text : str).

Record session : Type := mkSession {
  inv : state;
  stdin : list str;
  tty : list io
}.

(** What a command handler ends with: it returns, or an [input] it
    called raised [EOFError]. *)
Inductive outcome : Type :=
| Returned (s : session)
| EOFError (s : session).

Definition session_of (o : outcome) : session :=
  match o with
  | Returned s => s
  | EOFError s => s
  end.

Definition say (text : str) (s : session) : session :=
  mkSession (inv s) (stdin s) (tty s ++ [Say text]).

Definition logged (l : severity) (text : str) (s : session) : session :=
  mkSession (inv s) (stdin s) (tty s ++ [Logged l text]).

(** A call on the inventory: its records go to [tty] as they come. *)
Definition call {A : Type} (f : state -> A * state) (s : session)
  : A * session :=
  let r := f (inv s) in
  (fst r,
   mkSession (snd r) (stdin s)
     (tty s ++ map Core (said (inv s) (snd r)))).

(** [str.strip()]: the white space of [str.isspace]. *)
Definition is_space (c : char) : bool :=
  (((9 <=? c) && (c <=? 13)) || ((28 <=? c) && (c <=? 32))
   || (c =? 133) || (c =? 160) || (c =? 5760)
   || ((8192 <=? c) && (c <=? 8202)) || (c =? 8232) || (c =? 8233)
   || (c =? 8239) || (c =? 8287) || (c =? 12288))%N.

Fixpoint lstrip (s : str) : str :=
  match s with
  | c :: r => if is_space c then lstrip r else s
  | [] => s
  end.

Fixpoint rstrip (s : str) : str :=
  match s with
  | [] => []
  | c :: r =>
      match rstrip r with
      | [] => if is_space c then [] else [c]
      | c' :: r' => c :: c' :: r'
      end
  end.

Definition strip (s : str) : str := rstrip (lstrip s).

Definition default_error_message : str :=
  (py "Invalid input. Please try again.").

(** The loop of [get_valid_input] over the lines to come: the value
    returned (nothing when [input] raises), the lines left, and what was
    written. *)
Fixpoint read_valid (prompt : str) (validator : option (str -> bool))
  (error_message : str) (lines : list str) (shown : list io)
  : option str * list str * list io :=
  match lines with
  | [] => (None, [], (shown ++ [Prompt prompt]))
  | l :: rest =>
      let user_input := strip l in
      let shown := (shown ++ [Prompt prompt]) in
      match validator with
      | None => (Some user_input, rest, shown)
      | Some valid =>
          if valid user_input then (Some user_input, rest, shown)
          else
            read_valid prompt validator error_message rest
              (shown
               ++ [Say error_message;
                   Logged Warning
                     ((py "Invalid input received for '") ++ strip prompt
                      ++ (py "': '") ++ user_input ++ (py "'"))])
      end
  end.

Definition get_valid_input (prompt : str)
  (validator : option (str -> bool)) (error_message : str)
  (s : session) : option str * session :=
  match read_valid prompt validator error_message (stdin s) (tty s) with
  | (r, rest, shown) => (r, mkSession (inv s) rest shown)
  end.

(** [x = get_valid_input(...)] followed by the rest of a handler. *)
Definition ask (prompt : str) (validator : option (str -> bool))
  (error_message : str) (s : session) (k : str -> session -> outcome)
  : outcome :=
  match get_valid_input prompt validator error_message s with
  | (Some user_input, s') => k user_input s'
  | (None, s') => EOFError s'
  end.

Definition display_menu (s : session) : session :=
  let s := say (LF :: py "--- Library Inventory Manager ---") s in
  let s := say (py "1. Add New Book") s in
  let s := say (py "2. Issue Book") s in
  let s := say (py "3. Return Book") s in
  let s := say (py "4. View All Books") s in
  let s := say (py "5. Search Books") s in
  let s := say (py "6. Exit") s in
  say (py "---------------------------------") s.

(** [lambda x: bool(x) and len(x) > 0]. *)
Definition isbn_validator (x : str) : bool := negb (str_eqb x []).

Definition add_new_book (s : session) : outcome :=
  let s := say (LF :: py "--- Add New Book ---") s in
  ask (py "Enter title: ") None default_error_message s (fun t s =>
  ask (py "Enter author: ") None default_error_message s (fun a s =>
  ask (py "Enter ISBN: ") (Some isbn_validator) (py "ISBN cannot be empty.") s
    (fun i s =>
  match call (fun st => search_by_isbn st i) s with
  | (Some _, s) =>
      let s :=
        say ((py "Error: A book with ISBN '") ++ i
             ++ (py "' already exists in the inventory.")) s in
      Returned (logged Error ((py "Attempted to add duplicate ISBN: ") ++ i) s)
  | (None, s) =>
      let new_book := new_Book t a i in
      match call (fun st => add_book st (BookObject new_book)) s with
      | (true, s) =>
          Returned
            (say ((py "'") ++ t ++ (py "' by ") ++ a ++ (py " (ISBN: ") ++ i
                  ++ (py ") added successfully.")) s)
      | (false, s) =>
          Returned (say (py "Failed to add the book. See logs for details.") s)
      end
  end))).

(** [issue_book(inventory)] with its [input]: the header is printed,
    the ISBN is read, and the rest is [issue_book] above, whose first
    record is the header. *)
Definition issue_book_command (s : session) : outcome :=
  let st0 := emit (Print IssueHeader) (inv s) in
  let s0 :=
    mkSession st0 (stdin s) (tty s ++ [Core (Print IssueHeader)]) in
  ask (py "Enter ISBN of the book to issue: ") None default_error_message s0
    (fun i s1 =>
       let st := issue_book (inv s) i in
       Returned
         (mkSession st (stdin s1) (tty s1 ++ map Core (said st0 st)))).

Definition return_book_command (s : session) : outcome :=
  let st0 := emit (Print ReturnHeader) (inv s) in
  let s0 :=
    mkSession st0 (stdin s) (tty s ++ [Core (Print ReturnHeader)]) in
  ask (py "Enter ISBN of the book to return: ") None default_error_message s0
    (fun i s1 =>
       let st := return_book (inv s) i in
       Returned
         (mkSession st (stdin s1) (tty s1 ++ map Core (said st0 st)))).

(** [print(book)]. *)
Definition print_book (b : Book) (s : session) : session :=
  snd (call (fun st => (tt, emit (Print (BookLine b)) st)) s).

Definition choice_1_2 (x : str) : bool :=
  str_eqb x (py "1") || str_eqb x (py "2").

Definition search_books (s : session) : outcome :=
  let s := say (LF :: py "--- Search Books ---") s in
  let s := say (py "1. Search by Title") s in
  let s := say (py "2. Search by ISBN") s in
  ask (py "Enter your choice (1-2): ") (Some choice_1_2)
    (py "Invalid choice. Please enter 1 or 2.") s (fun search_choice s =>
  if str_eqb search_choice (py "1") then
    ask (py "Enter title (partial match allowed): ") None default_error_message s
      (fun t s =>
         match call (fun st => search_by_title st t) s with
         | ([], s) =>
             Returned (say ((py "No books found matching title: '") ++ t ++ (py "'")) s)
         | (results, s) =>
             let s :=
               say (LF :: py "--- Search Results for Title '" ++ t
                    ++ py "' ---") s in
             let s := fold_left (fun s b => print_book b s) results s in
             Returned (say (py "---------------------------------------") s)
         end)
  else if str_eqb search_choice (py "2") then
    ask (py "Enter ISBN: ") None default_error_message s (fun i s =>
      match call (fun st => search_by_isbn st i) s with
      | (Some (_, result), s) =>
          let s :=
            say (LF :: py "--- Search Result for ISBN '" ++ i ++ py "' ---")
              s in
          let s := print_book result s in
          Returned (say (py "-------------------------------------") s)
      | (None, s) =>
          Returned (say ((py "No book found with ISBN: '") ++ i ++ (py "'")) s)
      end)
  else Returned s).

Definition choice_1_6 (x : str) : bool :=
  str_eqb x (py "1") || str_eqb x (py "2") || str_eqb x (py "3")
  || str_eqb x (py "4") || str_eqb x (py "5") || str_eqb x (py "6").

(** The branches of the [try] in [main] for the choices 1 to 5. *)
Definition dispatch (choice : str) (s : session) : outcome :=
  if str_eqb choice (py "1") then add_new_book s
  else if str_eqb choice (py "2") then issue_book_command s
  else if str_eqb choice (py "3") then return_book_command s
  else if str_eqb choice (py "4") then Returned (snd (call display_all s))
  else if str_eqb choice (py "5") then search_books s
  else Returned s.

(** The loop of [main].  An [EOFError] of a handler is caught, logged and
    announced, and the loop goes on; the [get_valid_input] of the menu
    stands outside the [try], so its [EOFError] ends [main].  Each round
    uses one unit of fuel; [None] is the fuel running out. *)
Fixpoint main_loop (fuel : nat) (s : session) : option outcome :=
  match fuel with
  | 0 => None
  | S f =>
      let s := display_menu s in
      match get_valid_input (py "Enter your choice (1-6): ") (Some choice_1_6)
              (py "Invalid choice. Please enter a number between 1 and 6.") s with
      | (None, s) => Some (EOFError s)
      | (Some choice, s) =>
          if str_eqb choice (py "6") then
            let s := say (py "Exiting Library Inventory Manager. Goodbye!") s in
            Some (Returned (logged Info (py "Application exited.") s))
          else
            match dispatch choice s with
            | Returned s => main_loop f s
            | EOFError s =>
                let s :=
                  logged Critical
                    ((py "An unhandled error occurred in the main loop: ")
                     ++ (py "EOF when reading a line")) s in
                main_loop f
                  (say (py "An unexpected error occurred. Please check the logs.")
                     s)
            end
      end
  end.

(** [main()], on the file [d] behind books.json and the lines [lines]:
    one round more than there are lines is always enough. *)
Definition main (d : node) (w : writing) (lines : list str)
  : result outcome :=
  do st <- LibraryInventory d w;
  match main_loop (S (length lines))
          (mkSession st lines (map Core (out st))) with
  | Some o => Ok o
  | None => Outside
  end.

(** ** Book.__str__

    [str.capitalize()] gives the first character its title-case form and
    lowers the rest, a sigma of the rest having the first character before
    it.  [capital] is the title-case form on the code points below 256:
    the small letter of a capital letter becomes that capital, the sharp s
    becomes Ss, and the micro sign and the y with diaeresis become U+039C
    and U+0178. *)

Definition capital (c : char) : result str :=
  if (256 <=? c)%N then Outside
  else if (c =? 181)%N then Ok [924%N]
  else if (c =? 223)%N then Ok (py "Ss")
  else if (c =? 255)%N then Ok [376%N]
  else if (((97 <=? c) && (c <=? 122))
           || ((224 <=? c) && (c <=? 246))
           || ((248 <=? c) && (c <=? 254)))%N
  then Ok [(c - 32)%N]
  else Ok [c].

Definition capitalize (s : str) : result str :=
  match s with
  | [] => Ok []
  | c :: r => do f <- capital c; Ok (f ++ lower_from [c] r)
  end.

Definition __str__ (b : Book) : result str :=
  do st <- capitalize (status b);
  Ok (py "Title: " ++ title b ++ py ", Author: " ++ author b
      ++ py ", ISBN: " ++ isbn b ++ py ", Status: " ++ st).

(** ** Vocabulary of the further properties *)

(** What identifies a book in the catalogue: all of it but the status. *)
Definition identity (b : Book) : str * str * str :=
  (title b, author b, isbn b).

(** The two values [Book.__init__] documents for the status. *)
Definition in_enum (s : str) : Prop := s = (py "available") \/ s = (py "issued").

(** A character that is a line feed or printable ASCII, and a text made of
    such characters only. *)
Definition plain_char (c : char) : bool :=
  ((c =? LF) || ((32 <=? c) && (c <=? 126)))%N.

Fixpoint plain_text (s : str) : bool :=
  match s with
  | [] => true
  | c :: r => plain_char c && plain_text r
  end.

(** Two states with the same books, the same file and the same way of
    writing: they differ in what was logged and printed. *)
Definition same_store (st st' : state) : Prop :=
  books st' = books st /\ disk st' = disk st /\ medium st' = medium st.

(** A handler that started in [s] and ended in [o] kept the property [P]
    of the inventory, read lines only from the front of those to come,
    and raised [EOFError] only with no line left. *)
Definition handler_keeps (P : state -> Prop) (s : session) (o : outcome)
  : Prop :=
  P (inv (session_of o))
  /\ (exists used, stdin s = (used ++ stdin (session_of o)))
  /\ (forall s', o = EOFError s' -> stdin s' = []).

(** A reload of the file gives the books that are in memory. *)
Definition durable (st : state) : Prop :=
  exists l,
    LibraryInventory (disk st) (medium st)
    = Ok (mkState (books st) (disk st) (medium st) l).

(** A book as the console creates and keeps it: an ISBN that is not
    empty and has no surrounding white space, and a status of the enum. *)
Definition well_formed (b : Book) : Prop :=
  isbn b <> [] /\ strip (isbn b) = isbn b /\ in_enum (status b).

(** How [main] ended: by the choice 6, with the two exit messages last
    and a line among [lines] that reads 6, or by the [EOFError] of the
    menu, with no line left. *)
Definition ended (lines : list str) (o : outcome) : Prop :=
  match o with
  | Returned s' =>
      (exists pre,
         tty s'
         = (pre ++ [Say (py "Exiting Library Inventory Manager. Goodbye!");
                    Logged Info (py "Application exited.")]))
      /\ exists l, In l lines /\ strip l = (py "6")
  | EOFError s' => stdin s' = []
  end.

(** ** Vocabulary of the round trip *)

(** A [str] in which no high surrogate has a low surrogate right after
    it, and a [str] of code points with that property: what [json.dump]
    writes of it, [json.load] reads back as it was. *)
Fixpoint pair_free (s : str) : bool :=
  match s with
  | c :: r =>
      negb (is_high c && match r with d :: _ => is_low d | [] => false end)
      && pair_free r
  | [] => true
  end.

Definition storable (s : str) : bool := forallb code_point s && pair_free s.

Definition storable_book (b : Book) : bool :=
  storable (title b) && storable (author b)
  && storable (isbn b) && storable (status b).

(** The text goes on with the escape of a low surrogate, or with an escape
    that is none. *)
Definition low_escape_ahead (s : str) : bool :=
  match s with
  | b :: u :: k1 :: k2 :: k3 :: k4 :: _ =>
      ((b =? BSL) && (u =? ch "u"))%N
      && match hex4_value k1 k2 k3 k4 with
         | Some m => is_low m
         | None => true
         end
  | _ => false
  end.

(** ** Vocabulary of the search by title *)

Definition capital_letterb (c : char) : bool :=
  (((65 <=? c) && (c <=? 90)) || ((192 <=? c) && (c <=? 214))
   || ((216 <=? c) && (c <=? 222)))%N.

(** The small letter of a capital letter below 256; any other character
    below 256 as it is. *)
Definition small_of (c : char) : char :=
  if capital_letterb c then (c + 32)%N else c.

(** ** Vocabulary of the texts read

    A text that [open] decoded holds code points that are no surrogates;
    so does a line that [input] decoded, but for a byte that is no UTF-8,
    which comes as a low surrogate. *)

Definition clean_char (c : char) : bool :=
  code_point c && negb (is_high c) && negb (is_low c).

Definition clean (s : str) : bool := forallb clean_char s.

(** A file as [open] can decode it. *)
Definition decoded (d : node) : Prop :=
  match d with
  | Regular text => clean text = true
  | _ => True
  end.

(** A JSON value whose strings and keys are storable. *)
Fixpoint json_storable (v : json) : bool :=
  match v with
  | JStr s => storable s
  | JArr items => forallb json_storable items
  | JObj members =>
      forallb (fun m => match m with
                        | (k, x) => storable k && json_storable x
                        end) members
  | _ => true
  end.

(** * Properties *)

(** ** Strings *)

Lemma str_eqb_eq (a b : str) : str_eqb a b = true <-> a = b.
Proof.
  revert b; induction a as [|x a IH]; intros [|y b]; simpl;
    try (split; [discriminate | discriminate]).
  - split; reflexivity.
  - rewrite andb_true_iff, N.eqb_eq, IH. split.
    + intros [-> ->]. reflexivity.
    + intros E. injection E as -> ->. split; reflexivity.
Qed.

Lemma str_eqb_spec (a b : str) : reflect (a = b) (str_eqb a b).
Proof. apply iff_reflect. symmetry. apply str_eqb_eq. Qed.

Lemma str_eqb_refl (a : str) : str_eqb a a = true.
Proof. now apply str_eqb_eq. Qed.

Lemma str_eqb_neq (a b : str) : str_eqb a b = false <-> a <> b.
Proof.
  destruct (str_eqb_spec a b) as [E|N]; split; congruence.
Qed.

Lemma prefix_spec (n h : str) :
  prefix n h = true <-> exists post, h = n ++ post.
Proof.
  revert h; induction n as [|a n IH]; intros h.
  - split; [intros _; exists h; reflexivity | reflexivity].
  - destruct h as [|b h]; simpl.
    + split; [discriminate | intros [post H]; discriminate].
    + rewrite andb_true_iff, N.eqb_eq, IH. split.
      * intros [-> [post ->]]. now exists post.
      * intros [post H]. injection H as -> ->. split; [reflexivity|].
        now exists post.
Qed.

Lemma contains_unfold (n h : str) :
  contains n h
  = prefix n h
    || match h with
       | [] => false
       | _ :: r => contains n r
       end.
Proof. destruct h; reflexivity. Qed.

Lemma contains_spec (n h : str) :
  contains n h = true <-> exists pre post, h = pre ++ n ++ post.
Proof.
  induction h as [|c h IH]; rewrite contains_unfold.
  - rewrite orb_false_r, prefix_spec. split.
    + intros [post H]. exists [], post. exact H.
    + intros [pre [post H]]. destruct pre; simpl in H.
      * now exists post.
      * discriminate.
  - rewrite orb_true_iff, prefix_spec, IH. split.
    + intros [[post H] | [pre [post H]]].
      * exists [], post. exact H.
      * exists (c :: pre), post. simpl. now rewrite H.
    + intros [pre [post H]]. destruct pre as [|a pre]; simpl in H.
      * left. now exists post.
      * right. injection H as -> ->. now exists pre, post.
Qed.

(** ** Records of the log *)

Lemma skipn_own_length {A : Type} (l m : list A) :
  skipn (length l) (l ++ m) = m.
Proof. induction l as [|x l IH]; simpl; [reflexivity | exact IH]. Qed.

Lemma said_emit (st : state) (bs : list Book) (d : node) (evs : list event) :
  said st (mkState bs d (medium st) (out st ++ evs)) = evs.
Proof. unfold said; simpl. apply skipn_own_length. Qed.

Lemma print_books (bs : list Book) (st : state) :
  fold_left (fun s b => emit (Print (BookLine b)) s) bs st
  = mkState (books st) (disk st) (medium st)
      (out st ++ map (fun b => Print (BookLine b)) bs).
Proof.
  revert st; induction bs as [|b bs IH]; intros st; simpl.
  - rewrite app_nil_r. now destruct st.
  - rewrite IH. unfold emit; simpl. now rewrite <- app_assoc.
Qed.

(** ** Book.issue and Book.return_book *)

Lemma issue_cases (b : Book) :
  (status b = (py "available") /\ issue b = (true, with_status b (py "issued")))
  \/ (status b <> (py "available") /\ issue b = (false, b)).
Proof.
  unfold issue. destruct (str_eqb_spec (status b) (py "available")) as [H|H].
  - left; split; [exact H | reflexivity].
  - right; split; [exact H | reflexivity].
Qed.

Lemma return_cases (b : Book) :
  (status b = (py "issued") /\ return_book_method b = (true, with_status b (py "available")))
  \/ (status b <> (py "issued") /\ return_book_method b = (false, b)).
Proof.
  unfold return_book_method.
  destruct (str_eqb_spec (status b) (py "issued")) as [H|H].
  - left; split; [exact H | reflexivity].
  - right; split; [exact H | reflexivity].
Qed.

Lemma alternating_succeeds (n : nat) :
  forall t a i,
    run_transitions (alternating DoIssue n) (mkBook t a i (py "available"))
    = (repeat true n,
       mkBook t a i (if Nat.even n then (py "available") else (py "issued")))
    /\ run_transitions (alternating DoReturn n) (mkBook t a i (py "issued"))
       = (repeat true n,
          mkBook t a i (if Nat.even n then (py "issued") else (py "available"))).
Proof.
  induction n as [|n IH]; intros t a i.
  - split; reflexivity.
  - destruct (IH t a i) as [IHi IHr].
    assert (E : Nat.even (S n) = negb (Nat.even n)).
    { rewrite Nat.even_succ, <- Nat.negb_even. reflexivity. }
    split; cbn [alternating other run_transitions apply_transition].
    + change (issue (mkBook t a i (py "available")))
        with (true, mkBook t a i (py "issued")).
      cbv iota beta. rewrite IHr, E. now destruct (Nat.even n).
    + change (return_book_method (mkBook t a i (py "issued")))
        with (true, mkBook t a i (py "available")).
      cbv iota beta. rewrite IHi, E. now destruct (Nat.even n).
Qed.

(** C5.  [Book.issue] returns True and sets the status to issued exactly
    when the status is available, and otherwise returns False and leaves
    the book as it is; [Book.return_book] does the same from issued to
    available.  Hence a second [issue] right after an [issue] returns
    False, a second [return_book] right after a [return_book] returns
    False, and calls that alternate strictly, starting with the one the
    status allows, all return True. *)
Theorem Book_transitions :
  forall b : Book,
    ((status b = (py "available") /\ issue b = (true, with_status b (py "issued")))
     \/ (status b <> (py "available") /\ issue b = (false, b)))
    /\ ((status b = (py "issued")
         /\ return_book_method b = (true, with_status b (py "available")))
        \/ (status b <> (py "issued") /\ return_book_method b = (false, b)))
    /\ (fst (issue b) = true <-> status b = (py "available"))
    /\ (fst (return_book_method b) = true <-> status b = (py "issued"))
    /\ fst (issue (snd (issue b))) = false
    /\ fst (return_book_method (snd (return_book_method b))) = false
    /\ (forall n,
          fst (run_transitions (alternating DoIssue n)
                 (with_status b (py "available"))) = repeat true n)
    /\ (forall n,
          fst (run_transitions (alternating DoReturn n)
                 (with_status b (py "issued"))) = repeat true n).
Proof.
  intros b. split; [apply issue_cases|]. split; [apply return_cases|].
  split; [|split; [|split; [|split; [|split]]]].
  - destruct (issue_cases b) as [[H ->] | [H ->]]; simpl; split; congruence.
  - destruct (return_cases b) as [[H ->] | [H ->]]; simpl; split; congruence.
  - destruct (issue_cases b) as [[H E] | [H E]]; rewrite E; simpl.
    + reflexivity.
    + now rewrite E.
  - destruct (return_cases b) as [[H E] | [H E]]; rewrite E; simpl.
    + reflexivity.
    + now rewrite E.
  - intros n. unfold with_status.
    now rewrite (proj1 (alternating_succeeds n _ _ _)).
  - intros n. unfold with_status.
    now rewrite (proj2 (alternating_succeeds n _ _ _)).
Qed.

(** ** LibraryInventory.add_book on an object that is no Book *)

(** C10.  [add_book] on an argument that is not a [Book] returns False,
    leaves the books and the file as they are, and attempts no save: the
    one record it leaves is the error about the argument. *)
Theorem add_book_rejects_other_objects :
  forall (st : state) (v : json),
    let r := add_book st (OtherObject v) in
    fst r = false
    /\ books (snd r) = books st
    /\ disk (snd r) = disk st
    /\ said st (snd r) = [Log ERROR NotABookInstance]
    /\ existsb is_save_record (said st (snd r)) = false.
Proof.
  intros st v r. subst r. simpl.
  unfold emit. rewrite said_emit. repeat split.
Qed.
(** ** LibraryInventory.display_all *)



(** ** LibraryInventory._save_books *)

Lemma save_books_eq (st : state) :
  _save_books st
  = mkState (books st)
      (if writable st then Regular (saved_text (books st))
       else failed_write st (saved_text (books st)))
      (medium st)
      (out st
       ++ [if writable st
           then Log INFO (SavedBooks (length (books st)))
           else Log ERROR SaveFailed]).
Proof.
  unfold _save_books, emit, set_disk, saved_text.
  destruct (writable st); reflexivity.
Qed.

(** A save that raised has left the file as it was, or a part of the text
    from its start on. *)
Lemma failed_write_cases (st : state) (text : str) :
  failed_write st text = disk st
  \/ exists kept, failed_write st text = Regular (firstn kept text).
Proof.
  unfold failed_write.
  destruct (disk st), (medium st); first [now left | right; now eexists].
Qed.

Lemma writable_after_write (bs : list Book) (st : state) (text : str)
  (evs : list event) :
  writable
    (mkState bs
       (if writable st then Regular text else failed_write st text)
       (medium st) evs)
  = writable st.
Proof.
  unfold writable, failed_write. cbn [disk medium].
  destruct (disk st), (medium st); reflexivity.
Qed.

Lemma failed_write_after_write (bs : list Book) (st : state) (text text' : str)
  (evs : list event) :
  writable st = false ->
  failed_write (mkState bs (failed_write st text) (medium st) evs) text'
  = failed_write st text'.
Proof.
  unfold writable, failed_write. cbn [disk medium].
  destruct (disk st), (medium st); intros W; try discriminate; reflexivity.
Qed.

(** C9.  Two calls of [_save_books] in a row leave the same text in the
    file: the second call writes what the first one wrote, which is the
    serialization of the unchanged books when the save runs to its end,
    and what the failed save leaves of it otherwise. *)
Theorem save_books_twice :
  forall st : state,
    let st1 := _save_books st in
    let st2 := _save_books st1 in
    disk st2 = disk st1
    /\ books st1 = books st
    /\ books st2 = books st
    /\ disk st1
       = (if writable st then Regular (saved_text (books st))
          else failed_write st (saved_text (books st))).
Proof.
  intros st st1 st2. subst st1 st2.
  rewrite !save_books_eq. cbn [books disk medium].
  rewrite writable_after_write.
  destruct (writable st) eqn:W; repeat split.
  now apply failed_write_after_write.
Qed.

(** ** The loop of search_by_isbn *)

Lemma find_isbn_first (i : str) (bs pre : list Book) (b : Book)
  (post : list Book) (pos : nat) :
  first_with i bs pre b post ->
  find_isbn i bs pos = Some (pos + length pre, b).
Proof.
  intros (-> & Hb & Hpre). revert pos.
  induction pre as [|x pre IH]; intros pos; simpl.
  - rewrite Hb, str_eqb_refl. now rewrite Nat.add_0_r.
  - inversion Hpre as [|? ? Hx Hrest]; subst.
    apply str_eqb_neq in Hx. rewrite Hx, (IH Hrest).
    f_equal. f_equal. lia.
Qed.

Lemma find_isbn_none (i : str) (bs : list Book) (pos : nat) :
  Forall (fun x => isbn x <> i) bs -> find_isbn i bs pos = None.
Proof.
  intros H. revert pos. induction H as [|x l Hx Hl IH]; intros pos; simpl.
  - reflexivity.
  - apply str_eqb_neq in Hx. now rewrite Hx.
Qed.

Lemma first_or_none (i : str) (bs : list Book) :
  (exists pre b post, first_with i bs pre b post)
  \/ Forall (fun x => isbn x <> i) bs.
Proof.
  induction bs as [|x bs IH].
  - right. constructor.
  - destruct (str_eqb_spec (isbn x) i) as [E|N].
    + left. exists [], x, bs. repeat split; [exact E | constructor].
    + destruct IH as [(pre & b & post & -> & Hb & Hpre) | Hall].
      * left. exists (x :: pre), b, post.
        repeat split; [exact Hb | now constructor].
      * right. now constructor.
Qed.

Lemma first_with_unique (i : str) (bs pre pre' : list Book)
  (b b' : Book) (post post' : list Book) :
  first_with i bs pre b post -> first_with i bs pre' b' post' ->
  pre = pre' /\ b = b' /\ post = post'.
Proof.
  intros H H'.
  pose proof (find_isbn_first i bs pre b post 0 H) as E.
  pose proof (find_isbn_first i bs pre' b' post' 0 H') as E'.
  rewrite E in E'. injection E' as El Eb. subst b'.
  destruct H as (Hbs & _ & _), H' as (Hbs' & _ & _).
  rewrite Hbs in Hbs'. clear - El Hbs'.
  revert pre' El Hbs'. induction pre as [|x pre IH]; intros [|y pre']; simpl;
    intros El Hbs'; try discriminate.
  - injection Hbs' as E. now subst.
  - injection Hbs' as Ex E. injection El as El.
    destruct (IH pre' El E) as (-> & _ & ->). now subst.
Qed.

Lemma no_first_when_none (i : str) (bs pre : list Book) (b : Book)
  (post : list Book) :
  Forall (fun x => isbn x <> i) bs -> ~ first_with i bs pre b post.
Proof.
  intros Hall (-> & Hb & _).
  rewrite Forall_forall in Hall.
  apply (Hall b); [apply in_elt | exact Hb].
Qed.

Lemma replace_nth_middle (pre : list Book) (b b' : Book) (post : list Book) :
  replace_nth (length pre) b' (pre ++ b :: post) = (pre ++ b' :: post).
Proof. induction pre as [|x pre IH]; simpl; [reflexivity | now rewrite IH]. Qed.

(** ** issue_book and return_book, branch by branch *)

Lemma issue_book_eq (st : state) (i : str) :
  issue_book st i
  = match find_isbn i (books st) 0 with
    | Some (pos, book) =>
        if str_eqb (status book) (py "available") then
          let bs := replace_nth pos (with_status book (py "issued")) (books st) in
          mkState bs
            (if writable st then Regular (saved_text bs)
             else failed_write st (saved_text bs))
            (medium st)
            (out st
             ++ [Print IssueHeader;
                 if writable st
                 then Log INFO (SavedBooks (length bs))
                 else Log ERROR SaveFailed;
                 Print (HasBeenIssued (title book) i);
                 Log INFO (BookIssued (title book) i)])
        else
          mkState (books st) (disk st) (medium st)
            (out st
             ++ [Print IssueHeader;
                 Print (AlreadyIssued (title book) i);
                 Log WARNING (IssueOfIssued i)])
    | None =>
        mkState (books st) (disk st) (medium st)
          (out st
           ++ [Print IssueHeader;
               Log INFO (NoISBNMatch i);
               Print (NoBookFound i);
               Log WARNING (IssueOfMissing i)])
    end.
Proof.
  unfold issue_book, search_by_isbn. cbn [emit books disk medium out].
  destruct (find_isbn i (books st) 0) as [[pos book]|].
  - unfold is_available, issue.
    destruct (str_eqb (status book) (py "available")).
    + cbv zeta. rewrite save_books_eq. unfold emit, store, set_books.
      cbn [books disk medium out with_status title].
      now rewrite <- !app_assoc.
    + unfold emit. cbn [books disk medium out].
      now rewrite <- !app_assoc.
  - unfold emit. cbn [books disk medium out].
    now rewrite <- !app_assoc.
Qed.

Lemma return_book_eq (st : state) (i : str) :
  return_book st i
  = match find_isbn i (books st) 0 with
    | Some (pos, book) =>
        if str_eqb (status book) (py "available") then
          mkState (books st) (disk st) (medium st)
            (out st
             ++ [Print ReturnHeader;
                 Print (AlreadyAvailable (title book) i);
                 Log WARNING (ReturnOfAvailable i)])
        else if str_eqb (status book) (py "issued") then
          let bs := replace_nth pos (with_status book (py "available")) (books st) in
          mkState bs
            (if writable st then Regular (saved_text bs)
             else failed_write st (saved_text bs))
            (medium st)
            (out st
             ++ [Print ReturnHeader;
                 if writable st
                 then Log INFO (SavedBooks (length bs))
                 else Log ERROR SaveFailed;
                 Print (HasBeenReturned (title book) i);
                 Log INFO (BookReturned (title book) i)])
        else
          mkState (books st) (disk st) (medium st)
            (out st
             ++ [Print ReturnHeader; Print (ReturnFailed (title book))])
    | None =>
        mkState (books st) (disk st) (medium st)
          (out st
           ++ [Print ReturnHeader;
               Log INFO (NoISBNMatch i);
               Print (NoBookFound i);
               Log WARNING (ReturnOfMissing i)])
    end.
Proof.
  unfold return_book, search_by_isbn. cbn [emit books disk medium out].
  destruct (find_isbn i (books st) 0) as [[pos book]|].
  - unfold is_available, return_book_method.
    destruct (str_eqb (status book) (py "available")); cbn [negb].
    + unfold emit. cbn [books disk medium out].
      now rewrite <- !app_assoc.
    + destruct (str_eqb (status book) (py "issued")).
      * cbv zeta. rewrite save_books_eq. unfold emit, store, set_books.
        cbn [books disk medium out with_status title].
        now rewrite <- !app_assoc.
      * unfold emit. cbn [books disk medium out].
        now rewrite <- !app_assoc.
  - unfold emit. cbn [books disk medium out].
    now rewrite <- !app_assoc.
Qed.

Lemma issue_book_contract (st : state) (i : str) :
  let st1 := issue_book st i in
  (existsb is_issued_line (said st st1) = true
   <-> exists pre b post,
         first_with i (books st) pre b post /\ status b = (py "available"))
  /\ (forall pre b post,
        first_with i (books st) pre b post -> status b = (py "available") ->
        books st1 = (pre ++ with_status b (py "issued") :: post)
        /\ disk st1
           = (if writable st then Regular (saved_text (books st1))
              else failed_write st (saved_text (books st1)))
        /\ exists rec,
             is_save_record rec = true
             /\ said st st1
                = [Print IssueHeader; rec;
                   Print (HasBeenIssued (title b) i);
                   Log INFO (BookIssued (title b) i)])
  /\ (existsb is_issued_line (said st st1) = false ->
      books st1 = books st /\ disk st1 = disk st).
Proof.
  intros st1. subst st1. rewrite issue_book_eq.
  destruct (first_or_none i (books st)) as [(pre & b & post & Hf) | Hnone].
  - rewrite (find_isbn_first i _ pre b post 0 Hf). cbn [Nat.add].
    assert (U : forall pre' b' post',
               first_with i (books st) pre' b' post' ->
               pre' = pre /\ b' = b /\ post' = post).
    { intros pre' b' post' H'.
      apply (first_with_unique i (books st)); assumption. }
    assert (R : forall b', replace_nth (length pre) b' (books st)
                           = (pre ++ b' :: post)).
    { intros b'. destruct Hf as (-> & _). apply replace_nth_middle. }
    destruct (str_eqb_spec (status b) (py "available")) as [Ha|Ha].
    + cbv zeta. rewrite said_emit.
      cbn [books disk]. rewrite R.
      destruct (writable st); cbn [existsb is_issued_line orb].
      all: split; [|split].
      all: try (split; [intros _; now exists pre, b, post | reflexivity]).
      all: try discriminate.
      all: intros pre' b' post' H' _.
      all: destruct (U _ _ _ H') as (-> & -> & ->).
      all: split; [reflexivity|]; split; [reflexivity|].
      all: eexists; split; [|reflexivity]; reflexivity.
    + rewrite said_emit. cbn [existsb is_issued_line orb books disk].
      split; [|split].
      * split; [discriminate|].
        intros (pre' & b' & post' & H' & Hs).
        destruct (U _ _ _ H') as (_ & -> & _). contradiction.
      * intros pre' b' post' H' Hs.
        destruct (U _ _ _ H') as (_ & -> & _). contradiction.
      * intros _. split; reflexivity.
  - rewrite (find_isbn_none i _ 0 Hnone). rewrite said_emit.
    cbn [existsb is_issued_line orb books disk].
    split; [|split].
    + split; [discriminate|].
      intros (pre & b & post & H & _).
      exfalso. exact (no_first_when_none i _ pre b post Hnone H).
    + intros pre b post H _.
      exfalso. exact (no_first_when_none i _ pre b post Hnone H).
    + intros _. split; reflexivity.
Qed.

Lemma return_book_contract (st : state) (i : str) :
  let st2 := return_book st i in
  (existsb is_returned_line (said st st2) = true
   <-> exists pre b post,
         first_with i (books st) pre b post /\ status b = (py "issued"))
  /\ (forall pre b post,
        first_with i (books st) pre b post -> status b = (py "issued") ->
        books st2 = (pre ++ with_status b (py "available") :: post)
        /\ disk st2
           = (if writable st then Regular (saved_text (books st2))
              else failed_write st (saved_text (books st2)))
        /\ exists rec,
             is_save_record rec = true
             /\ said st st2
                = [Print ReturnHeader; rec;
                   Print (HasBeenReturned (title b) i);
                   Log INFO (BookReturned (title b) i)])
  /\ (existsb is_returned_line (said st st2) = false ->
      books st2 = books st /\ disk st2 = disk st).
Proof.
  intros st2. subst st2. rewrite return_book_eq.
  destruct (first_or_none i (books st)) as [(pre & b & post & Hf) | Hnone].
  - rewrite (find_isbn_first i _ pre b post 0 Hf). cbn [Nat.add].
    assert (U : forall pre' b' post',
               first_with i (books st) pre' b' post' ->
               pre' = pre /\ b' = b /\ post' = post).
    { intros pre' b' post' H'.
      apply (first_with_unique i (books st)); assumption. }
    assert (R : forall b', replace_nth (length pre) b' (books st)
                           = (pre ++ b' :: post)).
    { intros b'. destruct Hf as (-> & _). apply replace_nth_middle. }
    destruct (str_eqb_spec (status b) (py "issued")) as [Hi|Hi].
    + assert (Ha : str_eqb (status b) (py "available") = false).
      { rewrite Hi. reflexivity. }
      rewrite Ha. cbv zeta. rewrite said_emit.
      cbn [books disk]. rewrite R.
      destruct (writable st); cbn [existsb is_returned_line orb].
      all: split; [|split].
      all: try (split; [intros _; now exists pre, b, post | reflexivity]).
      all: try discriminate.
      all: intros pre' b' post' H' _.
      all: destruct (U _ _ _ H') as (-> & -> & ->).
      all: split; [reflexivity|]; split; [reflexivity|].
      all: eexists; split; [|reflexivity]; reflexivity.
    + assert (N : forall pre' b' post',
                 first_with i (books st) pre' b' post' ->
                 status b' = (py "issued") -> False).
      { intros pre' b' post' H' Hs.
        destruct (U _ _ _ H') as (_ & -> & _). contradiction. }
      destruct (str_eqb (status b) (py "available"));
        rewrite said_emit; cbn [existsb is_returned_line orb books disk].
      all: split; [|split].
      all: try (split; [discriminate|]).
      all: try (intros (pre' & b' & post' & H' & Hs); exfalso; eauto).
      all: try (intros pre' b' post' H' Hs; exfalso; eauto).
      all: intros _; split; reflexivity.
  - rewrite (find_isbn_none i _ 0 Hnone). rewrite said_emit.
    cbn [existsb is_returned_line orb books disk].
    split; [|split].
    + split; [discriminate|].
      intros (pre & b & post & H & _).
      exfalso. exact (no_first_when_none i _ pre b post Hnone H).
    + intros pre b post H _.
      exfalso. exact (no_first_when_none i _ pre b post Hnone H).
    + intros _. split; reflexivity.
Qed.


(** ** LibraryInventory.add_book *)

Lemma known_isbn (b : Book) (bs : list Book) :
  existsb (fun x => str_eqb (isbn x) (isbn b)) bs = true
  <-> In (isbn b) (map isbn bs).
Proof.
  rewrite existsb_exists, in_map_iff. split.
  - intros (x & Hx & E). apply str_eqb_eq in E. now exists x.
  - intros (x & E & Hx). exists x. split; [exact Hx | now apply str_eqb_eq].
Qed.

Lemma add_book_eq (st : state) (b : Book) :
  add_book st (BookObject b)
  = if existsb (fun x => str_eqb (isbn x) (isbn b)) (books st)
    then (false,
          mkState (books st) (disk st) (medium st)
            (out st ++ [Log WARNING (DuplicateISBN (isbn b))]))
    else (true,
          mkState (books st ++ [b])
            (if writable st
             then Regular (saved_text (books st ++ [b]))
             else failed_write st (saved_text (books st ++ [b])))
            (medium st)
            (out st
             ++ [if writable st
                 then Log INFO (SavedBooks (length (books st ++ [b])))
                 else Log ERROR SaveFailed;
                 Log INFO (BookAdded (title b))])).
Proof.
  unfold add_book.
  destruct (existsb _ (books st)).
  - reflexivity.
  - cbv zeta. rewrite save_books_eq. unfold emit, set_books.
    cbn [books disk writable out]. now rewrite <- app_assoc.
Qed.

Lemma add_book_keeps_isbns_unique (st : state) (o : object) :
  NoDup (map isbn (books st)) ->
  NoDup (map isbn (books (snd (add_book st o)))).
Proof.
  intros H. destruct o as [b|v].
  - rewrite add_book_eq.
    destruct (existsb _ (books st)) eqn:E; cbn [snd books].
    + exact H.
    + rewrite map_app. cbn [map].
      assert (N : ~ In (isbn b) (map isbn (books st))).
      { intros Hin. apply known_isbn in Hin. congruence. }
      clear E. induction (map isbn (books st)) as [|x l IH]; simpl.
      * constructor; [intros [] | constructor].
      * inversion H as [|? ? Hx Hl]; subst. constructor.
        -- rewrite in_app_iff. intros [Hin | [Hin | []]].
           ++ contradiction.
           ++ apply N. left. now symmetry.
        -- apply IH; [exact Hl|]. intros Hin. apply N. now right.
  - exact H.
Qed.

Lemma add_all_keeps_isbns_unique (calls : list object) :
  forall st : state,
    NoDup (map isbn (books st)) ->
    NoDup (map isbn (books (snd (add_all st calls)))).
Proof.
  induction calls as [|o calls IH]; intros st H; simpl.
  - exact H.
  - pose proof (add_book_keeps_isbns_unique st o H) as H1.
    destruct (add_book st o) as [r st1]. cbn [snd] in H1.
    specialize (IH st1 H1).
    destruct (add_all st1 calls) as [rs st2]. exact IH.
Qed.

(** C2, as the claim states it, fails in two ways.  First: the file holds
    two entries with the same ISBN; [LibraryInventory] loads both, so a
    state that construction reaches has two records for one ISBN before
    any [add_book].  Second: the save fails; [add_book] with a fresh ISBN
    appends the book and returns True, and the book is not in the file: a
    reload finds no book when the file could not be opened, and an empty
    file when the write broke off at its start. *)
Lemma add_book_diverges :
  (let twice := [with_status dune (py "issued"); dune] in
   LibraryInventory (Regular (saved_text twice)) Writable
   = Ok (mkState twice (Regular (saved_text twice)) Writable
           [Log INFO (LoadedBooks 2)])
   /\ ~ NoDup (map isbn twice))
  /\ (let st := mkState [] Absent Refused [] in
      let r := add_book st (BookObject dune) in
      fst r = true
      /\ books (snd r) = [dune]
      /\ disk (snd r) = Absent
      /\ LibraryInventory (disk (snd r)) Refused
         = Ok (mkState [] Absent Refused [Log INFO DataFileNotFound]))
  /\ (let st := mkState [] Absent (Torn 0) [] in
      let r := add_book st (BookObject dune) in
      fst r = true
      /\ books (snd r) = [dune]
      /\ disk (snd r) = Regular []
      /\ LibraryInventory (disk (snd r)) (Torn 0)
         = Ok (mkState [] (Regular []) (Torn 0) [Log ERROR DecodeFailed])).
Proof.
  split; [|split].
  - cbv zeta. split; [vm_compute; reflexivity|].
    intros H. inversion H as [|? ? Hx _]; subst. apply Hx. left. reflexivity.
  - cbv zeta. repeat split.
  - cbv zeta. repeat split.
Qed.

(** C2, amended.  From a state whose books have pairwise different ISBNs,
    in particular from the empty inventory, every run of [add_book] calls
    ends in such a state.  An [add_book] whose book has an ISBN that
    occurs already returns False, leaves books and file as they are and
    attempts no save.  An [add_book] with a fresh ISBN appends the book at
    the end, runs [_save_books] on all the books and returns True; the
    file then holds the serialization of all the books when the save runs
    to its end, and what the failed save leaves otherwise. *)
Theorem add_book_contract :
  forall (st : state) (calls : list object),
    NoDup (map isbn (books st)) ->
    NoDup (map isbn (books (snd (add_all st calls))))
    /\ forall b : Book,
         let r := add_book st (BookObject b) in
         (In (isbn b) (map isbn (books st)) ->
          fst r = false
          /\ books (snd r) = books st
          /\ disk (snd r) = disk st
          /\ existsb is_save_record (said st (snd r)) = false)
         /\ (~ In (isbn b) (map isbn (books st)) ->
             fst r = true
             /\ books (snd r) = (books st ++ [b])
             /\ disk (snd r)
                = (if writable st
                   then Regular (saved_text (books (snd r)))
                   else failed_write st (saved_text (books (snd r))))
             /\ exists rec,
                  is_save_record rec = true
                  /\ said st (snd r) = [rec; Log INFO (BookAdded (title b))]).
Proof.
  intros st calls H. split.
  - now apply add_all_keeps_isbns_unique.
  - intros b r. subst r. rewrite add_book_eq.
    destruct (existsb _ (books st)) eqn:E; cbn [fst snd books disk].
    + split.
      * intros _. rewrite said_emit. repeat split.
      * intros N. exfalso. apply N. now apply known_isbn.
    + split.
      * intros Hin. apply known_isbn in Hin. congruence.
      * intros _. rewrite said_emit.
        split; [reflexivity|]. split; [reflexivity|]. split; [reflexivity|].
        destruct (writable st);
          (eexists; split; [|reflexivity]; reflexivity).
Qed.

(** The contract of [add_book] at the inventory that holds Dune, for three
    calls: a fresh book, a book whose ISBN occurs already, and an object
    that is no book. *)
Lemma add_book_contract_witness :
  let st := mkState [dune] Absent Writable [] in
  let calls := [BookObject emma; BookObject dune; OtherObject JNull] in
  NoDup (map isbn (books st))
  /\ NoDup (map isbn (books (snd (add_all st calls))))
  /\ fst (add_all st calls) = [true; false; false].
Proof.
  cbv zeta.
  assert (H : NoDup (map isbn (books (mkState [dune] Absent Writable [])))).
  { simpl. constructor; [intros [] | constructor]. }
  split; [exact H|]. split.
  - exact (proj1 (add_book_contract (mkState [dune] Absent Writable [])
                    [BookObject emma; BookObject dune; OtherObject JNull] H)).
  - reflexivity.
Defined.
(** ** Book( **book_data ) and the comprehension of _load_books *)

Lemma dict_get_none (k : str) (members : list (str * json)) :
  dict_get k members = None <-> ~ In k (dict_keys members).
Proof.
  induction members as [|[k' v] ms IH]; simpl.
  - split; [intros _ [] | reflexivity].
  - destruct (dict_get k ms) as [v'|].
    + split; [discriminate|]. intros N. exfalso. apply N. right.
      destruct (in_dec (list_eq_dec N.eq_dec) k (dict_keys ms)) as [Hin|Hout];
        [exact Hin|]. apply IH in Hout. discriminate.
    + destruct (str_eqb_spec k k') as [->|Hk].
      * split; [discriminate|]. intros N. exfalso. apply N. now left.
      * split; [|reflexivity]. intros _ [E | Hin].
        -- now apply Hk.
        -- apply (proj1 IH); [reflexivity | exact Hin].
Qed.

Lemma unfit_raises (e : json) : unfit e -> Book_kwargs e = Raise TypeError.
Proof.
  intros U. destruct e as [| | | | |members]; try reflexivity.
  unfold Book_kwargs.
  destruct (forallb known_key (dict_keys members)) eqn:K; [|reflexivity].
  destruct U as [U | [U | [U | [U | U]]]].
  - exfalso. apply U. exact I.
  - apply dict_get_none in U. now rewrite U.
  - apply dict_get_none in U. rewrite U.
    now destruct (dict_get (py "title") members).
  - apply dict_get_none in U. rewrite U.
    now destruct (dict_get (py "title") members), (dict_get (py "author") members).
  - destruct U as (k & Hin & Hk).
    rewrite forallb_forall in K. rewrite (K k Hin) in Hk. discriminate.
Qed.

Lemma Book_kwargs_raises_TypeError (e : json) (x : exn) :
  Book_kwargs e = Raise x -> x = TypeError.
Proof.
  destruct e as [| | | | |members]; simpl;
    try (intros E; injection E as <-; reflexivity).
  destruct (forallb known_key (dict_keys members));
    [|intros E; injection E as <-; reflexivity].
  destruct (dict_get (py "title") members) as [[]|],
           (dict_get (py "author") members) as [[]|],
           (dict_get (py "isbn") members) as [[]|],
           (dict_get (py "status") members) as [[]|];
    intros E; first [discriminate | injection E as <-; reflexivity].
Qed.

Lemma build_books_raises (entries : list json) :
  Exists unfit entries -> build_books entries = Raise TypeError.
Proof.
  induction entries as [|e es IH]; intros H.
  - now apply Exists_nil in H.
  - simpl. apply Exists_cons in H. destruct H as [He | Hes].
    + now rewrite (unfit_raises e He).
    + rewrite (IH Hes). destruct (Book_kwargs e) as [b|x|] eqn:E.
      * reflexivity.
      * now rewrite (Book_kwargs_raises_TypeError e x E).
      * reflexivity.
Qed.

Lemma build_books_all (entries : list json) (bs : list Book) :
  build_books entries = Ok bs ->
  Forall2 (fun e b => Book_kwargs e = Ok b) entries bs.
Proof.
  revert bs. induction entries as [|e es IH]; intros bs; simpl.
  - intros E. injection E as <-. constructor.
  - destruct (Book_kwargs e) as [b|x|] eqn:E.
    + destruct (build_books es) as [bs'|x|]; try discriminate.
      intros H. injection H as <-. constructor; [exact E | now apply IH].
    + discriminate.
    + destruct (build_books es); discriminate.
Qed.

Lemma Book_kwargs_to_dict (b : Book) : Book_kwargs (to_dict b) = Ok b.
Proof. destruct b. reflexivity. Qed.

Lemma build_books_to_dict (bs : list Book) :
  build_books (map to_dict bs) = Ok bs.
Proof.
  induction bs as [|b bs IH]; [reflexivity|].
  cbn [map build_books]. now rewrite Book_kwargs_to_dict, IH.
Qed.

(** ** Construction and the load *)

Lemma LibraryInventory_eq (d : node) (w : writing) :
  LibraryInventory d w
  = match d with
    | Inaccessible => Raise OSError
    | Absent => Ok (mkState [] d w [Log INFO DataFileNotFound])
    | Unreadable => Ok (mkState [] d w [Log ERROR LoadFailed])
    | Regular text =>
        match read_books text with
        | Ok bs => Ok (mkState bs d w [Log INFO (LoadedBooks (length bs))])
        | Raise JSONDecodeError => Ok (mkState [] d w [Log ERROR DecodeFailed])
        | Raise _ => Ok (mkState [] d w [Log ERROR LoadFailed])
        | Outside => Outside
        end
    end.
Proof.
  unfold LibraryInventory, _load_books. cbn [disk].
  destruct d as [|text| |]; reflexivity.
Qed.

(** C3, as the claim states it, fails.  The first text is an array whose
    one entry has title, author and isbn and no status: the load succeeds
    and the book is available.  The second text is an array whose one entry
    has the status lost: the load succeeds and the book keeps that
    status. *)
Lemma load_accepts_missing_or_foreign_status :
  (let entry := JObj [(py "title", JStr (py "Dune")); (py "author", JStr (py "Frank Herbert"));
                      (py "isbn", JStr (py "111"))] in
   let text := json_dumps (JArr [entry]) in
   json_loads text = Ok (JArr [entry])
   /\ ~ has_key (py "status") entry
   /\ LibraryInventory (Regular text) Writable
      = Ok (mkState [dune] (Regular text) Writable [Log INFO (LoadedBooks 1)]))
  /\ (let lost := with_status dune (py "lost") in
      let text := saved_text [lost] in
      json_loads text = Ok (JArr [to_dict lost])
      /\ status lost <> (py "available") /\ status lost <> (py "issued")
      /\ LibraryInventory (Regular text) Writable
         = Ok (mkState [lost] (Regular text) Writable [Log INFO (LoadedBooks 1)])).
Proof.
  split; cbv zeta.
  - split; [vm_compute; reflexivity|]. split.
    + simpl. intros [H | [H | [H | []]]]; discriminate.
    + vm_compute. reflexivity.
  - split; [vm_compute; reflexivity|].
    split; [discriminate|]. split; [discriminate|].
    vm_compute. reflexivity.
Qed.

(** C3, amended.  For a file whose text parses as an array: when some
    entry is no object, or lacks title, author or isbn, or has a key that
    is none of the four attributes, the load fails as a whole, the
    inventory is empty and the error is logged; and every load ends with
    no book at all or with one book for each entry, in the order of the
    file.  An entry without status gives an available book, and the status
    of an entry is taken as it is. *)
Theorem load_is_all_or_nothing :
  forall (text : str) (entries : list json) (w : writing),
    json_loads text = Ok (JArr entries) ->
    (Exists unfit entries ->
     LibraryInventory (Regular text) w
     = Ok (mkState [] (Regular text) w [Log ERROR LoadFailed]))
    /\ (forall st,
          LibraryInventory (Regular text) w = Ok st ->
          books st = []
          \/ Forall2 (fun e b => Book_kwargs e = Ok b) entries (books st))
    /\ (forall t a i,
          Book_kwargs
            (JObj [(py "title", JStr t); (py "author", JStr a); (py "isbn", JStr i)])
          = Ok (mkBook t a i (py "available")))
    /\ (forall t a i s,
          Book_kwargs
            (JObj [(py "title", JStr t); (py "author", JStr a); (py "isbn", JStr i);
                   (py "status", JStr s)])
          = Ok (mkBook t a i s)).
Proof.
  intros text entries w P.
  assert (R : read_books text = build_books entries).
  { unfold read_books. rewrite P. reflexivity. }
  rewrite LibraryInventory_eq, R.
  split; [|split; [|split]].
  - intros U. now rewrite (build_books_raises entries U).
  - intros st. destruct (build_books entries) as [bs|x|] eqn:B.
    + intros E. injection E as <-. right. cbn [books].
      now apply build_books_all.
    + destruct x; intros E; first [discriminate | injection E as <-; now left].
    + discriminate.
  - reflexivity.
  - reflexivity.
Qed.

(** The load of the array whose one entry has only a title. *)
Lemma load_is_all_or_nothing_witness :
  let text := json_dumps (JArr [JObj [(py "title", JStr (py "Dune"))]]) in
  json_loads text = Ok (JArr [JObj [(py "title", JStr (py "Dune"))]])
  /\ LibraryInventory (Regular text) Writable
     = Ok (mkState [] (Regular text) Writable [Log ERROR LoadFailed]).
Proof.
  cbv zeta.
  assert (P : json_loads (json_dumps (JArr [JObj [(py "title", JStr (py "Dune"))]]))
              = Ok (JArr [JObj [(py "title", JStr (py "Dune"))]])).
  { vm_compute. reflexivity. }
  split; [exact P|].
  apply (proj1 (load_is_all_or_nothing _ _ Writable P)).
  left. right. right. left. simpl. intros [H | []]. discriminate.
Defined.
(** ** Construction and the path *)

(** C7.  [LibraryInventory] raises on a path that cannot be examined:
    [Path.exists] raises there, and its call stands before the [try] of
    [_load_books].  On every other path it never raises: where nothing
    stands it gives the empty inventory; on a file whose text is no JSON
    it gives the empty inventory and logs the decoding error; on any other
    failure of the load it gives the empty inventory and logs an error
    too.  The load leaves the file as it is. *)
Theorem construction_raises_only_where_exists_raises :
  (forall w : writing, LibraryInventory Inaccessible w = Raise OSError)
  /\ forall (d : node) (w : writing),
       d <> Inaccessible ->
       (forall e, LibraryInventory d w <> Raise e)
       /\ (forall st, LibraryInventory d w = Ok st -> disk st = d)
       /\ (d = Absent ->
           LibraryInventory d w
           = Ok (mkState [] d w [Log INFO DataFileNotFound]))
       /\ (forall text,
             d = Regular text -> json_loads text = Raise JSONDecodeError ->
             LibraryInventory d w
             = Ok (mkState [] d w [Log ERROR DecodeFailed]))
       /\ (forall text e,
             d = Regular text -> read_books text = Raise e ->
             exists m,
               LibraryInventory d w = Ok (mkState [] d w [Log ERROR m]))
       /\ (d = Unreadable ->
           LibraryInventory d w = Ok (mkState [] d w [Log ERROR LoadFailed])).
Proof.
  split; [reflexivity|].
  intros d w A. rewrite LibraryInventory_eq.
  split; [|split; [|split; [|split; [|split]]]].
  - intros e. destruct d as [|text| |]; try discriminate; [|now elim A].
    destruct (read_books text) as [bs|[]|]; discriminate.
  - intros st. destruct d as [|text| |].
    + intros E. now injection E as <-.
    + destruct (read_books text) as [bs|[]|]; intros E;
        first [discriminate | now injection E as <-].
    + intros E. now injection E as <-.
    + now elim A.
  - intros ->. reflexivity.
  - intros text -> P. unfold read_books. rewrite P. reflexivity.
  - intros text e -> P. rewrite P. destruct e; eexists; reflexivity.
  - intros ->. reflexivity.
Qed.

(** Construction on a file that holds an opening bracket and nothing
    else. *)
Lemma construction_raises_only_where_exists_raises_witness :
  json_loads (py "[") = Raise JSONDecodeError
  /\ LibraryInventory (Regular (py "[")) Writable
     = Ok (mkState [] (Regular (py "[")) Writable [Log ERROR DecodeFailed]).
Proof.
  assert (P : json_loads (py "[") = Raise JSONDecodeError) by reflexivity.
  split; [exact P|].
  destruct (proj2 construction_raises_only_where_exists_raises
              (Regular (py "[")) Writable)
    as (_ & _ & _ & H & _); [discriminate|].
  exact (H (py "[") eq_refl P).
Defined.

(** ** The decoder on the text of the encoder *)

Ltac Zify.zify_post_hook ::= Z.to_euclidean_division_equations.

(** A property of the numbers below [k], checked on each of them. *)
Lemma below_all (k : nat) (P : N -> bool) :
  forallb P (map N.of_nat (seq 0 k)) = true ->
  forall d, (d < N.of_nat k)%N -> P d = true.
Proof.
  intros H d Hd. rewrite forallb_forall in H. apply H.
  rewrite <- (N2Nat.id d). apply in_map. apply in_seq. lia.
Qed.

Lemma hex_value_hex_digit (d : N) :
  (d < 16)%N -> hex_value (hex_digit d) = Some d.
Proof.
  intros H.
  pose proof (below_all 16
                (fun d => match hex_value (hex_digit d) with
                          | Some x => (x =? d)%N
                          | None => false
                          end) eq_refl d H) as E.
  cbv beta in E. destruct (hex_value (hex_digit d)); [|discriminate].
  apply N.eqb_eq in E. now subst.
Qed.

Lemma hex4_value_hex4 (n : N) :
  (n < 65536)%N ->
  match hex4 n with
  | [a; b; c; d] => hex4_value a b c d = Some n
  | _ => False
  end.
Proof.
  intros H. unfold hex4, hex4_value.
  rewrite !hex_value_hex_digit by (apply N.mod_lt; discriminate).
  f_equal. lia.
Qed.

(** The decoder at the escape of a code unit. *)
Lemma scanstring_u_escape (n : N) (tail : str) :
  (n < 65536)%N ->
  scanstring (u_escape n ++ tail)
  = if is_high n then
      match tail with
      | b :: u :: k1 :: k2 :: k3 :: k4 :: r3 =>
          if ((b =? BSL) && (u =? ch "u"))%N then
            match hex4_value k1 k2 k3 k4 with
            | None => Raise JSONDecodeError
            | Some m =>
                if is_low m
                then cons_char (join_surrogates n m) (scanstring r3)
                else cons_char n (scanstring tail)
            end
          else cons_char n (scanstring tail)
      | _ => cons_char n (scanstring tail)
      end
    else cons_char n (scanstring tail).
Proof.
  intros H. pose proof (hex4_value_hex4 n H) as E.
  unfold u_escape. destruct (hex4 n) as [|a [|b [|c [|d [|? ?]]]]];
    try contradiction.
  change (scanstring ((BSL :: ch "u" :: [a; b; c; d]) ++ tail))
    with (match hex4_value a b c d with
          | None => Raise JSONDecodeError
          | Some n =>
              if is_high n then
                match tail with
                | b :: u :: k1 :: k2 :: k3 :: k4 :: r3 =>
                    if ((b =? BSL) && (u =? ch "u"))%N then
                      match hex4_value k1 k2 k3 k4 with
                      | None => Raise JSONDecodeError
                      | Some m =>
                          if is_low m
                          then cons_char (join_surrogates n m) (scanstring r3)
                          else cons_char n (scanstring tail)
                      end
                    else cons_char n (scanstring tail)
                | _ => cons_char n (scanstring tail)
                end
              else cons_char n (scanstring tail)
          end).
  now rewrite E.
Qed.

Lemma scanstring_plain (c : char) (tail : str) :
  c <> DQ -> c <> BSL -> (32 <= c)%N ->
  scanstring (c :: tail) = cons_char c (scanstring tail).
Proof.
  intros Q B L. cbn [scanstring].
  apply N.eqb_neq in Q, B. rewrite Q, B.
  replace (c <? 32)%N with false; [reflexivity|].
  symmetry. apply N.ltb_ge. exact L.
Qed.

(** The shapes of [escape_char]. *)
Lemma escape_char_cases (c : char) :
  (exists x, escape_char c = [BSL; x] /\ x <> ch "u" /\ unescape x = Some c)
  \/ (escape_char c = [c] /\ c <> DQ /\ c <> BSL /\ (32 <= c <= 126)%N)
  \/ (escape_char c = u_escape c /\ (c < 65536)%N)
  \/ ((65536 <= c)%N
      /\ escape_char c
         = u_escape (55296 + (c - 65536) / 1024 mod 1024)%N
           ++ u_escape (56320 + (c - 65536) mod 1024)%N).
Proof.
  unfold escape_char.
  destruct (N.eqb_spec c DQ) as [->|Q];
    [left; eexists; repeat split; discriminate|].
  destruct (N.eqb_spec c BSL) as [->|B];
    [left; eexists; repeat split; discriminate|].
  destruct (N.eqb_spec c LF) as [->|?];
    [left; eexists; repeat split; discriminate|].
  destruct (N.eqb_spec c CR) as [->|?];
    [left; eexists; repeat split; discriminate|].
  destruct (N.eqb_spec c TAB) as [->|?];
    [left; eexists; repeat split; discriminate|].
  destruct (N.eqb_spec c BS) as [->|?];
    [left; eexists; repeat split; discriminate|].
  destruct (N.eqb_spec c FF) as [->|?];
    [left; eexists; repeat split; discriminate|].
  destruct (N.leb_spec 32 c) as [L|L]; cbn [andb].
  - destruct (N.leb_spec c 126) as [U|U].
    + right. left. repeat split; assumption.
    + destruct (N.ltb_spec c 65536) as [V|V].
      * right. right. left. now split.
      * right. right. right. now split.
  - right. right. left. split; [|lia].
    destruct (N.ltb_spec c 65536) as [V|V]; [reflexivity | lia].
Qed.

Lemma is_high_bounds (c : char) :
  is_high c = true <-> (55296 <= c <= 56319)%N.
Proof. unfold is_high. rewrite andb_true_iff, !N.leb_le. reflexivity. Qed.

Lemma is_low_bounds (c : char) :
  is_low c = true <-> (56320 <= c <= 57343)%N.
Proof. unfold is_low. rewrite andb_true_iff, !N.leb_le. reflexivity. Qed.

Lemma not_high (c : char) :
  (c < 55296 \/ 56319 < c)%N -> is_high c = false.
Proof.
  intros H. destruct (is_high c) eqn:E; [|reflexivity].
  apply is_high_bounds in E. lia.
Qed.

Lemma not_low (c : char) :
  (c < 56320 \/ 57343 < c)%N -> is_low c = false.
Proof.
  intros H. destruct (is_low c) eqn:E; [|reflexivity].
  apply is_low_bounds in E. lia.
Qed.

(** A character that is no high surrogate, escaped, is read back as
    itself, whatever follows. *)
Lemma scanstring_escape_char (c : char) (tail : str) :
  code_point c = true -> is_high c = false ->
  scanstring (escape_char c ++ tail) = cons_char c (scanstring tail).
Proof.
  intros V H. apply N.ltb_lt in V.
  destruct (escape_char_cases c)
    as [(x & -> & Hx & Ux) | [(-> & Q & B & L) | [(-> & U) | (U & ->)]]].
  - cbn [app scanstring]. apply N.eqb_neq in Hx.
    change (BSL =? DQ)%N with false. change (BSL =? BSL)%N with true.
    cbv iota. now rewrite Hx, Ux.
  - apply scanstring_plain; [assumption | assumption | apply L].
  - rewrite (scanstring_u_escape c tail U). now rewrite H.
  - assert (Hh : (55296 + (c - 65536) / 1024 mod 1024 < 65536)%N) by lia.
    assert (Hl : (56320 + (c - 65536) mod 1024 < 65536)%N) by lia.
    rewrite <- app_assoc, (scanstring_u_escape _ _ Hh).
    replace (is_high _) with true
      by (symmetry; apply is_high_bounds; lia).
    pose proof (hex4_value_hex4 _ Hl) as E. unfold u_escape.
    destruct (hex4 (56320 + (c - 65536) mod 1024))
      as [|k1 [|k2 [|k3 [|k4 [|? ?]]]]]; try contradiction.
    cbn [app]. change (BSL =? BSL)%N with true.
    change (ch "u" =? ch "u")%N with true. cbv iota. cbn [andb].
    rewrite E.
    replace (is_low _) with true by (symmetry; apply is_low_bounds; lia).
    f_equal. unfold join_surrogates. lia.
Qed.

(** The escape of a high surrogate is read back as the surrogate when no
    escape of a low surrogate follows it. *)
Lemma scanstring_high (c : char) (tail : str) :
  is_high c = true -> low_escape_ahead tail = false ->
  scanstring (escape_char c ++ tail) = cons_char c (scanstring tail).
Proof.
  intros H A. pose proof (proj1 (is_high_bounds c) H) as B.
  destruct (escape_char_cases c)
    as [(x & _ & _ & Ux) | [(_ & _ & _ & L) | [(-> & U) | (U & _)]]].
  - unfold unescape in Ux.
    repeat match type of Ux with
           | context [(?a =? ?b)%N] => destruct (a =? b)%N
           end;
      first [discriminate
            | injection Ux as <-; exfalso; apply (proj1 B); reflexivity].
  - lia.
  - rewrite (scanstring_u_escape c tail U), H.
    destruct tail as [|b [|u [|k1 [|k2 [|k3 [|k4 r3]]]]]]; try reflexivity.
    unfold low_escape_ahead in A.
    destruct ((b =? BSL) && (u =? ch "u"))%N; [|reflexivity].
    cbn [andb] in A.
    destruct (hex4_value k1 k2 k3 k4) as [m|]; [|discriminate].
    now rewrite A.
  - lia.
Qed.

Lemma no_low_escape_ahead (d : char) (tail : str) :
  code_point d = true -> is_low d = false ->
  low_escape_ahead (escape_char d ++ tail) = false.
Proof.
  intros V L. apply N.ltb_lt in V.
  destruct (escape_char_cases d)
    as [(x & -> & Hx & _) | [(-> & _ & B & _) | [(-> & U) | (U & ->)]]].
  - apply N.eqb_neq in Hx.
    destruct tail as [|k1 [|k2 [|k3 [|k4 r]]]]; try reflexivity.
    cbn [app low_escape_ahead]. rewrite Hx, andb_false_r. reflexivity.
  - apply N.eqb_neq in B.
    destruct tail as [|u [|k1 [|k2 [|k3 [|k4 r]]]]]; try reflexivity.
    cbn [app low_escape_ahead]. now rewrite B.
  - pose proof (hex4_value_hex4 d U) as E. unfold u_escape.
    destruct (hex4 d) as [|k1 [|k2 [|k3 [|k4 [|? ?]]]]]; try contradiction.
    cbn [app low_escape_ahead]. now rewrite E, L.
  - assert (Hh : (55296 + (d - 65536) / 1024 mod 1024 < 65536)%N) by lia.
    pose proof (hex4_value_hex4 _ Hh) as E. unfold u_escape at 1.
    destruct (hex4 (55296 + (d - 65536) / 1024 mod 1024))
      as [|k1 [|k2 [|k3 [|k4 [|? ?]]]]]; try contradiction.
    cbn [app low_escape_ahead]. rewrite E.
    rewrite not_low by lia. reflexivity.
Qed.

Lemma no_escape_at_the_quote (rest : str) :
  low_escape_ahead (DQ :: rest) = false.
Proof. destruct rest as [|u [|k1 [|k2 [|k3 [|k4 r]]]]]; reflexivity. Qed.

Lemma storable_cons (c : char) (s : str) :
  storable (c :: s) = true ->
  code_point c = true /\ storable s = true
  /\ (is_high c = true ->
      match s with d :: _ => is_low d = false | [] => True end).
Proof.
  unfold storable. cbn [forallb pair_free].
  rewrite !andb_true_iff, negb_true_iff.
  intros ((V & Vs) & (P & Ps)). repeat split; try assumption.
  intros H. rewrite H in P. destruct s; [exact I | exact P].
Qed.

(** What the encoder writes for a storable [str] and a closing quote, the
    decoder reads back as that [str]. *)
Lemma scanstring_escape (s rest : str) :
  storable s = true ->
  scanstring (escape s ++ DQ :: rest) = Ok (s, rest).
Proof.
  induction s as [|c s IH]; intros S.
  - reflexivity.
  - destruct (storable_cons c s S) as (V & Ss & P).
    cbn [escape]. rewrite <- app_assoc.
    destruct (is_high c) eqn:H.
    + rewrite scanstring_high; [now rewrite (IH Ss) | exact H |].
      destruct s as [|d s]; [apply no_escape_at_the_quote|].
      cbn [escape]. rewrite <- app_assoc.
      pose proof (proj1 (storable_cons d s Ss)) as Vd.
      apply no_low_escape_ahead; [exact Vd | now apply P].
    + rewrite scanstring_escape_char by assumption. now rewrite (IH Ss).
Qed.

Ltac flatten :=
  repeat first
    [ rewrite <- app_assoc
    | progress cbn [app spaces Nat.mul Nat.add newline_indent quote] ].

(** One book, as [to_dict] and the encoder write it at nesting level 1,
    is read back as the same dict. *)
Lemma parse_book (d f : nat) (b : Book) (rest : str) :
  storable_book b = true ->
  parse_value (S d) (6 + f) (encode 1 (to_dict b) ++ rest)
  = Ok (to_dict b, rest).
Proof.
  destruct b as [t a i s]. unfold storable_book.
  cbn [title author isbn status]. rewrite !andb_true_iff.
  intros (((St & Sa) & Si) & Ss).
  unfold to_dict. cbn [title author isbn status encode].
  change (escape (py "title")) with (py "title").
  change (escape (py "author")) with (py "author").
  change (escape (py "isbn")) with (py "isbn").
  change (escape (py "status")) with (py "status").
  flatten. simpl.
  do 4 (rewrite scanstring_escape by assumption; simpl).
  reflexivity.
Qed.

Lemma book_text_head (b : Book) (rest : str) :
  exists r, encode 1 (to_dict b) ++ rest = ch "{" :: r.
Proof. destruct b. eexists. reflexivity. Qed.

Lemma skip_indent (b : Book) (rest : str) :
  skip_ws (newline_indent 1 ++ encode 1 (to_dict b) ++ rest)
  = encode 1 (to_dict b) ++ rest.
Proof.
  destruct (book_text_head b rest) as [r ->]. reflexivity.
Qed.

Lemma parse_items_S (d f : nat) (s : str) :
  parse_items d (S f) s
  = do (v, r) <- parse_value d f s;
    match skip_ws r with
    | c :: r1 =>
        if (c =? ch "]")%N then Ok ([v], r1)
        else if (c =? ch ",")%N then
          do (vs, rest) <- parse_items d f (skip_ws r1); Ok (v :: vs, rest)
        else Raise JSONDecodeError
    | [] => Raise JSONDecodeError
    end.
Proof. reflexivity. Qed.

Lemma parse_items_books (bs : list Book) :
  forall (b : Book) (d f : nat) (rest : str),
    forallb storable_book (b :: bs) = true ->
    parse_items (S d) (7 + length bs + f)
      (encode 1 (to_dict b)
       ++ rest_text bs ++ newline_indent 0 ++ ch "]" :: rest)
    = Ok (map to_dict (b :: bs), rest).
Proof.
  induction bs as [|b' bs IH]; intros b d f rest Hs;
    cbn [forallb] in Hs; apply andb_true_iff in Hs; destruct Hs as [Sb Hs].
  - change (7 + length (@nil Book) + f) with (S (6 + f)).
    rewrite parse_items_S, parse_book by exact Sb. reflexivity.
  - change (7 + length (b' :: bs) + f) with (S (6 + (1 + length bs + f))).
    rewrite parse_items_S, parse_book by exact Sb.
    cbn [rest_text bind]. rewrite <- !app_assoc.
    change (skip_ws (py "," ++ ?x)) with (py "," ++ x).
    change (py "," ++ ?x) with (ch "," :: x).
    cbv iota beta. change (ch "," =? ch "]")%N with false.
    change (ch "," =? ch ",")%N with true. cbv iota.
    rewrite skip_indent.
    change (6 + (1 + length bs + f)) with (7 + length bs + f).
    rewrite IH by exact Hs. reflexivity.
Qed.

Lemma saved_text_cons (b : Book) (bs : list Book) :
  saved_text (b :: bs)
  = ch "[" :: newline_indent 1
      ++ encode 1 (to_dict b)
      ++ rest_text bs ++ newline_indent 0 ++ [ch "]"].
Proof.
  unfold saved_text, json_dumps. cbn [map encode].
  match goal with
  | |- context [?more (map to_dict bs)] =>
      assert (E : forall l, more (map to_dict l) = rest_text l)
  end.
  { induction l as [|b' l IH]; [reflexivity|].
    cbn [map rest_text]. now rewrite IH. }
  rewrite E. reflexivity.
Qed.

Lemma rest_text_length (bs : list Book) :
  length bs <= length (rest_text bs).
Proof.
  induction bs as [|b bs IH]; simpl; [lia|].
  rewrite !length_app. lia.
Qed.

Lemma parse_array_open (d f : nat) (x r : str) :
  skip_ws x = ch "{" :: r ->
  parse_value (S d) (S f) (ch "[" :: x)
  = do (vs, rest) <- parse_items d f (ch "{" :: r); Ok (JArr vs, rest).
Proof. intros H. simpl. rewrite H. reflexivity. Qed.

(** What [_save_books] writes for storable books, [json.load] reads back
    as the list of the dicts of the books. *)
Lemma json_loads_saved_text (bs : list Book) :
  forallb storable_book bs = true ->
  json_loads (saved_text bs) = Ok (JArr (map to_dict bs)).
Proof.
  destruct bs as [|b bs]; [reflexivity|]. intros Hs.
  unfold json_loads. rewrite saved_text_cons.
  set (tail := rest_text bs ++ newline_indent 0 ++ [ch "]"]).
  change (skip_ws (ch "[" :: ?x)) with (ch "[" :: x).
  destruct (book_text_head b tail) as [r Hr].
  change depth_limit with (S (S 198)).
  rewrite (parse_array_open _ _ _ r);
    [|rewrite skip_indent; exact Hr].
  rewrite <- Hr. subst tail.
  set (F := 2 * _).
  assert (HF : 7 + length bs <= F).
  { subst F. cbn [length]. rewrite !length_app.
    change (length (newline_indent 1)) with 5.
    pose proof (rest_text_length bs). lia. }
  replace F with (7 + length bs + (F - 7 - length bs)) by lia.
  change [ch "]"] with (ch "]" :: []).
  rewrite parse_items_books by exact Hs. reflexivity.
Qed.

Lemma read_books_saved_text (bs : list Book) :
  forallb storable_book bs = true ->
  read_books (saved_text bs) = Ok bs.
Proof.
  intros Hs. unfold read_books. rewrite json_loads_saved_text by exact Hs.
  cbn [bind iterate]. apply build_books_to_dict.
Qed.

Lemma writable_medium (st : state) :
  writable st = true -> medium st = Writable /\ disk st <> Inaccessible.
Proof.
  unfold writable. destruct (disk st), (medium st); intros W;
    try discriminate; split; first [reflexivity | discriminate].
Qed.




(** ** Two runs *)

(** The file after [add_book] of Dune on an empty inventory, line by
    line. *)
Example saved_text_of_dune :
  let q := fun s : str => DQ :: s ++ [DQ] in
  let nl := [LF] in
  saved_text [dune]
  = py "[" ++ nl
    ++ py "    {" ++ nl
    ++ py "        " ++ q (py "title") ++ py ": " ++ q (py "Dune")
    ++ py "," ++ nl
    ++ py "        " ++ q (py "author") ++ py ": " ++ q (py "Frank Herbert")
    ++ py "," ++ nl
    ++ py "        " ++ q (py "isbn") ++ py ": " ++ q (py "111")
    ++ py "," ++ nl
    ++ py "        " ++ q (py "status") ++ py ": " ++ q (py "available")
    ++ nl
    ++ py "    }" ++ nl
    ++ py "]".
Proof. reflexivity. Qed.

(** Add Dune, issue it, issue it again, return it, search for dun, look
    up the ISBN 999. *)
Example scenario :
  let s0 := mkState [] Absent Writable [] in
  let r1 := add_book s0 (BookObject (new_Book (py "Dune") (py "Frank Herbert") (py "111"))) in
  let s1 := snd r1 in
  let s2 := issue_book s1 (py "111") in
  let s3 := issue_book s2 (py "111") in
  let s4 := return_book s3 (py "111") in
  fst r1 = true
  /\ books s1 = [dune]
  /\ existsb is_issued_line (said s1 s2) = true
  /\ map status (books s2) = [(py "issued")]
  /\ existsb is_issued_line (said s2 s3) = false
  /\ books s3 = books s2
  /\ existsb is_returned_line (said s3 s4) = true
  /\ map status (books s4) = [(py "available")]
  /\ disk s4 = Regular (saved_text [dune])
  /\ fst (search_by_title s4 (py "dun")) = [dune]
  /\ fst (search_by_isbn s4 (py "999")) = None.
Proof. vm_compute. repeat split. Qed.

(** Files that hold a JSON document other than an array of books: an
    object without members and an empty str have nothing to iterate
    over and load as no book; a number cannot be iterated over, and the
    keys of an object are no mappings, so the load fails. *)
Example load_of_other_documents :
  LibraryInventory (Regular (py "{}")) Writable
  = Ok (mkState [] (Regular (py "{}")) Writable [Log INFO (LoadedBooks 0)])
  /\ LibraryInventory (Regular (json_dumps (JStr []))) Writable
     = Ok (mkState [] (Regular (json_dumps (JStr []))) Writable
             [Log INFO (LoadedBooks 0)])
  /\ LibraryInventory (Regular (py "5")) Writable
     = Ok (mkState [] (Regular (py "5")) Writable [Log ERROR LoadFailed])
  /\ LibraryInventory (Regular (json_dumps (JObj [(py "a", JNum (py "1"))]))) Writable
     = Ok (mkState [] (Regular (json_dumps (JObj [(py "a", JNum (py "1"))]))) Writable
             [Log ERROR LoadFailed]).
Proof. vm_compute. repeat split. Qed.

(** ** str.lower on the code points below 256 *)

Lemma capital_letterb_spec (c : char) :
  capital_letterb c = true <-> capital_letter c.
Proof.
  unfold capital_letterb, capital_letter.
  rewrite !orb_true_iff, !andb_true_iff, !N.leb_le. tauto.
Qed.

Lemma lower_char_below_256 (c : char) :
  (c < 256)%N -> lower_char c = [small_of c].
Proof.
  intros H.
  pose proof (below_all 256
                (fun c => str_eqb (lower_char c) [small_of c]) eq_refl c H)
    as E.
  now apply str_eqb_eq in E.
Qed.

Lemma lower_from_below_256 (s : str) :
  below_256 s -> forall before, lower_from before s = map small_of s.
Proof.
  induction 1 as [|c s Hc Hs IH]; intros before; [reflexivity|].
  cbn [lower_from map].
  destruct (N.eqb_spec c 931) as [->|_]; [discriminate Hc|].
  now rewrite (lower_char_below_256 c Hc), IH.
Qed.

Lemma lower_below_256 (s : str) : below_256 s -> lower s = map small_of s.
Proof. intros H. now apply lower_from_below_256. Qed.

Lemma small_of_same_letter (c d : char) :
  (c < 256)%N -> (d < 256)%N ->
  (small_of c = small_of d <-> same_letter c d).
Proof.
  intros Hc Hd. unfold small_of, same_letter.
  destruct (capital_letterb c) eqn:Ec, (capital_letterb d) eqn:Ed.
  all: try (apply capital_letterb_spec in Ec).
  all: try (apply capital_letterb_spec in Ed).
  all: try (assert (Nc : ~ capital_letter c)
              by (rewrite <- capital_letterb_spec; congruence)).
  all: try (assert (Nd : ~ capital_letter d)
              by (rewrite <- capital_letterb_spec; congruence)).
  all: unfold capital_letter in *; split; intros E.
  all: try (destruct E as [E | [[E1 E2] | [E1 E2]]]).
  all: try lia.
  all: try (left; lia).
Qed.

Lemma same_letter_below_256 (c d : char) :
  (c < 256)%N -> same_letter c d -> (d < 256)%N.
Proof.
  unfold same_letter, capital_letter. intros Hc [E | [[E1 E2] | [E1 E2]]]; lia.
Qed.

Lemma map_small_of_same (a b : str) :
  below_256 a -> below_256 b ->
  (map small_of a = map small_of b <-> Forall2 same_letter a b).
Proof.
  intros Ha. revert b. induction Ha as [|c a Hc Ha IH]; intros b Hb.
  - split.
    + destruct b; [constructor | discriminate].
    + intros F. inversion F. reflexivity.
  - destruct Hb as [|d b Hd Hb].
    + split; [discriminate | intros F; inversion F].
    + cbn [map]. split.
      * intros E. injection E as E1 E2. constructor.
        -- now apply small_of_same_letter.
        -- now apply IH.
      * intros F. inversion F as [|? ? ? ? F1 F2]; subst. f_equal.
        -- now apply small_of_same_letter.
        -- now apply IH.
Qed.

Lemma below_256_app (a b : str) :
  below_256 (a ++ b) <-> below_256 a /\ below_256 b.
Proof. apply Forall_app. Qed.

(** On titles and queries below 256, the test of [search_by_title] is
    the occurrence of the query in the title up to case. *)
Lemma contains_lower_below_256 (q t : str) :
  below_256 q -> below_256 t ->
  (contains (lower q) (lower t) = true <-> ci_substring q t).
Proof.
  intros Hq Ht. rewrite (lower_below_256 q Hq), (lower_below_256 t Ht).
  rewrite contains_spec. unfold ci_substring. split.
  - intros (pre & post & E).
    apply map_eq_app in E. destruct E as (t1 & t23 & -> & E1 & E).
    apply map_eq_app in E. destruct E as (t2 & t3 & -> & E2 & E3).
    exists t1, t2, t3. split; [reflexivity|].
    apply below_256_app in Ht. destruct Ht as [_ Ht].
    apply below_256_app in Ht. destruct Ht as [Ht _].
    now apply map_small_of_same.
  - intros (pre & mid & post & -> & F).
    exists (map small_of pre), (map small_of post).
    rewrite !map_app. f_equal. f_equal.
    apply below_256_app in Ht. destruct Ht as [_ Ht].
    apply below_256_app in Ht. destruct Ht as [Ht _].
    now apply map_small_of_same.
Qed.

Lemma search_by_title_eq (st : state) (q : str) :
  fst (search_by_title st q)
  = filter (fun book => contains (lower q) (lower (title book))) (books st)
  /\ books (snd (search_by_title st q)) = books st
  /\ disk (snd (search_by_title st q)) = disk st.
Proof.
  unfold search_by_title. destruct (filter _ (books st)); repeat split.
Qed.

(** ** LibraryInventory.search_by_title *)

(** C8.  [search_by_title] leaves the books and the file as they are and
    returns books of the inventory, in the order of [self.books].  When
    the query and the titles hold code points below 256 only, it returns
    exactly the books whose title has the query as a substring up to case.
    Beyond them it does not: the title of the first part holds the query,
    a capital sigma, as its last letter, and the search for it returns
    nothing, because [str.lower] makes a final sigma of the one in the
    title and a medial sigma of the one in the query. *)
Theorem search_by_title_spec :
  (let odos := new_Book [927; 916; 927; 931]%N (py "a") (py "1") in
   let st := mkState [odos] Absent Writable [] in
   title odos = [927; 916; 927]%N ++ [931]%N ++ []
   /\ ci_substring [931]%N (title odos)
   /\ fst (search_by_title st [931]%N) = [])
  /\ forall (st : state) (q : str),
       books (snd (search_by_title st q)) = books st
       /\ disk (snd (search_by_title st q)) = disk st
       /\ exists matches : Book -> bool,
            fst (search_by_title st q) = filter matches (books st)
            /\ (below_256 q ->
                forall b, below_256 (title b) ->
                          (matches b = true <-> ci_substring q (title b))).
Proof.
  split.
  - cbv zeta. split; [reflexivity|]. split; [|reflexivity].
    exists [927; 916; 927]%N, [931]%N, []. split; [reflexivity|].
    constructor; [now left | constructor].
  - intros st q. destruct (search_by_title_eq st q) as (F & B & D).
    split; [exact B|]. split; [exact D|].
    exists (fun book => contains (lower q) (lower (title book))).
    split; [exact F|].
    intros Hq b Hb. now apply contains_lower_below_256.
Qed.

(** * Further properties *)

(** ** search_by_isbn and add_book *)

Lemma said_nothing (st : state) : said st st = [].
Proof. unfold said. apply skipn_all. Qed.

Lemma search_by_isbn_eq (st : state) (i : str) :
  search_by_isbn st i
  = match find_isbn i (books st) 0 with
    | Some ref => (Some ref, st)
    | None =>
        (None,
         mkState (books st) (disk st) (medium st)
           (out st ++ [Log INFO (NoISBNMatch i)]))
    end.
Proof. reflexivity. Qed.

Lemma find_isbn_app (i : str) (bs : list Book) (b : Book) (pos : nat) :
  find_isbn i (bs ++ [b]) pos
  = match find_isbn i bs pos with
    | Some ref => Some ref
    | None =>
        if str_eqb (isbn b) i then Some (pos + length bs, b) else None
    end.
Proof.
  revert pos. induction bs as [|x bs IH]; intros pos; simpl.
  - now rewrite Nat.add_0_r.
  - destruct (str_eqb (isbn x) i); [reflexivity|].
    rewrite IH. destruct (find_isbn i bs (S pos)); [reflexivity|].
    destruct (str_eqb (isbn b) i); [|reflexivity].
    f_equal. f_equal. lia.
Qed.

Lemma find_isbn_known (b : Book) (bs : list Book) (pos : nat) :
  existsb (fun x => str_eqb (isbn x) (isbn b)) bs = false
  <-> find_isbn (isbn b) bs pos = None.
Proof.
  revert pos. induction bs as [|x bs IH]; intros pos; simpl.
  - split; reflexivity.
  - destruct (str_eqb (isbn x) (isbn b)); simpl.
    + split; discriminate.
    + apply IH.
Qed.

(** X1.  [search_by_isbn] returns the first book of [self.books] that has
    the ISBN, and nothing exactly when no book has it; it leaves the books
    and the file as they are, and logs only when it finds nothing. *)
Theorem search_by_isbn_spec :
  forall (st : state) (i : str),
    let r := search_by_isbn st i in
    books (snd r) = books st
    /\ disk (snd r) = disk st
    /\ match fst r with
       | Some (pos, b) =>
           (exists pre post,
              first_with i (books st) pre b post /\ pos = length pre)
           /\ said st (snd r) = []
       | None =>
           Forall (fun x => isbn x <> i) (books st)
           /\ said st (snd r) = [Log INFO (NoISBNMatch i)]
       end.
Proof.
  intros st i r. subst r. rewrite search_by_isbn_eq.
  destruct (first_or_none i (books st)) as [(pre & b & post & Hf) | Hnone].
  - rewrite (find_isbn_first i _ pre b post 0 Hf). cbn [fst snd Nat.add].
    repeat split.
    + now exists pre, post.
    + apply said_nothing.
  - rewrite (find_isbn_none i _ 0 Hnone). cbn [fst snd books disk].
    repeat split; [exact Hnone | apply said_emit].
Qed.

(** X2.  [add_book] accepts a book exactly when [search_by_isbn] finds
    nothing for its ISBN; after an accepted book, [search_by_isbn] finds
    that book, at the end of the list, and answers for every other ISBN
    as it did before. *)
Theorem add_book_then_search :
  forall (st : state) (b : Book),
    let r := add_book st (BookObject b) in
    (fst r = true <-> fst (search_by_isbn st (isbn b)) = None)
    /\ (fst r = true ->
        fst (search_by_isbn (snd r) (isbn b)) = Some (length (books st), b)
        /\ forall i, i <> isbn b ->
             fst (search_by_isbn (snd r) i) = fst (search_by_isbn st i)).
Proof.
  intros st b r. subst r. rewrite add_book_eq, !search_by_isbn_eq.
  destruct (existsb _ (books st)) eqn:E; cbn [fst snd].
  - split.
    + split; [discriminate|].
      destruct (find_isbn (isbn b) (books st) 0) eqn:F; [discriminate|].
      apply (find_isbn_known b) in F. congruence.
    + discriminate.
  - pose proof (proj1 (find_isbn_known b (books st) 0) E) as F.
    split.
    + rewrite F. split; reflexivity.
    + intros _. split.
      * cbn [books].
        rewrite find_isbn_app, F, str_eqb_refl. reflexivity.
      * intros i Hi. rewrite !search_by_isbn_eq. cbn [books].
        rewrite find_isbn_app.
        destruct (find_isbn i (books st) 0); [reflexivity|].
        apply not_eq_sym in Hi. apply str_eqb_neq in Hi.
        now rewrite Hi.
Qed.

(** ** What the transitions keep *)

Lemma with_status_twice (b : Book) (s : str) :
  with_status (with_status b s) (status b) = b.
Proof. destruct b. reflexivity. Qed.

Lemma apply_transition_cases (t : transition) (b : Book) :
  identity (snd (apply_transition t b)) = identity b
  /\ (in_enum (status b) -> in_enum (status (snd (apply_transition t b))))
  /\ (~ in_enum (status b) -> apply_transition t b = (false, b)).
Proof.
  unfold in_enum. destruct t; cbn [apply_transition].
  - destruct (issue_cases b) as [[H E] | [H E]]; rewrite E; cbn [snd].
    + repeat split; [now right | intros N; exfalso; apply N; now left].
    + repeat split. exact (fun H' => H').
  - destruct (return_cases b) as [[H E] | [H E]]; rewrite E; cbn [snd].
    + repeat split; [now left | intros N; exfalso; apply N; now right].
    + repeat split. exact (fun H' => H').
Qed.

(** X3.  Whatever calls of [issue] and [return_book] a book receives, its
    title, author and ISBN stay as they are; a status that is available
    or issued stays one of the two; and a book with any other status is
    stuck: every call returns False and leaves it as it is. *)
Theorem transitions_keep_the_book :
  forall (ts : list transition) (b : Book),
    identity (snd (run_transitions ts b)) = identity b
    /\ (in_enum (status b) -> in_enum (status (snd (run_transitions ts b))))
    /\ (~ in_enum (status b) ->
        run_transitions ts b = (repeat false (length ts), b)).
Proof.
  induction ts as [|t ts IH]; intros b.
  - repeat split. exact (fun H => H).
  - cbn [run_transitions length repeat].
    destruct (apply_transition_cases t b) as (I & E & S).
    destruct (apply_transition t b) as [ok b1] eqn:A. cbn [snd] in I, E.
    destruct (IH b1) as (I1 & E1 & S1).
    destruct (run_transitions ts b1) as [oks b2] eqn:R. cbn [snd] in *.
    split; [congruence|]. split.
    + intros H. apply E1, E, H.
    + intros N. specialize (S N). injection S as -> ->.
      specialize (S1 N). now injection S1 as -> ->.
Qed.

(** ** What issue_book and return_book keep *)

Lemma identity_with_status (b : Book) (s : str) :
  identity (with_status b s) = identity b.
Proof. reflexivity. Qed.

Lemma replace_found_keeps_identities (i : str) (bs : list Book)
  (pos : nat) (b : Book) (s : str) :
  find_isbn i bs 0 = Some (pos, b) ->
  map identity (replace_nth pos (with_status b s) bs) = map identity bs.
Proof.
  intros F.
  destruct (first_or_none i bs) as [(pre & b' & post & Hf) | Hnone].
  - rewrite (find_isbn_first i bs pre b' post 0 Hf) in F.
    injection F as <- <-. destruct Hf as (-> & _).
    rewrite replace_nth_middle, !map_app. reflexivity.
  - rewrite (find_isbn_none i bs 0 Hnone) in F. discriminate.
Qed.

Lemma issue_book_keeps_identities (st : state) (i : str) :
  map identity (books (issue_book st i)) = map identity (books st)
  /\ medium (issue_book st i) = medium st
  /\ writable (issue_book st i) = writable st.
Proof.
  rewrite issue_book_eq.
  destruct (find_isbn i (books st) 0) as [[pos book]|] eqn:F;
    [|repeat split].
  destruct (str_eqb (status book) (py "available")); [|repeat split].
  cbv zeta. cbn [books medium].
  split; [|split; [reflexivity | apply writable_after_write]].
  now apply (replace_found_keeps_identities i).
Qed.

Lemma return_book_keeps_identities (st : state) (i : str) :
  map identity (books (return_book st i)) = map identity (books st)
  /\ medium (return_book st i) = medium st
  /\ writable (return_book st i) = writable st.
Proof.
  rewrite return_book_eq.
  destruct (find_isbn i (books st) 0) as [[pos book]|] eqn:F;
    [|repeat split].
  destruct (str_eqb (status book) (py "available")); [repeat split|].
  destruct (str_eqb (status book) (py "issued")); [|repeat split].
  cbv zeta. cbn [books medium].
  split; [|split; [reflexivity | apply writable_after_write]].
  now apply (replace_found_keeps_identities i).
Qed.

(** X4.  [issue_book] and [return_book] never add, remove or move a book,
    and never touch a title, an author or an ISBN: the list of the books
    without their status is after the command what it was before. *)
Theorem commands_keep_the_catalogue :
  forall (st : state) (i : str),
    map identity (books (issue_book st i)) = map identity (books st)
    /\ map identity (books (return_book st i)) = map identity (books st).
Proof.
  intros st i. split.
  - apply (proj1 (issue_book_keeps_identities st i)).
  - apply (proj1 (return_book_keeps_identities st i)).
Qed.

(** X5.  When [issue_book] reports success for an ISBN, a [return_book]
    for the same ISBN right after it reports success too and gives back
    the books as they were before the two commands; on a file that can be
    written, the file then holds their serialization. *)
Theorem issue_then_return_restores :
  forall (st : state) (i : str),
    existsb is_issued_line (said st (issue_book st i)) = true ->
    let st1 := issue_book st i in
    let st2 := return_book st1 i in
    existsb is_returned_line (said st1 st2) = true
    /\ books st2 = books st
    /\ (writable st = true -> disk st2 = Regular (saved_text (books st))).
Proof.
  intros st i S st1 st2.
  destruct (issue_book_contract st i) as (A & B & _).
  apply A in S. destruct S as (pre & b & post & Hf & Hs).
  destruct (B pre b post Hf Hs) as (E1 & _ & _).
  fold st1 in E1.
  assert (Hf1 : first_with i (books st1) pre (with_status b (py "issued")) post).
  { destruct Hf as (_ & Hb & Hpre). repeat split; assumption. }
  destruct (return_book_contract st1 i) as (A1 & B1 & _).
  fold st2 in A1, B1.
  destruct (B1 pre _ post Hf1 eq_refl) as (E2 & D2 & _).
  assert (R : books st2 = books st).
  { rewrite E2. destruct Hf as (-> & _).
    rewrite <- Hs at 1. now rewrite with_status_twice. }
  split; [|split].
  - apply A1. exists pre, (with_status b (py "issued")), post. now split.
  - exact R.
  - intros W. rewrite D2, R.
    unfold st1. rewrite (proj2 (proj2 (issue_book_keeps_identities st i))), W.
    reflexivity.
Qed.

(** Dune issued and returned on a file that can be written. *)
Lemma issue_then_return_restores_witness :
  let st := mkState [dune] Absent Writable [] in
  existsb is_issued_line (said st (issue_book st (py "111"))) = true
  /\ books (return_book (issue_book st (py "111")) (py "111")) = [dune].
Proof.
  cbv zeta.
  assert (S : existsb is_issued_line
                (said (mkState [dune] Absent Writable [])
                   (issue_book (mkState [dune] Absent Writable []) (py "111")))
              = true) by reflexivity.
  split; [exact S|].
  exact (proj1 (proj2 (issue_then_return_restores _ _ S))).
Defined.

(** ** The first save after a failed load *)

(** X6.  When the load of a file fails, whatever the failure, the
    inventory starts empty, and on a file that can be written the first
    accepted [add_book] replaces the text of the file by the
    serialization of that one book: what the file held is gone. *)
Theorem first_save_replaces_a_broken_file :
  forall (text : str) (e : exn) (b : Book),
    read_books text = Raise e ->
    exists st,
      LibraryInventory (Regular text) Writable = Ok st
      /\ books st = []
      /\ disk st = Regular text
      /\ fst (add_book st (BookObject b)) = true
      /\ disk (snd (add_book st (BookObject b))) = Regular (saved_text [b]).
Proof.
  intros text e b R. rewrite LibraryInventory_eq, R.
  destruct e; eexists; (split; [reflexivity|]); repeat split.
Qed.

(** The file that holds an opening bracket, and then Dune. *)
Lemma first_save_replaces_a_broken_file_witness :
  read_books (py "[") = Raise JSONDecodeError
  /\ exists st,
       LibraryInventory (Regular (py "[")) Writable = Ok st
       /\ books st = []
       /\ disk st = Regular (py "[")
       /\ fst (add_book st (BookObject dune)) = true
       /\ disk (snd (add_book st (BookObject dune)))
          = Regular (saved_text [dune]).
Proof.
  assert (R : read_books (py "[") = Raise JSONDecodeError) by reflexivity.
  split; [exact R|].
  exact (first_save_replaces_a_broken_file (py "[") JSONDecodeError dune R).
Defined.
(** ** search_by_title at the edges *)

Lemma filter_all {A : Type} (f : A -> bool) (l : list A) :
  (forall x, In x l -> f x = true) -> filter f l = l.
Proof.
  induction l as [|x l IH]; intros H; simpl; [reflexivity|].
  rewrite (H x (or_introl eq_refl)). f_equal.
  apply IH. intros y Hy. apply H. now right.
Qed.

Lemma contains_empty (h : str) : contains [] h = true.
Proof. destruct h; reflexivity. Qed.

Lemma Forall2_same_letter_below_256 (a b : str) :
  below_256 a -> Forall2 same_letter a b -> below_256 b.
Proof.
  intros Ha F. induction F as [|c d a b L F IH]; [constructor|].
  inversion Ha; subst. constructor.
  - now apply (same_letter_below_256 c).
  - now apply IH.
Qed.

(** X7.  [search_by_title] with the empty query returns all the books;
    two queries below 256 that differ only in the case of their letters
    return the same books, whatever the titles are; every book returned
    is one of the inventory; and a book whose title is the query up to
    the case of its letters, both below 256, is among the books
    returned. *)
Theorem search_by_title_edges :
  forall (st : state) (q : str),
    fst (search_by_title st []) = books st
    /\ (forall q', below_256 q -> Forall2 same_letter q q' ->
          fst (search_by_title st q') = fst (search_by_title st q))
    /\ (forall b, In b (fst (search_by_title st q)) -> In b (books st))
    /\ (forall b, In b (books st) -> below_256 q ->
          Forall2 same_letter (title b) q ->
          In b (fst (search_by_title st q))).
Proof.
  intros st q.
  rewrite !(proj1 (search_by_title_eq st _)). split; [|split; [|split]].
  - apply filter_all. intros b _. apply contains_empty.
  - intros q' Hq F. rewrite (proj1 (search_by_title_eq st q')).
    pose proof (Forall2_same_letter_below_256 q q' Hq F) as Hq'.
    rewrite (lower_below_256 q Hq), (lower_below_256 q' Hq').
    now rewrite (proj2 (map_small_of_same q q' Hq Hq') F).
  - intros b H. apply filter_In in H. apply H.
  - intros b H Hq F. apply filter_In. split; [exact H|].
    assert (Ht : below_256 (title b)).
    { apply (Forall2_same_letter_below_256 q); [exact Hq|].
      clear - F. induction F as [|c d a b' L F IH]; constructor; [|exact IH].
      destruct L as [E | [E | E]]; [now left; symmetry | now right; right
                                   | now right; left]. }
    apply (contains_lower_below_256 q (title b) Hq Ht).
    exists [], (title b), []. rewrite app_nil_r. now split.
Qed.

(** ** The members of an entry, in any order *)

Lemma dict_get_in (k : str) (v : json) (members : list (str * json)) :
  NoDup (dict_keys members) ->
  (dict_get k members = Some v <-> In (k, v) members).
Proof.
  induction members as [|[k' v'] ms IH]; intros N; simpl.
  - split; [discriminate | intros []].
  - inversion N as [|? ? Hk Hms]; subst. specialize (IH Hms).
    destruct (dict_get k ms) as [x|] eqn:G.
    + split.
      * intros E. right. apply IH. exact E.
      * intros [E | Hin].
        -- injection E as -> ->. exfalso. apply Hk.
           apply dict_get_none in Hk. congruence.
        -- apply IH in Hin. exact Hin.
    + destruct (str_eqb_spec k k') as [->|Hkk'].
      * split.
        -- intros E. injection E as ->. now left.
        -- intros [E | Hin]; [now injection E as -> |].
           apply IH in Hin. discriminate.
      * split; [discriminate|].
        intros [E | Hin]; [injection E as -> ->; now elim Hkk' |].
        apply IH in Hin. discriminate.
Qed.

Lemma dict_get_permuted (k : str) (ms ms' : list (str * json)) :
  NoDup (dict_keys ms) -> Permutation ms ms' ->
  dict_get k ms = dict_get k ms'.
Proof.
  intros N P.
  assert (N' : NoDup (dict_keys ms')).
  { apply (Permutation_NoDup (l := dict_keys ms)); [|exact N].
    unfold dict_keys. now apply Permutation_map. }
  destruct (dict_get k ms) as [v|] eqn:G.
  - symmetry. apply (dict_get_in k v ms' N').
    apply (Permutation_in _ P). now apply (dict_get_in k v ms N).
  - symmetry. apply dict_get_none. apply dict_get_none in G.
    intros Hin. apply G. unfold dict_keys in *.
    apply (Permutation_in _ (Permutation_sym (Permutation_map fst P))).
    exact Hin.
Qed.

Lemma forallb_permuted {A : Type} (f : A -> bool) (l l' : list A) :
  Permutation l l' -> forallb f l = forallb f l'.
Proof.
  induction 1 as [|x l l' _ IH|x y l|l l' l'' _ IH1 _ IH2]; simpl.
  - reflexivity.
  - now rewrite IH.
  - now rewrite !andb_assoc, (andb_comm (f y)).
  - now rewrite IH1.
Qed.

(** X8.  [Book( **entry )] does not depend on the order in which the
    entry gives its members: two entries with the same members, each key
    once, give the same book or fail alike. *)
Theorem Book_kwargs_ignores_member_order :
  forall ms ms' : list (str * json),
    NoDup (dict_keys ms) -> Permutation ms ms' ->
    Book_kwargs (JObj ms) = Book_kwargs (JObj ms').
Proof.
  intros ms ms' N P. unfold Book_kwargs.
  rewrite (forallb_permuted known_key (dict_keys ms) (dict_keys ms'))
    by (unfold dict_keys; now apply Permutation_map).
  now rewrite !(dict_get_permuted _ ms ms' N P).
Qed.

(** An entry that gives its members in the reverse order. *)
Lemma Book_kwargs_ignores_member_order_witness :
  let ms := [(py "title", JStr (py "Dune")); (py "author", JStr (py "Frank Herbert"));
             (py "isbn", JStr (py "111")); (py "status", JStr (py "issued"))] in
  let ms' := [(py "status", JStr (py "issued")); (py "isbn", JStr (py "111"));
              (py "author", JStr (py "Frank Herbert")); (py "title", JStr (py "Dune"))] in
  Book_kwargs (JObj ms) = Book_kwargs (JObj ms')
  /\ Book_kwargs (JObj ms') = Ok (with_status dune (py "issued")).
Proof.
  cbv zeta. split; [|reflexivity].
  apply Book_kwargs_ignores_member_order.
  - simpl. repeat constructor; simpl; intuition discriminate.
  - apply (Permutation_rev
             [(py "title", JStr (py "Dune")); (py "author", JStr (py "Frank Herbert"));
              (py "isbn", JStr (py "111")); (py "status", JStr (py "issued"))]).
Defined.

(** ** The characters of the file *)

Lemma plain_text_app (a b : str) :
  plain_text (a ++ b) = plain_text a && plain_text b.
Proof.
  induction a as [|c a IH]; simpl; [reflexivity|].
  now rewrite IH, andb_assoc.
Qed.

Lemma hex_digit_plain (d : N) : (d < 16)%N -> plain_char (hex_digit d) = true.
Proof. exact (below_all 16 (fun d => plain_char (hex_digit d)) eq_refl d). Qed.

Lemma u_escape_plain (n : N) : plain_text (u_escape n) = true.
Proof.
  unfold u_escape, hex4. cbn [plain_text].
  rewrite !hex_digit_plain by (apply N.mod_lt; discriminate). reflexivity.
Qed.

Lemma escape_char_plain (c : char) : plain_text (escape_char c) = true.
Proof.
  destruct (escape_char_cases c)
    as [(x & -> & _ & Ux) | [(-> & _ & _ & L) | [(-> & _) | (_ & ->)]]].
  - revert Ux. unfold unescape.
    repeat match goal with
           | |- context [(?a =? ?b)%N] =>
               destruct (N.eqb_spec a b) as [->|_]; [reflexivity|]
           end.
    discriminate.
  - cbn [plain_text]. unfold plain_char.
    replace (32 <=? c)%N with true by (symmetry; apply N.leb_le; lia).
    replace (c <=? 126)%N with true by (symmetry; apply N.leb_le; lia).
    now rewrite orb_true_r.
  - apply u_escape_plain.
  - now rewrite plain_text_app, !u_escape_plain.
Qed.

Lemma quote_plain (s : str) : plain_text (quote s) = true.
Proof.
  unfold quote. cbn [plain_text]. rewrite plain_text_app.
  replace (plain_text (escape s)) with true; [reflexivity|].
  induction s as [|c s IH]; simpl; [reflexivity|].
  now rewrite plain_text_app, escape_char_plain, <- IH.
Qed.

Lemma book_text_plain (b : Book) : plain_text (encode 1 (to_dict b)) = true.
Proof.
  destruct b as [t a i s]. unfold to_dict.
  cbn [title author isbn status encode].
  repeat rewrite plain_text_app. rewrite !quote_plain. reflexivity.
Qed.

Lemma saved_text_plain (bs : list Book) : plain_text (saved_text bs) = true.
Proof.
  destruct bs as [|b bs]; [reflexivity|].
  rewrite saved_text_cons. cbn [plain_text].
  repeat rewrite plain_text_app. rewrite book_text_plain.
  replace (plain_text (rest_text bs)) with true; [reflexivity|].
  induction bs as [|b' bs IH]; [reflexivity|].
  cbn [rest_text]. repeat rewrite plain_text_app.
  now rewrite book_text_plain, <- IH.
Qed.

(** X9.  Whatever characters the titles, authors, ISBNs and statuses of
    the books contain, the text a successful [_save_books] leaves in the
    file is made of line feeds and printable ASCII characters only. *)
Theorem save_books_writes_plain_text :
  forall st : state,
    writable st = true ->
    exists text,
      disk (_save_books st) = Regular text /\ plain_text text = true.
Proof.
  intros st W. rewrite save_books_eq, W. cbn [disk].
  exists (saved_text (books st)). split; [reflexivity | apply saved_text_plain].
Qed.

(** A book whose title holds a quote, a tabulation, a character above
    127, one above U+FFFF and a surrogate. *)
Lemma save_books_writes_plain_text_witness :
  let odd := [34; 9; 233; 128512; 56832; 120]%N in
  let st := mkState [new_Book odd (py "a") (py "1")] Absent Writable [] in
  plain_text odd = false
  /\ exists text,
       disk (_save_books st) = Regular text /\ plain_text text = true.
Proof.
  cbv zeta. split; [reflexivity|].
  exact (save_books_writes_plain_text
           (mkState [new_Book [34; 9; 233; 128512; 56832; 120]%N
                       (py "a") (py "1")] Absent Writable []) eq_refl).
Defined.

(** ** str.strip and get_valid_input *)

Lemma lstrip_head (s : str) :
  lstrip s = []
  \/ exists c r, lstrip s = c :: r /\ is_space c = false.
Proof.
  induction s as [|c s IH]; simpl.
  - now left.
  - destruct (is_space c) eqn:E; [exact IH|].
    right. now exists c, s.
Qed.

Lemma rstrip_keeps_head (c : char) (r : str) :
  is_space c = false -> rstrip (c :: r) = c :: rstrip r.
Proof. intros E. simpl. rewrite E. now destruct (rstrip r). Qed.

Lemma rstrip_twice (s : str) : rstrip (rstrip s) = rstrip s.
Proof.
  induction s as [|c s IH]; [reflexivity|].
  simpl. destruct (rstrip s) as [|c' r'] eqn:R.
  - destruct (is_space c) eqn:E; [reflexivity|].
    simpl. now rewrite E.
  - change (rstrip (c :: c' :: r')) with
      (match rstrip (c' :: r') with
       | [] =>
           if is_space c then [] else [c]
       | c'' :: r'' => c :: c'' :: r''
       end).
    now rewrite IH.
Qed.

Lemma strip_twice (s : str) : strip (strip s) = strip s.
Proof.
  unfold strip. destruct (lstrip_head s) as [E | (c & r & E & Hc)].
  - rewrite E. reflexivity.
  - rewrite E, (rstrip_keeps_head c r Hc).
    replace (lstrip (c :: rstrip r)) with (c :: rstrip r)
      by (simpl; now rewrite Hc).
    now rewrite (rstrip_keeps_head c _ Hc), rstrip_twice.
Qed.

Lemma read_valid_spec (prompt : str) (validator : option (str -> bool))
  (error_message : str) (lines : list str) :
  forall shown : list io,
    exists rejected,
      Forall (fun l => exists valid,
                validator = Some valid /\ valid (strip l) = false) rejected
      /\ snd (read_valid prompt validator error_message lines shown)
         = (shown
            ++ flat_map
                 (fun l =>
                    [Prompt prompt; Say error_message;
                     Logged Warning
                       (py "Invalid input received for '" ++ strip prompt
                        ++ py "': '" ++ strip l ++ py "'")]) rejected
            ++ [Prompt prompt])
      /\ match fst (read_valid prompt validator error_message lines shown) with
         | (Some user_input, rest) =>
             exists l,
               lines = (rejected ++ l :: rest)
               /\ user_input = strip l
               /\ match validator with
                  | Some valid => valid user_input = true
                  | None => True
                  end
         | (None, rest) => rest = [] /\ lines = rejected
         end.
Proof.
  induction lines as [|l lines IH]; intros shown.
  - exists []. cbn. repeat split. constructor.
  - cbn [read_valid]. destruct validator as [valid|].
    + destruct (valid (strip l)) eqn:V.
      * exists []. cbn. repeat split; [constructor|].
        exists l. repeat split. exact V.
      * destruct (IH (shown ++ [Prompt prompt]
                      ++ [Say error_message;
                          Logged Warning
                            (py "Invalid input received for '" ++ strip prompt
                             ++ py "': '" ++ strip l ++ py "'")]))
          as (rejected & HF & Hs & Hr).
        rewrite <- app_assoc.
        exists (l :: rejected). split; [|split].
        -- constructor; [now exists valid | exact HF].
        -- rewrite Hs. cbn [flat_map app]. now rewrite <- !app_assoc.
        -- destruct (fst (read_valid prompt (Some valid) error_message lines _))
             as [[u|] rest].
           ++ destruct Hr as (l' & -> & Hu & Hv). exists l'. now repeat split.
           ++ destruct Hr as (-> & ->). now split.
    + exists []. cbn. repeat split; [constructor|].
      exists l. now repeat split.
Qed.

Lemma get_valid_input_reads :
  forall (prompt : str) (validator : option (str -> bool))
         (error_message : str) (s : session),
    let r := get_valid_input prompt validator error_message s in
    inv (snd r) = inv s
    /\ exists rejected,
         Forall (fun l => exists valid,
                   validator = Some valid /\ valid (strip l) = false) rejected
         /\ tty (snd r)
            = (tty s
               ++ flat_map
                    (fun l =>
                       [Prompt prompt; Say error_message;
                        Logged Warning
                          (py "Invalid input received for '" ++ strip prompt
                           ++ py "': '" ++ strip l ++ py "'")]) rejected
               ++ [Prompt prompt])
         /\ match fst r with
            | Some user_input =>
                exists l,
                  stdin s = (rejected ++ l :: stdin (snd r))
                  /\ user_input = strip l
                  /\ strip user_input = user_input
                  /\ match validator with
                     | Some valid => valid user_input = true
                     | None => True
                     end
            | None => stdin (snd r) = [] /\ stdin s = rejected
            end.
Proof.
  intros prompt validator error_message s r. subst r.
  unfold get_valid_input.
  destruct (read_valid_spec prompt validator error_message (stdin s) (tty s))
    as (rejected & HF & Hs & Hr).
  destruct (read_valid prompt validator error_message (stdin s) (tty s))
    as [[u rest] shown].
  cbn [fst snd inv tty stdin] in *. split; [reflexivity|].
  exists rejected. split; [exact HF|]. split; [exact Hs|].
  destruct u as [u|].
  - destruct Hr as (l & E & Hu & Hv). exists l.
    repeat split; try assumption. rewrite Hu. apply strip_twice.
  - exact Hr.
Qed.

(** X10.  [get_valid_input] returns the first line to come whose
    stripped form the validator accepts (the first line, without a
    validator), stripped, and leaves the lines after it; for each line
    before it, it prints the error message and logs a warning; it raises
    [EOFError], with no line left, exactly when no line to come is
    accepted.  The value returned is free of surrounding white space, and
    the inventory is not touched. *)
Theorem get_valid_input_contract :
  forall (prompt : str) (validator : option (str -> bool))
         (error_message : str) (s : session),
    let r := get_valid_input prompt validator error_message s in
    inv (snd r) = inv s
    /\ exists rejected,
         Forall (fun l => exists valid,
                   validator = Some valid /\ valid (strip l) = false) rejected
         /\ tty (snd r)
            = (tty s
               ++ flat_map
                    (fun l =>
                       [Prompt prompt; Say error_message;
                        Logged Warning
                          (py "Invalid input received for '" ++ strip prompt
                           ++ py "': '" ++ strip l ++ py "'")]) rejected
               ++ [Prompt prompt])
         /\ match fst r with
            | Some user_input =>
                exists l,
                  stdin s = (rejected ++ l :: stdin (snd r))
                  /\ user_input = strip l
                  /\ strip user_input = user_input
                  /\ match validator with
                     | Some valid => valid user_input = true
                     | None => True
                     end
            | None => stdin (snd r) = [] /\ stdin s = rejected
            end.
Proof. exact get_valid_input_reads. Qed.

(** ** What the handlers of main keep *)

Lemma same_store_refl (st : state) : same_store st st.
Proof. repeat split. Qed.

Lemma same_store_trans (a b c : state) :
  same_store a b -> same_store b c -> same_store a c.
Proof. unfold same_store. intros (? & ? & ?) (? & ? & ?). repeat split; congruence. Qed.

Lemma same_store_emit (e : event) (st : state) : same_store st (emit e st).
Proof. repeat split. Qed.

Lemma search_by_isbn_same_store (st : state) (i : str) :
  same_store st (snd (search_by_isbn st i)).
Proof.
  rewrite search_by_isbn_eq.
  destruct (find_isbn i (books st) 0); repeat split.
Qed.

Lemma search_by_title_same_store (st : state) (t : str) :
  same_store st (snd (search_by_title st t)).
Proof.
  unfold search_by_title. destruct (filter _ (books st)); repeat split.
Qed.

Lemma display_all_same_store (st : state) :
  same_store st (snd (display_all st)).
Proof.
  unfold display_all. destruct (books st) as [|b bs] eqn:E.
  - repeat split.
  - rewrite print_books. repeat split.
Qed.

Lemma print_books_same_store (bs : list Book) :
  forall s : session,
    same_store (inv s) (inv (fold_left (fun s b => print_book b s) bs s))
    /\ stdin (fold_left (fun s b => print_book b s) bs s) = stdin s.
Proof.
  induction bs as [|b bs IH]; intros s; cbn [fold_left].
  - split; [apply same_store_refl | reflexivity].
  - destruct (IH (print_book b s)) as (H1 & H2). split.
    + eapply same_store_trans; [|exact H1]. apply same_store_emit.
    + rewrite H2. reflexivity.
Qed.

Lemma used_lines_trans (a b c : list str) :
  (exists u, a = (u ++ b)) -> (exists u, b = (u ++ c)) ->
  exists u, a = (u ++ c).
Proof.
  intros (u & ->) (v & ->). exists (u ++ v). now rewrite app_assoc.
Qed.

Section SessionInvariant.

Variable P : state -> Prop.
Variable Q : str -> Prop.
Hypothesis Q_strip : forall l, Q l -> Q (strip l).
Hypothesis P_store : forall st st', same_store st st' -> P st -> P st'.
Hypothesis P_add :
  forall st t a i,
    i <> [] -> strip i = i -> Q t -> Q a -> Q i -> P st ->
    P (snd (add_book st (BookObject (new_Book t a i)))).
Hypothesis P_issue : forall st i, P st -> P (issue_book st i).
Hypothesis P_return : forall st i, P st -> P (return_book st i).

Lemma ask_keeps (prompt : str) (validator : option (str -> bool))
  (error_message : str) (s : session)
  (k : str -> session -> outcome) :
  P (inv s) -> Forall Q (stdin s) ->
  (forall u s',
     inv s' = inv s -> strip u = u -> Q u -> Forall Q (stdin s') ->
     (forall valid, validator = Some valid -> valid u = true) ->
     handler_keeps P s' (k u s')) ->
  handler_keeps P s (ask prompt validator error_message s k).
Proof.
  intros HP HQ Hk. unfold ask.
  destruct (get_valid_input_reads prompt validator error_message s)
    as (Hinv & rejected & _ & _ & Hr).
  destruct (get_valid_input prompt validator error_message s)
    as [[u|] s']; cbn [fst snd] in *.
  - destruct Hr as (l & Hin & Hl & Hu & Hv).
    rewrite Hin in HQ. apply Forall_app in HQ. destruct HQ as [_ HQ].
    apply Forall_cons_iff in HQ. destruct HQ as [Ql Qs].
    destruct (Hk u s' Hinv Hu) as (K1 & K2 & K3);
      [rewrite Hl; now apply Q_strip | exact Qs | |].
    { intros valid ->. exact Hv. }
    split; [exact K1|]. split; [|exact K3].
    apply (used_lines_trans _ (stdin s')); [|exact K2].
    exists (rejected ++ [l]). now rewrite <- app_assoc.
  - destruct Hr as (Hnil & Hall). unfold handler_keeps.
    cbn [session_of]. split; [|split].
    + now rewrite Hinv.
    + exists (stdin s). now rewrite Hnil, app_nil_r.
    + intros s0 E. now injection E as <-.
Qed.

Lemma returned_keeps (s s' : session) :
  P (inv s') -> stdin s' = stdin s -> handler_keeps P s (Returned s').
Proof.
  intros HP E. unfold handler_keeps. cbn [session_of].
  split; [exact HP|]. split.
  - exists []. now rewrite E.
  - discriminate.
Qed.

Lemma add_new_book_keeps (s : session) :
  P (inv s) -> Forall Q (stdin s) -> handler_keeps P s (add_new_book s).
Proof.
  intros HP HQ. unfold add_new_book.
  apply (ask_keeps _ _ _ (say _ s)); [exact HP | exact HQ |].
  intros t s1 E1 _ Qt HQ1 _.
  apply ask_keeps; [now rewrite E1 | exact HQ1 |]. intros a s2 E2 _ Qa HQ2 _.
  apply ask_keeps; [now rewrite E2, E1 | exact HQ2 |].
  intros i s3 E3 Hi Qi _ Hv.
  assert (HP3 : P (inv s3)) by now rewrite E3, E2, E1.
  assert (Hne : i <> []).
  { specialize (Hv _ eq_refl). unfold isbn_validator in Hv.
    apply negb_true_iff, str_eqb_neq in Hv. exact Hv. }
  unfold call. cbn [fst snd].
  pose proof (search_by_isbn_same_store (inv s3) i) as HS.
  destruct (fst (search_by_isbn (inv s3) i)).
  - apply returned_keeps; [|reflexivity].
    cbn [inv logged say]. now apply (P_store (inv s3)).
  - cbn [inv].
    pose proof (P_add _ t a i Hne Hi Qt Qa Qi (P_store _ _ HS HP3)) as HA.
    destruct (fst (add_book _ _));
      (apply returned_keeps; [exact HA | reflexivity]).
Qed.

Lemma issue_book_command_keeps (s : session) :
  P (inv s) -> Forall Q (stdin s) -> handler_keeps P s (issue_book_command s).
Proof.
  intros HP HQ. unfold issue_book_command.
  apply (ask_keeps _ _ _ (mkSession _ (stdin s) _)).
  - apply (P_store (inv s)); [apply same_store_emit | exact HP].
  - exact HQ.
  - intros i s1 _ _ _ _ _. apply returned_keeps; [|reflexivity].
    now apply P_issue.
Qed.

Lemma return_book_command_keeps (s : session) :
  P (inv s) -> Forall Q (stdin s) -> handler_keeps P s (return_book_command s).
Proof.
  intros HP HQ. unfold return_book_command.
  apply (ask_keeps _ _ _ (mkSession _ (stdin s) _)).
  - apply (P_store (inv s)); [apply same_store_emit | exact HP].
  - exact HQ.
  - intros i s1 _ _ _ _ _. apply returned_keeps; [|reflexivity].
    now apply P_return.
Qed.

Lemma search_books_keeps (s : session) :
  P (inv s) -> Forall Q (stdin s) -> handler_keeps P s (search_books s).
Proof.
  intros HP HQ. unfold search_books.
  apply (ask_keeps _ _ _ (say _ (say _ (say _ s)))); [exact HP | exact HQ |].
  intros c s1 E1 _ _ HQ1 _.
  assert (HP1 : P (inv s1)) by now rewrite E1.
  destruct (str_eqb c (py "1")).
  - apply ask_keeps; [exact HP1 | exact HQ1 |]. intros t s2 E2 _ _ _ _.
    unfold call. cbn [fst snd].
    pose proof (search_by_title_same_store (inv s2) t) as HS.
    assert (HP2 : P (snd (search_by_title (inv s2) t))).
    { apply (P_store (inv s2)); [exact HS | now rewrite E2]. }
    destruct (fst (search_by_title (inv s2) t)) as [|b bs].
    + apply returned_keeps; [exact HP2 | reflexivity].
    + match goal with
      | |- handler_keeps _ _ (Returned (say _ (fold_left _ ?l ?s0))) =>
          destruct (print_books_same_store l s0) as (F1 & F2)
      end.
      apply returned_keeps.
      * cbn [inv say]. eapply P_store; [exact F1 | exact HP2].
      * cbn [stdin say]. rewrite F2. reflexivity.
  - destruct (str_eqb c (py "2")).
    + apply ask_keeps; [exact HP1 | exact HQ1 |]. intros i s2 E2 _ _ _ _.
      unfold call. cbn [fst snd].
      pose proof (search_by_isbn_same_store (inv s2) i) as HS.
      assert (HP2 : P (snd (search_by_isbn (inv s2) i))).
      { apply (P_store (inv s2)); [exact HS | now rewrite E2]. }
      destruct (fst (search_by_isbn (inv s2) i)) as [[pos b]|].
      * apply returned_keeps; [|reflexivity].
        cbn [inv say print_book call snd].
        eapply P_store; [apply same_store_emit | exact HP2].
      * apply returned_keeps; [exact HP2 | reflexivity].
    + apply returned_keeps; [exact HP1 | reflexivity].
Qed.

Lemma dispatch_keeps (choice : str) (s : session) :
  P (inv s) -> Forall Q (stdin s) -> handler_keeps P s (dispatch choice s).
Proof.
  intros HP HQ. unfold dispatch.
  destruct (str_eqb choice (py "1")); [now apply add_new_book_keeps|].
  destruct (str_eqb choice (py "2")); [now apply issue_book_command_keeps|].
  destruct (str_eqb choice (py "3")); [now apply return_book_command_keeps|].
  destruct (str_eqb choice (py "4")).
  { apply returned_keeps; [|reflexivity]. cbn [call snd inv].
    eapply P_store; [apply display_all_same_store | exact HP]. }
  destruct (str_eqb choice (py "5")); [now apply search_books_keeps|].
  apply returned_keeps; [exact HP | reflexivity].
Qed.

End SessionInvariant.

(** ** The loop of main *)

Section SessionOfMain.

Variable P : state -> Prop.
Variable Q : str -> Prop.
Hypothesis Q_strip : forall l, Q l -> Q (strip l).
Hypothesis P_store : forall st st', same_store st st' -> P st -> P st'.
Hypothesis P_add :
  forall st t a i,
    i <> [] -> strip i = i -> Q t -> Q a -> Q i -> P st ->
    P (snd (add_book st (BookObject (new_Book t a i)))).
Hypothesis P_issue : forall st i, P st -> P (issue_book st i).
Hypothesis P_return : forall st i, P st -> P (return_book st i).

Lemma main_loop_result (f : nat) :
  forall (s : session) (o : outcome),
    P (inv s) -> Forall Q (stdin s) -> main_loop f s = Some o ->
    P (inv (session_of o))
    /\ match o with
       | Returned s' =>
           (exists pre,
              tty s'
              = (pre ++ [Say (py "Exiting Library Inventory Manager. Goodbye!");
                         Logged Info (py "Application exited.")]))
           /\ exists l, In l (stdin s) /\ strip l = (py "6")
       | EOFError s' => stdin s' = []
       end.
Proof.
  induction f as [|f IH]; intros s o HP HQ E; [discriminate|].
  cbn [main_loop] in E.
  destruct (get_valid_input_reads (py "Enter your choice (1-6): ")
              (Some choice_1_6)
              (py "Invalid choice. Please enter a number between 1 and 6.")
              (display_menu s))
    as (Hinv & rejected & _ & _ & Hr).
  destruct (get_valid_input _ _ _ (display_menu s)) as [[c|] s1];
    cbn [fst snd] in *.
  - destruct Hr as (l & Hin & Hc & _ & _).
    change (stdin (display_menu s)) with (stdin s) in Hin.
    change (inv (display_menu s)) with (inv s) in Hinv.
    assert (Hl : In l (stdin s)).
    { rewrite Hin. apply in_elt. }
    destruct (str_eqb_spec c (py "6")) as [C6|C6].
    + injection E as <-. cbn [session_of inv logged say tty].
      split; [now rewrite Hinv|]. split.
      * exists (tty s1). now rewrite <- app_assoc.
      * exists l. split; [exact Hl | congruence].
    + assert (HP1 : P (inv s1)) by now rewrite Hinv.
      assert (HQ1 : Forall Q (stdin s1)).
      { rewrite Hin in HQ. apply Forall_app in HQ. destruct HQ as [_ HQ].
        now apply Forall_cons_iff in HQ. }
      destruct (dispatch_keeps P Q Q_strip P_store P_add P_issue P_return
                  c s1 HP1 HQ1)
        as (K1 & (used & K2) & K3).
      assert (HQ2 : Forall Q (stdin (session_of (dispatch c s1)))).
      { rewrite K2 in HQ1. apply Forall_app in HQ1. apply HQ1. }
      assert (Hsub : forall x, In x (stdin (session_of (dispatch c s1))) ->
                               In x (stdin s)).
      { intros x Hx. rewrite Hin, K2. apply in_or_app. right. right.
        apply in_or_app. now right. }
      destruct (dispatch c s1) as [s2|s2]; cbn [session_of] in *.
      * destruct (IH s2 o K1 HQ2 E) as (R1 & R2). split; [exact R1|].
        destruct o as [s'|s']; [|exact R2].
        destruct R2 as (R2 & l' & Hl' & Hs'). split; [exact R2|].
        exists l'. split; [now apply Hsub | exact Hs'].
      * specialize (K3 _ eq_refl).
        pose proof (fun H H' => IH _ _ H H' E) as R.
        specialize (R K1 HQ2).
        destruct R as (R1 & R2). split; [exact R1|].
        destruct o as [s'|s']; [|exact R2].
        destruct R2 as (_ & l' & Hl' & _).
        cbn [stdin say logged] in Hl'. rewrite K3 in Hl'. destruct Hl'.
  - injection E as <-. cbn [session_of]. split; [now rewrite Hinv|].
    apply Hr.
Qed.

Lemma main_loop_ends (f : nat) :
  forall s : session,
    P (inv s) -> Forall Q (stdin s) -> length (stdin s) < f ->
    exists o, main_loop f s = Some o.
Proof.
  induction f as [|f IH]; intros s HP HQ L; [lia|].
  cbn [main_loop].
  destruct (get_valid_input_reads (py "Enter your choice (1-6): ")
              (Some choice_1_6)
              (py "Invalid choice. Please enter a number between 1 and 6.")
              (display_menu s))
    as (Hinv & rejected & _ & _ & Hr).
  destruct (get_valid_input _ _ _ (display_menu s)) as [[c|] s1];
    cbn [fst snd] in *; [|eexists; reflexivity].
  destruct Hr as (l & Hin & _).
  change (stdin (display_menu s)) with (stdin s) in Hin.
  change (inv (display_menu s)) with (inv s) in Hinv.
  assert (L1 : length (stdin s1) < f).
  { rewrite Hin, length_app in L. cbn [length] in L. lia. }
  destruct (str_eqb c (py "6")); [eexists; reflexivity|].
  assert (HP1 : P (inv s1)) by now rewrite Hinv.
  assert (HQ1 : Forall Q (stdin s1)).
  { rewrite Hin in HQ. apply Forall_app in HQ. destruct HQ as [_ HQ].
    now apply Forall_cons_iff in HQ. }
  destruct (dispatch_keeps P Q Q_strip P_store P_add P_issue P_return
              c s1 HP1 HQ1)
    as (K1 & (used & K2) & K3).
  assert (HQ2 : Forall Q (stdin (session_of (dispatch c s1)))).
  { rewrite K2 in HQ1. apply Forall_app in HQ1. apply HQ1. }
  assert (L2 : length (stdin (session_of (dispatch c s1))) < f).
  { rewrite K2, length_app in L1. lia. }
  destruct (dispatch c s1) as [s2|s2]; cbn [session_of] in *.
  - now apply IH.
  - apply IH; [exact K1 | exact HQ2 | exact L2].
Qed.

Lemma main_result (d : node) (w : writing) (lines : list str)
  (st0 : state) :
  LibraryInventory d w = Ok st0 -> P st0 -> Forall Q lines ->
  exists o,
    main d w lines = Ok o
    /\ P (inv (session_of o))
    /\ match o with
       | Returned s' =>
           (exists pre,
              tty s'
              = (pre ++ [Say (py "Exiting Library Inventory Manager. Goodbye!");
                         Logged Info (py "Application exited.")]))
           /\ exists l, In l lines /\ strip l = (py "6")
       | EOFError s' => stdin s' = []
       end.
Proof.
  intros L HP HQ. unfold main. rewrite L. cbn [bind].
  destruct (main_loop_ends (S (length lines))
              (mkSession st0 lines (map Core (out st0))) HP HQ)
    as (o & E); [cbn [stdin]; lia|].
  rewrite E. exists o. split; [reflexivity|].
  exact (main_loop_result _ (mkSession st0 lines (map Core (out st0)))
           o HP HQ E).
Qed.

End SessionOfMain.

(** ** add_new_book and search_books *)

Lemma find_isbn_found_in (i : str) (bs : list Book) (pos q : nat)
  (b : Book) :
  find_isbn i bs pos = Some (q, b) -> In i (map isbn bs).
Proof.
  revert pos. induction bs as [|x bs IH]; intros pos; simpl; [discriminate|].
  destruct (str_eqb_spec (isbn x) i) as [E|N].
  - intros _. now left.
  - intros F. right. exact (IH _ F).
Qed.

Lemma find_isbn_none_out (i : str) (bs : list Book) (pos : nat) :
  find_isbn i bs pos = None -> ~ In i (map isbn bs).
Proof.
  revert pos. induction bs as [|x bs IH]; intros pos; simpl.
  - intros _ [].
  - destruct (str_eqb_spec (isbn x) i) as [E|N]; [discriminate|].
    intros F [E | Hin]; [contradiction | exact (IH _ F Hin)].
Qed.

(** X11.  [add_new_book] reads a title, an author and an ISBN, asking
    for the ISBN again until it is not empty.  When an [input] raises
    [EOFError], nothing has changed.  Otherwise the ISBN is not empty and
    free of surrounding white space, and either it occurs already, and
    the books and the file stay as they are and the attempt is logged as
    an error, or the book with that title, author and ISBN and the status
    available is appended and saved and the success line is printed.  The
    line that the book could not be added is never printed. *)
Theorem add_new_book_contract :
  forall s : session,
    match add_new_book s with
    | EOFError s' => stdin s' = [] /\ same_store (inv s) (inv s')
    | Returned s' =>
        exists t a i,
          i <> [] /\ strip i = i /\ strip t = t /\ strip a = a
          /\ ((In i (map isbn (books (inv s)))
               /\ same_store (inv s) (inv s')
               /\ last (tty s') (Say [])
                  = Logged Error (py "Attempted to add duplicate ISBN: " ++ i))
              \/ (~ In i (map isbn (books (inv s)))
                  /\ books (inv s') = (books (inv s) ++ [new_Book t a i])
                  /\ disk (inv s')
                     = (if writable (inv s)
                        then Regular (saved_text (books (inv s')))
                        else failed_write (inv s)
                               (saved_text (books (inv s'))))
                  /\ last (tty s') (Say [])
                     = Say (py "'" ++ t ++ py "' by " ++ a ++ py " (ISBN: " ++ i
                            ++ py ") added successfully.")))
    end.
Proof.
  intros s. unfold add_new_book, ask.
  set (s0 := say _ s).
  destruct (get_valid_input_reads (py "Enter title: ") None
              default_error_message s0) as (I1 & r1 & _ & _ & R1).
  destruct (get_valid_input (py "Enter title: ") None default_error_message s0)
    as [[t|] s1]; cbn [fst snd] in *.
  2: { split; [apply R1|]. rewrite I1. apply same_store_refl. }
  destruct R1 as (l1 & _ & _ & Ht & _).
  destruct (get_valid_input_reads (py "Enter author: ") None
              default_error_message s1) as (I2 & r2 & _ & _ & R2).
  destruct (get_valid_input (py "Enter author: ") None default_error_message s1)
    as [[a|] s2]; cbn [fst snd] in *.
  2: { split; [apply R2|]. rewrite I2, I1. apply same_store_refl. }
  destruct R2 as (l2 & _ & _ & Ha & _).
  destruct (get_valid_input_reads (py "Enter ISBN: ") (Some isbn_validator)
              (py "ISBN cannot be empty.") s2) as (I3 & r3 & _ & _ & R3).
  destruct (get_valid_input (py "Enter ISBN: ") (Some isbn_validator)
              (py "ISBN cannot be empty.") s2)
    as [[i|] s3]; cbn [fst snd] in *.
  2: { split; [apply R3|]. rewrite I3, I2, I1. apply same_store_refl. }
  destruct R3 as (l3 & _ & _ & Hi & Hv).
  assert (Hne : i <> []).
  { unfold isbn_validator in Hv.
    apply negb_true_iff, str_eqb_neq in Hv. exact Hv. }
  assert (I : inv s3 = inv s) by (rewrite I3, I2, I1; reflexivity).
  unfold call. cbn [fst snd]. rewrite search_by_isbn_eq, I.
  destruct (find_isbn i (books (inv s)) 0) as [[pos b]|] eqn:F;
    cbn [fst snd].
  - exists t, a, i. do 4 (split; [assumption|]).
    left. split; [exact (find_isbn_found_in _ _ _ _ _ F)|].
    split; [apply same_store_refl|].
    cbn [tty logged say]. apply last_last.
  - rewrite add_book_eq.
    cbn [inv stdin books disk medium out isbn title new_Book].
    assert (X : existsb (fun x => str_eqb (isbn x) i) (books (inv s))
                = false).
    { apply (find_isbn_known (new_Book t a i) (books (inv s)) 0). exact F. }
    rewrite X. cbn [fst snd].
    exists t, a, i. do 4 (split; [assumption|]).
    right. split; [exact (find_isbn_none_out _ _ _ F)|].
    cbn [inv say tty books disk medium].
    split; [reflexivity|]. split; [reflexivity|]. apply last_last.
Qed.

(** X12.  [search_books] never changes the books or the file, whatever
    is typed, and it reads its lines from the front of those to come; when
    an [input] raises [EOFError] no line is left. *)
Theorem search_books_reads_only :
  forall s : session,
    same_store (inv s) (inv (session_of (search_books s)))
    /\ (exists used, stdin s = (used ++ stdin (session_of (search_books s))))
    /\ (forall s', search_books s = EOFError s' -> stdin s' = []).
Proof.
  intros s.
  apply (search_books_keeps (same_store (inv s)) (fun _ => True)).
  - intros l _. exact I.
  - intros st st' H1 H2. exact (same_store_trans _ _ _ H2 H1).
  - apply same_store_refl.
  - apply Forall_forall. intros l _. exact I.
Qed.

(** ** Sessions of main *)

Lemma isbns_of_identities (bs : list Book) :
  map isbn bs = map (fun x => snd x) (map identity bs).
Proof. rewrite map_map. reflexivity. Qed.

Lemma issue_book_keeps_well_formed (st : state) (i : str) :
  Forall well_formed (books st) ->
  Forall well_formed (books (issue_book st i)).
Proof.
  intros W. destruct (issue_book_contract st i) as (A & B & C).
  destruct (existsb is_issued_line (said st (issue_book st i))) eqn:S.
  - destruct (proj1 A eq_refl) as (pre & b & post & Hf & Hs).
    destruct (B pre b post Hf Hs) as (-> & _).
    destruct Hf as (E & _). rewrite E in W.
    apply Forall_app in W. destruct W as (W1 & W2).
    inversion W2 as [|? ? (Wb1 & Wb2 & _) W3]; subst.
    apply Forall_app. split; [exact W1|]. constructor; [|exact W3].
    repeat split; [exact Wb1 | exact Wb2 | now right].
  - destruct (C eq_refl) as (-> & _). exact W.
Qed.

Lemma return_book_keeps_well_formed (st : state) (i : str) :
  Forall well_formed (books st) ->
  Forall well_formed (books (return_book st i)).
Proof.
  intros W. destruct (return_book_contract st i) as (A & B & C).
  destruct (existsb is_returned_line (said st (return_book st i))) eqn:S.
  - destruct (proj1 A eq_refl) as (pre & b & post & Hf & Hs).
    destruct (B pre b post Hf Hs) as (-> & _).
    destruct Hf as (E & _). rewrite E in W.
    apply Forall_app in W. destruct W as (W1 & W2).
    inversion W2 as [|? ? (Wb1 & Wb2 & _) W3]; subst.
    apply Forall_app. split; [exact W1|]. constructor; [|exact W3].
    repeat split; [exact Wb1 | exact Wb2 | now left].
  - destruct (C eq_refl) as (-> & _). exact W.
Qed.

Lemma durable_of_saved (bs : list Book) (l : list event) :
  forallb storable_book bs = true ->
  durable (mkState bs (Regular (saved_text bs)) Writable l).
Proof.
  intros Hs. unfold durable. cbn [disk medium books].
  rewrite LibraryInventory_eq, read_books_saved_text by exact Hs.
  eexists. reflexivity.
Qed.

Lemma durable_same_store (st st' : state) :
  same_store st st' ->
  writable st = true /\ durable st -> writable st' = true /\ durable st'.
Proof.
  intros (Eb & Ed & Ew) (W & (l & D)). split.
  - unfold writable in *. now rewrite Ed, Ew.
  - exists l. now rewrite Eb, Ed, Ew.
Qed.

Lemma everything (lines : list str) : Forall (fun _ : str => True) lines.
Proof. apply Forall_forall. intros l _. exact I. Qed.

(** X13.  [main] ends on every finite input: by the choice 6 at the
    menu, after which the exit is announced and logged, or by the
    [EOFError] of the menu when the lines run out.  It ends by the choice
    6 only if some line of the input reads 6 once stripped. *)
Theorem main_ends :
  forall (d : node) (w : writing) (lines : list str) (st0 : state),
    LibraryInventory d w = Ok st0 ->
    exists o, main d w lines = Ok o /\ ended lines o.
Proof.
  intros d w lines st0 L.
  destruct (main_result (fun _ => True) (fun _ => True))
    with (d := d) (w := w) (lines := lines) (st0 := st0)
    as (o & E & _ & H);
    try (intros; exact I); [exact L | apply everything |].
  now exists o.
Qed.

(** [main] on no file and the one line 6. *)
Lemma main_ends_witness :
  LibraryInventory Absent Writable
  = Ok (mkState [] Absent Writable [Log INFO DataFileNotFound])
  /\ exists o, main Absent Writable [py "6"] = Ok o /\ ended [py "6"] o.
Proof.
  split; [reflexivity|].
  exact (main_ends Absent Writable [py "6"] _ eq_refl).
Defined.

(** X14.  When the books loaded at the start have pairwise different
    ISBNs, so have the books at the end of [main], whatever is typed. *)
Theorem main_keeps_isbns_unique :
  forall (d : node) (w : writing) (lines : list str) (st0 : state),
    LibraryInventory d w = Ok st0 ->
    NoDup (map isbn (books st0)) ->
    exists o,
      main d w lines = Ok o
      /\ NoDup (map isbn (books (inv (session_of o)))).
Proof.
  intros d w lines st0 L U.
  destruct (main_result (fun st => NoDup (map isbn (books st)))
              (fun _ => True))
    with (d := d) (w := w) (lines := lines) (st0 := st0)
    as (o & E & H & _).
  - intros l _. exact I.
  - intros st st' (Eb & _) H. now rewrite Eb.
  - intros st t a i _ _ _ _ _ H. now apply add_book_keeps_isbns_unique.
  - intros st i H. rewrite isbns_of_identities.
    rewrite (proj1 (issue_book_keeps_identities st i)).
    now rewrite <- isbns_of_identities.
  - intros st i H. rewrite isbns_of_identities.
    rewrite (proj1 (return_book_keeps_identities st i)).
    now rewrite <- isbns_of_identities.
  - exact L.
  - exact U.
  - apply everything.
  - now exists o.
Qed.

(** [main] on no file, with Dune added twice. *)
Lemma main_keeps_isbns_unique_witness :
  let lines := [py "1"; py "Dune"; py "Frank Herbert"; py "111";
                py "1"; py "Dune"; py "Frank Herbert"; py "111"; py "6"] in
  exists o,
    main Absent Writable lines = Ok o
    /\ NoDup (map isbn (books (inv (session_of o)))).
Proof.
  cbv zeta.
  apply (main_keeps_isbns_unique Absent Writable _
           (mkState [] Absent Writable [Log INFO DataFileNotFound]) eq_refl).
  constructor.
Defined.

(** X15.  [main] never removes, moves or renames a book: the books
    loaded at the start stand at the end in the same places, with the
    same titles, authors and ISBNs, followed by the books added since. *)
Theorem main_never_drops_a_book :
  forall (d : node) (w : writing) (lines : list str) (st0 : state),
    LibraryInventory d w = Ok st0 ->
    exists o added,
      main d w lines = Ok o
      /\ map identity (books (inv (session_of o)))
         = (map identity (books st0) ++ added).
Proof.
  intros d w lines st0 L.
  destruct (main_result
              (fun st => exists added,
                   map identity (books st)
                   = (map identity (books st0) ++ added))
              (fun _ => True))
    with (d := d) (w := w) (lines := lines) (st0 := st0)
    as (o & E & (added & H) & _).
  - intros l _. exact I.
  - intros st st' (Eb & _) H. now rewrite Eb.
  - intros st t a i _ _ _ _ _ (added & H). rewrite add_book_eq.
    destruct (existsb _ (books st)); cbn [snd books].
    + now exists added.
    + exists (added ++ [identity (new_Book t a i)]).
      now rewrite map_app, H, <- app_assoc.
  - intros st i H.
    now rewrite (proj1 (issue_book_keeps_identities st i)).
  - intros st i H.
    now rewrite (proj1 (return_book_keeps_identities st i)).
  - exact L.
  - exists []. now rewrite app_nil_r.
  - apply everything.
  - now exists o, added.
Qed.

(** [main] on the file that holds Dune, with Emma added and Dune
    issued. *)
Lemma main_never_drops_a_book_witness :
  let d := Regular (saved_text [dune]) in
  let lines := [py "1"; py "Emma"; py "Jane Austen"; py "222"; py "2"; py "111"; py "6"] in
  LibraryInventory d Writable = Ok (mkState [dune] d Writable [Log INFO (LoadedBooks 1)])
  /\ exists o added,
       main d Writable lines = Ok o
       /\ map identity (books (inv (session_of o)))
          = (map identity [dune] ++ added).
Proof.
  cbv zeta.
  assert (L : LibraryInventory (Regular (saved_text [dune])) Writable
              = Ok (mkState [dune] (Regular (saved_text [dune])) Writable
                      [Log INFO (LoadedBooks 1)])).
  { vm_compute. reflexivity. }
  split; [exact L|].
  exact (main_never_drops_a_book _ Writable
           [py "1"; py "Emma"; py "Jane Austen"; py "222"; py "2"; py "111"; py "6"] _ L).
Defined.

(** X17.  When every book loaded at the start has an ISBN that is not
    empty and has no surrounding white space, and a status that is
    available or issued, so has every book at the end of [main]: the
    console never stores an empty or padded ISBN, nor another status.
    This holds in particular when [main] starts on no file. *)
Theorem main_keeps_books_well_formed :
  forall (d : node) (w : writing) (lines : list str) (st0 : state),
    LibraryInventory d w = Ok st0 ->
    Forall well_formed (books st0) ->
    exists o,
      main d w lines = Ok o
      /\ Forall well_formed (books (inv (session_of o))).
Proof.
  intros d w lines st0 L W0.
  destruct (main_result (fun st => Forall well_formed (books st))
              (fun _ => True))
    with (d := d) (w := w) (lines := lines) (st0 := st0)
    as (o & E & H & _).
  - intros l _. exact I.
  - intros st st' (Eb & _) H. now rewrite Eb.
  - intros st t a i Hne Hs _ _ _ H. rewrite add_book_eq.
    destruct (existsb _ (books st)); cbn [snd books]; [exact H|].
    apply Forall_app. split; [exact H|]. constructor; [|constructor].
    repeat split; [exact Hne | exact Hs | now left].
  - intros st i. apply issue_book_keeps_well_formed.
  - intros st i. apply return_book_keeps_well_formed.
  - exact L.
  - exact W0.
  - apply everything.
  - now exists o.
Qed.

(** [main] on no file, with an empty and a padded ISBN typed. *)
Lemma main_keeps_books_well_formed_witness :
  let lines := [py "1"; py "Dune"; py "Frank Herbert"; py ""; py "  111 "; py "2"; py "111"; py "6"] in
  exists o,
    main Absent Refused lines = Ok o
    /\ Forall well_formed (books (inv (session_of o))).
Proof.
  cbv zeta.
  apply (main_keeps_books_well_formed Absent Refused _
           (mkState [] Absent Refused [Log INFO DataFileNotFound]) eq_refl).
  constructor.
Defined.

(** ** What the decoder makes of a decoded text *)

Lemma clean_cons (c : char) (s : str) :
  clean (c :: s) = true ->
  (c < 55296 \/ 57343 < c)%N /\ (c < 1114112)%N /\ clean s = true.
Proof.
  unfold clean. cbn [forallb]. unfold clean_char, code_point.
  rewrite !andb_true_iff, !negb_true_iff, N.ltb_lt.
  intros (((V & H) & L) & S). split; [|split; assumption].
  unfold is_high, is_low in *.
  rewrite andb_false_iff in H, L. rewrite !N.leb_gt in H, L. lia.
Qed.

Lemma clean_tail (n : nat) (s : str) :
  clean s = true -> clean (skipn n s) = true.
Proof.
  revert s. induction n as [|n IH]; intros s Hs; [exact Hs|].
  destruct s as [|c s]; [exact Hs|]. cbn [skipn].
  apply IH. now apply clean_cons in Hs.
Qed.

Lemma hex_value_below (c : char) (x : N) :
  hex_value c = Some x -> (x < 16)%N.
Proof.
  unfold hex_value.
  destruct ((48 <=? c) && (c <=? 57))%N eqn:A.
  { intros E. injection E as <-. apply andb_true_iff in A.
    rewrite !N.leb_le in A. lia. }
  destruct ((97 <=? c) && (c <=? 102))%N eqn:B.
  { intros E. injection E as <-. apply andb_true_iff in B.
    rewrite !N.leb_le in B. lia. }
  destruct ((65 <=? c) && (c <=? 70))%N eqn:C; [|discriminate].
  intros E. injection E as <-. apply andb_true_iff in C.
  rewrite !N.leb_le in C. lia.
Qed.

Lemma hex4_value_below (a b c d : char) (n : N) :
  hex4_value a b c d = Some n -> (n < 65536)%N.
Proof.
  unfold hex4_value.
  destruct (hex_value a) as [x|] eqn:A; [|discriminate].
  destruct (hex_value b) as [y|] eqn:B; [|discriminate].
  destruct (hex_value c) as [z|] eqn:C; [|discriminate].
  destruct (hex_value d) as [w|] eqn:D; [|discriminate].
  apply hex_value_below in A, B, C, D.
  intros E. injection E as <-. lia.
Qed.

Lemma unescape_below (e x : char) : unescape e = Some x -> (x < 128)%N.
Proof.
  unfold unescape.
  repeat match goal with
         | |- context [(?a =? ?b)%N] => destruct (a =? b)%N
         end;
    intros E; first [discriminate | injection E as <-; reflexivity].
Qed.

Lemma cons_char_ok (c : char) (r : result (str * str)) (v rest : str) :
  cons_char c r = Ok (v, rest) ->
  exists v', v = c :: v' /\ r = Ok (v', rest).
Proof.
  destruct r as [[v' rest']| |]; simpl; try discriminate.
  intros E. injection E as <- <-. now exists v'.
Qed.

(** The first character that the decoder reads is a low surrogate only
    where the text starts with the escape of one. *)
Lemma scanstring_low_first (s : str) (x : char) (v rest : str) :
  clean s = true -> scanstring s = Ok (x :: v, rest) -> is_low x = true ->
  low_escape_ahead s = true.
Proof.
  intros Hs E L. apply is_low_bounds in L.
  destruct s as [|c r]; [discriminate|].
  destruct (clean_cons c r Hs) as (Hc & _ & Hr).
  cbn [scanstring] in E.
  destruct (c =? DQ)%N; [discriminate|].
  destruct (N.eqb_spec c BSL) as [->|B].
  - destruct r as [|e r1]; [discriminate|].
    destruct (N.eqb_spec e (ch "u")) as [->|U].
    + destruct r1 as [|h1 [|h2 [|h3 [|h4 r2]]]]; try discriminate.
      cbn [low_escape_ahead]. change (BSL =? BSL)%N with true.
      change (ch "u" =? ch "u")%N with true. cbn [andb].
      destruct (hex4_value h1 h2 h3 h4) as [n|] eqn:Hn; [|reflexivity].
      destruct (is_high n) eqn:Hh.
      * apply is_high_bounds in Hh.
        assert (X : forall r', cons_char n r' = Ok (x :: v, rest) -> False).
        { intros r' E'. apply cons_char_ok in E'.
          destruct E' as (v' & E' & _). injection E' as -> _. lia. }
        destruct r2 as [|b [|u [|k1 [|k2 [|k3 [|k4 r3]]]]]];
          try (exfalso; exact (X _ E)).
        destruct ((b =? BSL) && (u =? ch "u"))%N;
          [|exfalso; exact (X _ E)].
        destruct (hex4_value k1 k2 k3 k4) as [m|]; [|discriminate].
        destruct (is_low m) eqn:Hl; [|exfalso; exact (X _ E)].
        apply cons_char_ok in E. destruct E as (v' & E & _).
        injection E as -> _. unfold join_surrogates in L. lia.
      * apply cons_char_ok in E. destruct E as (v' & E & _).
        injection E as -> _. now apply is_low_bounds.
    + destruct (unescape e) as [y|] eqn:Y; [|discriminate].
      apply cons_char_ok in E. destruct E as (v' & E & _).
      injection E as -> _. apply unescape_below in Y. lia.
  - destruct (c <? 32)%N; [discriminate|].
    apply cons_char_ok in E. destruct E as (v' & E & _).
    injection E as -> _. lia.
Qed.

Lemma storable_add (c : char) (v : str) :
  (c < 1114112)%N -> storable v = true ->
  (is_high c = true -> match v with d :: _ => is_low d = false | [] => True end) ->
  storable (c :: v) = true.
Proof.
  unfold storable. cbn [forallb pair_free]. unfold code_point at 1.
  rewrite !andb_true_iff. intros V (Vs & Ps) P.
  apply N.ltb_lt in V. repeat split; try assumption.
  apply negb_true_iff. destruct (is_high c); [|reflexivity].
  destruct v; [reflexivity | now apply P].
Qed.

Lemma not_low_first (s : str) (v rest : str) :
  clean s = true -> scanstring s = Ok (v, rest) ->
  low_escape_ahead s = false ->
  match v with d :: _ => is_low d = false | [] => True end.
Proof.
  intros Hs E A. destruct v as [|d v]; [exact I|].
  destruct (is_low d) eqn:L; [|reflexivity].
  rewrite (scanstring_low_first s d v rest Hs E L) in A. discriminate.
Qed.

(** What the decoder reads from a decoded text is storable, and what it
    leaves is decoded text. *)
Lemma scanstring_storable (n : nat) :
  forall s v rest : str,
    length s <= n -> clean s = true -> scanstring s = Ok (v, rest) ->
    storable v = true /\ clean rest = true.
Proof.
  induction n as [|n IH]; intros s v rest Ln Hs E.
  { destruct s; [discriminate | cbn [length] in Ln; lia]. }
  destruct s as [|c r]; [discriminate|].
  destruct (clean_cons c r Hs) as (Hc & Vc & Hr).
  cbn [length] in Ln. cbn [scanstring] in E.
  destruct (c =? DQ)%N.
  { injection E as <- <-. split; [reflexivity | exact Hr]. }
  destruct (N.eqb_spec c BSL) as [->|B].
  - destruct r as [|e r1]; [discriminate|].
    pose proof (clean_tail 1 _ Hr) as Hr1. cbn [skipn] in Hr1.
    cbn [length] in Ln.
    destruct (N.eqb_spec e (ch "u")) as [->|U].
    + destruct r1 as [|h1 [|h2 [|h3 [|h4 r2]]]]; try discriminate.
      pose proof (clean_tail 4 _ Hr1) as Hr2. cbn [skipn] in Hr2.
      cbn [length] in Ln.
      destruct (hex4_value h1 h2 h3 h4) as [k|] eqn:Hk; [|discriminate].
      pose proof (hex4_value_below _ _ _ _ _ Hk) as Bk.
      assert (Plain : forall v',
                 scanstring r2 = Ok (v', rest) ->
                 low_escape_ahead r2 = false \/ is_high k = false ->
                 storable (k :: v') = true /\ clean rest = true).
      { intros v' E' A.
        destruct (IH r2 v' rest) as (S' & C'); [lia | exact Hr2 | exact E' |].
        split; [|exact C']. apply storable_add; [lia | exact S' |].
        intros Hh. destruct A as [A|A]; [|congruence].
        exact (not_low_first r2 v' rest Hr2 E' A). }
      destruct (is_high k) eqn:Hh.
      * destruct r2 as [|b [|u [|k1 [|k2 [|k3 [|k4 r3]]]]]].
        1-6: apply cons_char_ok in E; destruct E as (v' & -> & E);
             apply Plain; [exact E | now left].
        cbn [low_escape_ahead] in Plain.
        destruct ((b =? BSL) && (u =? ch "u"))%N.
        2: { apply cons_char_ok in E. destruct E as (v' & -> & E).
             apply Plain; [exact E | now left]. }
        destruct (hex4_value k1 k2 k3 k4) as [m|] eqn:Hm; [|discriminate].
        destruct (is_low m) eqn:Hl.
        2: { apply cons_char_ok in E. destruct E as (v' & -> & E).
             apply Plain; [exact E | now left]. }
        apply cons_char_ok in E. destruct E as (v' & -> & E).
        pose proof (clean_tail 6 _ Hr2) as Hr3. cbn [skipn] in Hr3.
        cbn [length] in Ln.
        destruct (IH r3 v' rest) as (S' & C'); [lia | exact Hr3 | exact E |].
        split; [|exact C'].
        apply is_high_bounds in Hh. apply is_low_bounds in Hl.
        apply storable_add; [unfold join_surrogates; lia | exact S' |].
        intros J. apply is_high_bounds in J. unfold join_surrogates in J. lia.
      * apply cons_char_ok in E. destruct E as (v' & -> & E).
        apply Plain; [exact E | now right].
    + destruct (unescape e) as [y|] eqn:Y; [|discriminate].
      apply cons_char_ok in E. destruct E as (v' & -> & E).
      destruct (IH r1 v' rest) as (S' & C'); [lia | exact Hr1 | exact E |].
      split; [|exact C']. apply unescape_below in Y.
      apply storable_add; [lia | exact S' |].
      intros J. apply is_high_bounds in J. lia.
  - destruct (c <? 32)%N; [discriminate|].
    apply cons_char_ok in E. destruct E as (v' & -> & E).
    destruct (IH r v' rest) as (S' & C'); [lia | exact Hr | exact E |].
    split; [|exact C']. apply storable_add; [exact Vc | exact S' |].
    intros J. apply is_high_bounds in J. lia.
Qed.

Lemma skip_ws_clean (s : str) : clean s = true -> clean (skip_ws s) = true.
Proof.
  induction s as [|c s IH]; intros Hs; [exact Hs|]. cbn [skip_ws].
  destruct ((c =? ch " ") || (c =? TAB) || (c =? LF) || (c =? CR))%N;
    [|exact Hs].
  apply IH. now apply clean_cons in Hs.
Qed.

Lemma strip_prefix_clean (p s r : str) :
  strip_prefix p s = Some r -> clean s = true -> clean r = true.
Proof.
  revert s. induction p as [|a p IH]; intros s E Hs.
  - destruct s; injection E as <-; exact Hs.
  - destruct s as [|b s]; [discriminate|]. cbn [strip_prefix] in E.
    destruct (a =? b)%N; [|discriminate].
    apply (IH s E). now apply clean_cons in Hs.
Qed.

Lemma span_digits_clean (s : str) :
  clean s = true -> clean (snd (span_digits s)) = true.
Proof.
  induction s as [|c s IH]; intros Hs; [exact Hs|]. cbn [span_digits].
  destruct (is_digit c); [|exact Hs].
  specialize (IH (proj2 (proj2 (clean_cons c s Hs)))).
  destruct (span_digits s) as [ds rest]. exact IH.
Qed.

Lemma scan_int_clean (s i r : str) :
  scan_int s = Some (i, r) -> clean s = true -> clean r = true.
Proof.
  unfold scan_int. intros E Hs.
  assert (H1 : forall x, clean x = true ->
             match x with
             | c :: r' =>
                 if (c =? ch "0")%N then clean r' = true
                 else if is_digit c then clean (snd (span_digits r')) = true
                 else True
             | [] => True
             end).
  { intros [|c r'] Hx; [exact I|].
    pose proof (proj2 (proj2 (clean_cons c r' Hx))) as Hr'.
    destruct (c =? ch "0")%N; [exact Hr'|].
    destruct (is_digit c); [now apply span_digits_clean | exact I]. }
  destruct s as [|c0 r0]; [discriminate|].
  pose proof (proj2 (proj2 (clean_cons c0 r0 Hs))) as Hr0.
  destruct (c0 =? ch "-")%N.
  - specialize (H1 r0 Hr0). destruct r0 as [|c r']; [discriminate|].
    destruct (c =? ch "0")%N; [injection E as _ <-; exact H1|].
    destruct (is_digit c); [|discriminate].
    destruct (span_digits r') as [ds rest]. injection E as _ <-. exact H1.
  - specialize (H1 (c0 :: r0) Hs). cbv beta iota in E, H1.
    destruct (c0 =? ch "0")%N; [injection E as _ <-; exact H1|].
    destruct (is_digit c0); [|discriminate].
    destruct (span_digits r0) as [ds rest]. injection E as _ <-. exact H1.
Qed.

Lemma scan_frac_clean (s : str) :
  clean s = true -> clean (snd (scan_frac s)) = true.
Proof.
  intros Hs. destruct s as [|c r]; [exact Hs|]. cbn [scan_frac].
  destruct (c =? ch ".")%N; [|exact Hs].
  pose proof (span_digits_clean r (proj2 (proj2 (clean_cons c r Hs)))) as H.
  destruct (span_digits r) as [[|d ds] rest]; [exact Hs | exact H].
Qed.

Lemma scan_exp_clean (s : str) :
  clean s = true -> clean (snd (scan_exp s)) = true.
Proof.
  intros Hs. destruct s as [|c r]; [exact Hs|]. cbn [scan_exp].
  destruct ((c =? ch "e") || (c =? ch "E"))%N; [|exact Hs].
  pose proof (proj2 (proj2 (clean_cons c r Hs))) as Hr.
  assert (H : forall x, clean x = true ->
             clean (snd (match span_digits x with
                         | ([], _) => ([], c :: r)
                         | (ds, rest) => (c :: ds, rest)
                         end)) = true).
  { intros x Hx. pose proof (span_digits_clean x Hx) as H.
    destruct (span_digits x) as [[|d ds] rest]; [exact Hs | exact H]. }
  destruct r as [|g r']; [exact (H [] eq_refl)|].
  destruct ((g =? ch "-") || (g =? ch "+"))%N.
  - pose proof (H r' (proj2 (proj2 (clean_cons g r' Hr)))) as H'.
    destruct (span_digits r') as [[|d ds] rest]; exact H'.
  - pose proof (H (g :: r') Hr) as H'.
    destruct (span_digits (g :: r')) as [[|d ds] rest]; exact H'.
Qed.

Lemma scan_number_clean (s l r : str) :
  scan_number s = Some (l, r) -> clean s = true -> clean r = true.
Proof.
  unfold scan_number. intros E Hs.
  destruct (scan_int s) as [[i r0]|] eqn:Ei; [|discriminate].
  pose proof (scan_int_clean s i r0 Ei Hs) as H0.
  pose proof (scan_frac_clean r0 H0) as H1.
  destruct (scan_frac r0) as [f r1]. cbn [snd] in H1.
  pose proof (scan_exp_clean r1 H1) as H2.
  destruct (scan_exp r1) as [e r2]. cbn [snd] in H2.
  injection E as _ <-. exact H2.
Qed.

Lemma parse_scalar_storable (s : str) (v : json) (rest : str) :
  clean s = true -> parse_scalar s = Ok (v, rest) ->
  json_storable v = true /\ clean rest = true.
Proof.
  intros Hs. unfold parse_scalar.
  repeat match goal with
         | |- context [strip_prefix ?p s] =>
             let E := fresh "E" in
             destruct (strip_prefix p s) as [r|] eqn:E;
               [intros X; injection X as <- <-; split;
                  [reflexivity | exact (strip_prefix_clean _ _ _ E Hs)] |]
         | |- context [scan_number s] =>
             let E := fresh "E" in
             destruct (scan_number s) as [[l r]|] eqn:E;
               [intros X; injection X as <- <-; split;
                  [reflexivity | exact (scan_number_clean _ _ _ E Hs)] |]
         end.
  discriminate.
Qed.

Lemma bind_ok {A B : Type} (r : result A) (k : A -> result B) (b : B) :
  bind r k = Ok b -> exists a, r = Ok a /\ k a = Ok b.
Proof. destruct r as [a| |]; simpl; try discriminate. now exists a. Qed.

(** The values that the decoder reads from a decoded text hold storable
    strings. *)
Lemma parse_storable (fuel : nat) :
  (forall depth s v rest,
      clean s = true -> parse_value depth fuel s = Ok (v, rest) ->
      json_storable v = true /\ clean rest = true)
  /\ (forall depth s vs rest,
         clean s = true -> parse_items depth fuel s = Ok (vs, rest) ->
         forallb json_storable vs = true /\ clean rest = true)
  /\ (forall depth s ms rest,
         clean s = true -> parse_members depth fuel s = Ok (ms, rest) ->
         json_storable (JObj ms) = true /\ clean rest = true).
Proof.
  induction fuel as [|f (IHv & IHi & IHm)];
    [repeat split; discriminate|].
  split; [|split].
  - intros depth s v rest Hs E. cbn [parse_value] in E.
    destruct s as [|c r]; [discriminate|].
    pose proof (proj2 (proj2 (clean_cons c r Hs))) as Hr.
    destruct (c =? DQ)%N.
    { apply bind_ok in E. destruct E as ([x r1] & E1 & E2).
      injection E2 as <- <-.
      exact (scanstring_storable _ r x r1 (le_n _) Hr E1). }
    destruct (c =? ch "{")%N.
    { destruct depth as [|d]; [discriminate|].
      pose proof (skip_ws_clean r Hr) as Hw.
      destruct (skip_ws r) as [|c1 r1]; [discriminate|].
      destruct (c1 =? ch "}")%N.
      - injection E as <- <-. split; [reflexivity|].
        now apply clean_cons in Hw.
      - apply bind_ok in E. destruct E as ([ms r2] & E1 & E2).
        injection E2 as <- <-. exact (IHm d _ _ _ Hw E1). }
    destruct (c =? ch "[")%N.
    { destruct depth as [|d]; [discriminate|].
      pose proof (skip_ws_clean r Hr) as Hw.
      destruct (skip_ws r) as [|c1 r1]; [discriminate|].
      destruct (c1 =? ch "]")%N.
      - injection E as <- <-. split; [reflexivity|].
        now apply clean_cons in Hw.
      - apply bind_ok in E. destruct E as ([vs r2] & E1 & E2).
        injection E2 as <- <-. exact (IHi d _ _ _ Hw E1). }
    exact (parse_scalar_storable _ _ _ Hs E).
  - intros depth s vs rest Hs E. cbn [parse_items] in E.
    apply bind_ok in E. destruct E as ([v r] & E1 & E2).
    destruct (IHv depth s v r Hs E1) as (Sv & Hr).
    pose proof (skip_ws_clean r Hr) as Hw.
    destruct (skip_ws r) as [|c r1]; [discriminate|].
    pose proof (proj2 (proj2 (clean_cons c r1 Hw))) as Hr1.
    destruct (c =? ch "]")%N.
    { injection E2 as <- <-. cbn [forallb]. now rewrite Sv. }
    destruct (c =? ch ",")%N; [|discriminate].
    apply bind_ok in E2. destruct E2 as ([vs' r2] & E2 & E3).
    injection E3 as <- <-.
    destruct (IHi depth _ _ _ (skip_ws_clean r1 Hr1) E2) as (Ss & Hr2).
    cbn [forallb]. now rewrite Sv, Ss.
  - intros depth s ms rest Hs E. cbn [parse_members] in E.
    destruct s as [|q r]; [discriminate|].
    pose proof (proj2 (proj2 (clean_cons q r Hs))) as Hr.
    destruct (q =? DQ)%N; [|discriminate].
    apply bind_ok in E. destruct E as ([k r1] & E1 & E2).
    destruct (scanstring_storable _ r k r1 (le_n _) Hr E1) as (Sk & Hr1).
    pose proof (skip_ws_clean r1 Hr1) as Hw1.
    destruct (skip_ws r1) as [|c r2]; [discriminate|].
    pose proof (proj2 (proj2 (clean_cons c r2 Hw1))) as Hr2.
    destruct (c =? ch ":")%N; [|discriminate].
    apply bind_ok in E2. destruct E2 as ([v r3] & E2 & E3).
    destruct (IHv depth _ _ _ (skip_ws_clean r2 Hr2) E2) as (Sv & Hr3).
    pose proof (skip_ws_clean r3 Hr3) as Hw3.
    destruct (skip_ws r3) as [|d r4]; [discriminate|].
    pose proof (proj2 (proj2 (clean_cons d r4 Hw3))) as Hr4.
    destruct (d =? ch "}")%N.
    { injection E3 as <- <-. cbn [json_storable forallb].
      now rewrite Sk, Sv. }
    destruct (d =? ch ",")%N; [|discriminate].
    apply bind_ok in E3. destruct E3 as ([ms' r5] & E3 & E4).
    injection E4 as <- <-.
    destruct (IHm depth _ _ _ (skip_ws_clean r4 Hr4) E3) as (Sm & Hr5).
    cbn [json_storable forallb] in *. now rewrite Sk, Sv, Sm.
Qed.

Lemma json_loads_storable (text : str) (v : json) :
  clean text = true -> json_loads text = Ok v -> json_storable v = true.
Proof.
  intros Hs E. unfold json_loads in E.
  apply bind_ok in E. destruct E as ([x rest] & E1 & E2).
  destruct (skip_ws rest); [|discriminate]. injection E2 as <-.
  exact (proj1 (proj1 (parse_storable _) _ _ _ _ (skip_ws_clean _ Hs) E1)).
Qed.

Lemma dict_get_member (k : str) (members : list (str * json)) (v : json) :
  dict_get k members = Some v -> exists k', In (k', v) members.
Proof.
  induction members as [|[k' x] ms IH]; simpl; [discriminate|].
  destruct (dict_get k ms) as [y|].
  - intros E. injection E as ->. destruct (IH eq_refl) as (k0 & H).
    exists k0. now right.
  - destruct (str_eqb k k'); [|discriminate].
    intros E. injection E as ->. exists k'. now left.
Qed.

Lemma Book_kwargs_storable (e : json) (b : Book) :
  json_storable e = true -> Book_kwargs e = Ok b -> storable_book b = true.
Proof.
  destruct e as [| | | | |members]; try discriminate.
  cbn [json_storable]. intros S. rewrite forallb_forall in S.
  assert (G : forall k x,
             dict_get k members = Some (JStr x) -> storable x = true).
  { intros k x E. destruct (dict_get_member _ _ _ E) as (k' & Hin).
    specialize (S _ Hin). cbv beta iota in S.
    apply andb_true_iff in S. apply S. }
  unfold Book_kwargs.
  destruct (forallb known_key (dict_keys members)); [|discriminate].
  destruct (dict_get (py "title") members) as [[| | |t| |]|] eqn:Et;
    try discriminate;
    destruct (dict_get (py "author") members) as [[| | |a| |]|] eqn:Ea;
    try discriminate;
    destruct (dict_get (py "isbn") members) as [[| | |i| |]|] eqn:Ei;
    try discriminate;
    destruct (dict_get (py "status") members) as [[| | |s| |]|] eqn:Es;
    try discriminate.
  all: intros E; injection E as <-; unfold storable_book;
    cbn [title author isbn status new_Book].
  - now rewrite (G _ _ Et), (G _ _ Ea), (G _ _ Ei), (G _ _ Es).
  - now rewrite (G _ _ Et), (G _ _ Ea), (G _ _ Ei).
Qed.

Lemma build_books_storable (entries : list json) (bs : list Book) :
  forallb json_storable entries = true -> build_books entries = Ok bs ->
  forallb storable_book bs = true.
Proof.
  intros S B. apply build_books_all in B.
  induction B as [|e b es bs' Hb _ IH]; [reflexivity|].
  cbn [forallb] in *. apply andb_true_iff in S. destruct S as [Se Ss].
  now rewrite (Book_kwargs_storable e b Se Hb), (IH Ss).
Qed.

(** The books loaded from a decoded text are storable. *)
Lemma read_books_storable (text : str) (bs : list Book) :
  clean text = true -> read_books text = Ok bs ->
  forallb storable_book bs = true.
Proof.
  intros Hs E. unfold read_books in E.
  apply bind_ok in E. destruct E as (data & E1 & E2).
  apply bind_ok in E2. destruct E2 as (entries & E2 & E3).
  pose proof (json_loads_storable text data Hs E1) as Sd.
  apply (build_books_storable entries); [|exact E3].
  destruct data as [| | |s|items|members]; try discriminate;
    injection E2 as <-.
  - destruct s as [|c s]; [reflexivity|].
    cbn [map build_books Book_kwargs] in E3. discriminate.
  - exact Sd.
  - destruct members as [|[k x] ms]; [reflexivity|].
    cbn [map dict_keys fst build_books Book_kwargs] in E3. discriminate.
Qed.

(** ** The lines typed, stripped *)

Lemma storable_nil_or_tail (c : char) (s : str) :
  storable (c :: s) = true -> storable s = true.
Proof. intros H. now apply storable_cons in H. Qed.

Lemma lstrip_storable (s : str) :
  storable s = true -> storable (lstrip s) = true.
Proof.
  induction s as [|c s IH]; intros H; [exact H|]. cbn [lstrip].
  destruct (is_space c); [|exact H].
  apply IH. exact (storable_nil_or_tail c s H).
Qed.

Lemma rstrip_head (s : str) (c : char) (r : str) :
  rstrip s = c :: r -> exists r', s = c :: r'.
Proof.
  destruct s as [|x s]; [discriminate|]. cbn [rstrip].
  destruct (rstrip s) as [|c' r'].
  - destruct (is_space x); [discriminate|].
    intros E. injection E as <- _. now exists s.
  - intros E. injection E as <- _. now exists s.
Qed.

Lemma rstrip_storable (s : str) :
  storable s = true -> storable (rstrip s) = true.
Proof.
  induction s as [|c s IH]; intros H; [exact H|].
  destruct (storable_cons c s H) as (V & Ss & P).
  specialize (IH Ss). cbn [rstrip].
  destruct (rstrip s) as [|c' r'] eqn:R.
  - destruct (is_space c); [reflexivity|].
    apply storable_add; [now apply N.ltb_lt | reflexivity | intros _; exact I].
  - apply storable_add; [now apply N.ltb_lt | exact IH |].
    intros Hh. destruct (rstrip_head s c' r' R) as (r'' & ->).
    now apply P.
Qed.

Lemma strip_storable (s : str) :
  storable s = true -> storable (strip s) = true.
Proof. intros H. unfold strip. now apply rstrip_storable, lstrip_storable. Qed.

(** ** The file at the end of main *)

Lemma replace_nth_storable (bs : list Book) (pos : nat) (b : Book) :
  forallb storable_book bs = true -> storable_book b = true ->
  forallb storable_book (replace_nth pos b bs) = true.
Proof.
  revert pos. induction bs as [|x bs IH]; intros pos Hs Hb;
    [now destruct pos|].
  cbn [forallb] in Hs. apply andb_true_iff in Hs. destruct Hs as [Hx Hs].
  destruct pos as [|p]; cbn [replace_nth forallb].
  - now rewrite Hb, Hs.
  - now rewrite Hx, IH.
Qed.

Lemma find_isbn_in (i : str) (bs : list Book) (pos q : nat) (b : Book) :
  find_isbn i bs pos = Some (q, b) -> In b bs.
Proof.
  revert pos. induction bs as [|x bs IH]; intros pos; simpl; [discriminate|].
  destruct (str_eqb (isbn x) i).
  - intros E. injection E as _ <-. now left.
  - intros F. right. exact (IH _ F).
Qed.

Lemma with_status_storable (b : Book) (s : str) :
  storable_book b = true -> storable s = true ->
  storable_book (with_status b s) = true.
Proof.
  unfold storable_book. cbn [with_status title author isbn status].
  rewrite !andb_true_iff. intros (((T & A) & I) & _) S. now repeat split.
Qed.

Lemma found_storable (i : str) (bs : list Book) (pos : nat) (b : Book)
  (s : str) :
  forallb storable_book bs = true -> find_isbn i bs 0 = Some (pos, b) ->
  storable s = true ->
  forallb storable_book (replace_nth pos (with_status b s) bs) = true.
Proof.
  intros Hs F S. apply replace_nth_storable; [exact Hs|].
  apply with_status_storable; [|exact S].
  rewrite forallb_forall in Hs. apply Hs. exact (find_isbn_in _ _ _ _ _ F).
Qed.

Lemma loaded_books_storable (d : node) (w : writing) (st0 : state) :
  decoded d -> LibraryInventory d w = Ok st0 ->
  forallb storable_book (books st0) = true.
Proof.
  intros D L. rewrite LibraryInventory_eq in L.
  destruct d as [|text| |]; try discriminate.
  - now injection L as <-.
  - destruct (read_books text) as [bs|[]|] eqn:R; try discriminate;
      injection L as <-; try reflexivity.
    exact (read_books_storable text bs D R).
  - now injection L as <-.
Qed.

Lemma loaded_state (d : node) (w : writing) (st0 : state) :
  LibraryInventory d w = Ok st0 ->
  disk st0 = d /\ medium st0 = w /\ d <> Inaccessible.
Proof.
  intros L. rewrite LibraryInventory_eq in L.
  destruct d as [|text| |]; try discriminate.
  - injection L as <-. repeat split. discriminate.
  - destruct (read_books text) as [bs|[]|]; try discriminate;
      injection L as <-; repeat split; discriminate.
  - injection L as <-. repeat split. discriminate.
Qed.



(** ** Book.__str__ and the case of the status *)

Lemma same_letter_sym (c d : char) : same_letter c d -> same_letter d c.
Proof.
  intros [E | [E | E]]; [now left; symmetry | now right; right
                        | now right; left].
Qed.

Lemma Forall2_same_letter_sym (a b : str) :
  Forall2 same_letter a b -> Forall2 same_letter b a.
Proof.
  induction 1 as [|c d a b L F IH]; constructor;
    [now apply same_letter_sym | exact IH].
Qed.

Lemma capital_of_small (c : char) :
  (97 <= c <= 122)%N -> capital c = Ok [(c - 32)%N].
Proof.
  intros [L U].
  assert (H : (c < N.of_nat 123)%N) by lia.
  pose proof (below_all 123
                (fun c => if (97 <=? c)%N
                          then match capital c with
                               | Ok [x] => (x =? c - 32)%N
                               | _ => false
                               end
                          else true) eq_refl c H) as E.
  cbv beta in E. apply N.leb_le in L. rewrite L in E.
  destruct (capital c) as [[|x [|? ?]]| |]; try discriminate.
  apply N.eqb_eq in E. now subst.
Qed.

Lemma capital_of_capital (c : char) :
  (65 <= c <= 90)%N -> capital c = Ok [c].
Proof.
  intros [L U].
  assert (H : (c < N.of_nat 91)%N) by lia.
  pose proof (below_all 91
                (fun c => if (65 <=? c)%N
                          then match capital c with
                               | Ok [x] => (x =? c)%N
                               | _ => false
                               end
                          else true) eq_refl c H) as E.
  cbv beta in E. apply N.leb_le in L. rewrite L in E.
  destruct (capital c) as [[|x [|? ?]]| |]; try discriminate.
  apply N.eqb_eq in E. now subst.
Qed.

(** A status that is [word] up to the case of its letters is shown as
    [word] with a capital first letter. *)
Lemma capitalize_word (s : str) (a : char) (word : str) :
  (97 <= a <= 122)%N -> below_256 word ->
  map small_of word = word ->
  Forall2 same_letter s (a :: word) ->
  capitalize s = Ok ((a - 32)%N :: word).
Proof.
  intros Ha Hw Sw F. inversion F as [|c ? r ? L Fr]; subst.
  cbn [capitalize].
  assert (Hr : below_256 r).
  { apply (Forall2_same_letter_below_256 word); [exact Hw|].
    now apply Forall2_same_letter_sym. }
  rewrite (lower_from_below_256 r Hr).
  rewrite (proj2 (map_small_of_same r word Hr Hw) Fr), Sw.
  assert (C : capital c = Ok [(a - 32)%N]).
  { assert (Hc : (c = a \/ c = a - 32)%N)
      by (unfold same_letter, capital_letter in L; lia).
    destruct Hc as [-> | ->].
    - now apply capital_of_small.
    - rewrite capital_of_capital by lia. reflexivity. }
  now rewrite C.
Qed.

(** X18.  [str(book)] shows the status capitalized: a status that is
    the word available up to the case of its letters is shown as
    Available, and one that is the word issued up to the case of its
    letters as Issued, although [issue] and [return_book] compare the
    status exactly. *)
Theorem str_hides_the_case_of_the_status :
  forall b : Book,
    (Forall2 same_letter (status b) (py "available") ->
     __str__ b
     = Ok (py "Title: " ++ title b ++ py ", Author: " ++ author b
           ++ py ", ISBN: " ++ isbn b ++ py ", Status: Available"))
    /\ (Forall2 same_letter (status b) (py "issued") ->
        __str__ b
        = Ok (py "Title: " ++ title b ++ py ", Author: " ++ author b
              ++ py ", ISBN: " ++ isbn b ++ py ", Status: Issued")).
Proof.
  intros b. unfold __str__. split; intros F.
  - rewrite (capitalize_word (status b) (ch "a") (py "vailable"));
      [reflexivity | vm_compute; split; discriminate | repeat constructor
      | reflexivity | exact F].
  - rewrite (capitalize_word (status b) (ch "i") (py "ssued"));
      [reflexivity | vm_compute; split; discriminate | repeat constructor
      | reflexivity | exact F].
Qed.

(** Dune with the status in capitals: shown as Available, and neither
    issued nor returned by any call. *)
Lemma str_hides_the_case_of_the_status_witness :
  Forall2 same_letter (status (with_status dune (py "AVAILABLE")))
    (py "available")
  /\ __str__ (with_status dune (py "AVAILABLE")) = __str__ dune
  /\ fst (issue (with_status dune (py "AVAILABLE"))) = false
  /\ fst (return_book_method (with_status dune (py "AVAILABLE"))) = false.
Proof.
  assert (F : Forall2 same_letter
                (status (with_status dune (py "AVAILABLE")))
                (py "available")).
  { cbn. repeat (apply Forall2_cons;
            [right; left; split; [unfold capital_letter; lia | reflexivity]|]).
    apply Forall2_nil. }
  split; [exact F|]. split; [|split; reflexivity].
  rewrite (proj1 (str_hides_the_case_of_the_status _) F). reflexivity.
Defined.

(** ** issue_book and return_book with their input *)

(** X19.  [issue_book] and [return_book] read one line, strip it, and
    act on the inventory as for the stripped ISBN: what surrounds the
    ISBN typed does not matter.  With no line left they raise
    [EOFError] after the header, and the books and the file stay as they
    are. *)
Theorem commands_strip_the_isbn_typed :
  forall (st : state) (rest : list str) (shown : list io),
    (forall l,
       exists shown',
         issue_book_command (mkSession st (l :: rest) shown)
         = Returned (mkSession (issue_book st (strip l)) rest shown'))
    /\ (forall l,
          exists shown',
            return_book_command (mkSession st (l :: rest) shown)
            = Returned (mkSession (return_book st (strip l)) rest shown'))
    /\ (forall l l',
          strip l = strip l' ->
          inv (session_of (issue_book_command (mkSession st (l :: rest) shown)))
          = inv (session_of
                   (issue_book_command (mkSession st (l' :: rest) shown)))
          /\ inv (session_of
                    (return_book_command (mkSession st (l :: rest) shown)))
             = inv (session_of
                      (return_book_command (mkSession st (l' :: rest) shown))))
    /\ (exists s',
          issue_book_command (mkSession st [] shown) = EOFError s'
          /\ same_store st (inv s'))
    /\ (exists s',
          return_book_command (mkSession st [] shown) = EOFError s'
          /\ same_store st (inv s')).
Proof.
  intros st rest shown. split; [|split; [|split; [|split]]].
  - intros l. eexists. reflexivity.
  - intros l. eexists. reflexivity.
  - intros l l' E. unfold issue_book_command, return_book_command, ask,
      get_valid_input. cbn. now rewrite E.
  - eexists. split; [reflexivity | repeat split].
  - eexists. split; [reflexivity | repeat split].
Qed.
